(** * ClassicArcadeGame: the entity and board simulation of js/app.js

    A shallow embedding of the classes of [js/app.js], of the loop and the
    key listener of the engine, and of the properties that the
    specification of the game states about them.

    Conventions of the embedding.
    - A JavaScript number is an exact rational ([Q]) in the classes of the
      game: the values the game places its cells, its player and its
      diamonds with are integers and halves of integers, the only division
      of the program being by two, and on these the arithmetic of doubles
      is exact.  Where a property speaks of the exact value of a sum or a
      product of arbitrary numbers, the methods concerned are embedded
      once more over IEEE 754 doubles, with their rounding ([Double]).
      Array indices and grid coordinates are integers ([Z]), array lengths
      are naturals.
    - A function that can throw returns a [Completion].  A method that
      mutates its receiver returns its completion together with the
      receiver as the call leaves it, also when it throws; the methods of
      the board are such transformers ([M]) of the board and of the source
      of random numbers.
    - [Math.random] is an arbitrary sequence of samples together with the
      number of samples already drawn.
    - Every entity of a board holds a reference to that board ([_board]); the
      methods below take the board, or its grid, as an argument instead.
    - The one loop of the program that need not end, in [placeDiamonds],
      runs on fuel. *)

From Stdlib Require Import QArith Qround ZArith List String Bool Lia Lqa SpecFloat.
Import ListNotations.

Open Scope Q_scope.

(** ** Exceptions and completions *)

Inductive JsError : Type :=
| Error (message : string)
| TypeError
| ReferenceError
| RangeError.

Inductive Completion (A : Type) : Type :=
| Return (a : A)
| Throw (e : JsError).

Arguments Return {A} a.
Arguments Throw {A} e.

Definition bindC {A B : Type} (c : Completion A) (k : A -> Completion B) : Completion B :=
  match c with
  | Return a => k a
  | Throw e => Throw e
  end.

Declare Scope completion_scope.
Delimit Scope completion_scope with completion.
Notation "'try' x <- c 'in' k" := (bindC c (fun x => k))
  (at level 10, x name, c at level 100, k at level 200) : completion_scope.
Open Scope completion_scope.

(** [arr[i]] on an array: [undefined] (here [None]) outside the array. *)
Definition js_get {A : Type} (arr : list A) (i : Z) : option A :=
  if (i <? 0)%Z then None else nth_error arr (Z.to_nat i).

(** [arr.splice(index, 1)] for a non-negative index. *)
Fixpoint splice1 {A : Type} (arr : list A) (index : nat) : list A :=
  match arr, index with
  | [], _ => []
  | _ :: rest, O => rest
  | a :: rest, S i => a :: splice1 rest i
  end.

(** [arr[index] = v] for an index inside the array. *)
Fixpoint js_set {A : Type} (arr : list A) (index : nat) (v : A) : list A :=
  match arr, index with
  | [], _ => []
  | _ :: rest, O => v :: rest
  | a :: rest, S i => a :: js_set rest i v
  end.

(** ** Geometry *)

Module Point.

Record t : Type := mk { x : Q; y : Q }.

Definition clone (p : t) : t := mk (x p) (y p).

Definition offset (p : t) (xOffset yOffset : Q) : t :=
  mk (x p + xOffset) (y p + yOffset).

(** Two points denote the same place. *)
Definition same (p q : t) : Prop := x p == x q /\ y p == y q.

End Point.

Module Dimensions.

Record t : Type := mk { width : Q; height : Q }.

Definition clone (d : t) : t := mk (width d) (height d).

End Dimensions.

Module Area.

Record t : Type := mk { position : Point.t; dimensions : Dimensions.t }.

(** [new Area(position, dimensions)] with an argument that may be [null]. *)
Definition new (position : option Point.t) (dimensions : option Dimensions.t) : Completion t :=
  match position, dimensions with
  | None, _ => Throw (Error "an area must have a position")
  | Some _, None => Throw (Error "an area must have dimensions")
  | Some p, Some d => Return (mk p d)
  end.

Definition width (a : t) : Q := Dimensions.width (dimensions a).
Definition height (a : t) : Q := Dimensions.height (dimensions a).

Definition topLeft (a : t) : Point.t := Point.clone (position a).

Definition topRight (a : t) : Point.t :=
  Point.mk (Point.x (position a) + Dimensions.width (dimensions a)) (Point.y (position a)).

Definition bottomLeft (a : t) : Point.t :=
  Point.mk (Point.x (position a)) (Point.y (position a) + Dimensions.height (dimensions a)).

Definition bottomRight (a : t) : Point.t :=
  Point.mk (Point.x (position a) + Dimensions.width (dimensions a))
           (Point.y (position a) + Dimensions.height (dimensions a)).

Definition corners (a : t) : list Point.t :=
  [topLeft a; topRight a; bottomLeft a; bottomRight a].

Definition center (a : t) : Point.t :=
  Point.mk (Point.x (position a) + Dimensions.width (dimensions a) / 2)
           (Point.y (position a) + Dimensions.height (dimensions a) / 2).

(** What a caller may pass where a Point or an Area is expected. *)
Inductive ObjectInSpace : Type :=
| IsPoint (p : Point.t)
| IsArea (a : t)
| Neither.

(** The [instanceof Point] branch of [contains]. *)
Definition containsPoint (a : t) (p : Point.t) : bool :=
  Qle_bool (Point.x (topLeft a)) (Point.x p) &&
  Qle_bool (Point.x p) (Point.x (topRight a)) &&
  Qle_bool (Point.y (topLeft a)) (Point.y p) &&
  Qle_bool (Point.y p) (Point.y (bottomLeft a)).

Definition contains (a : t) (objectInSpace : ObjectInSpace) : Completion bool :=
  match objectInSpace with
  | IsPoint p => Return (containsPoint a p)
  | IsArea b => Return (forallb (fun corner => containsPoint a corner) (corners b))
  | Neither => Throw (Error "only objects of type Point and Area are supported")
  end.

(** The [instanceof Area] branch of [intersectsWith]. *)
Definition intersectsArea (a b : t) : bool :=
  existsb (fun corner => containsPoint a corner) (corners b) ||
  existsb (fun corner => containsPoint b corner) (corners a).

Definition intersectsWith (a : t) (objectInSpace : ObjectInSpace) : Completion bool :=
  match objectInSpace with
  | IsPoint p => contains a (IsPoint p)
  | IsArea b => Return (intersectsArea a b)
  | Neither => Throw (Error "only objects of type Point and Area are supported")
  end.

Definition offset (a : t) (xOffset yOffset : Q) : t :=
  mk (Point.offset (position a) xOffset yOffset) (Dimensions.clone (dimensions a)).

Definition centerOnPoint (a : t) (p : Point.t) : t :=
  mk (Point.mk (Point.x p - Dimensions.width (dimensions a) / 2)
               (Point.y p - Dimensions.height (dimensions a) / 2))
     (dimensions a).

Definition centerOn (a : t) (objectInSpace : ObjectInSpace) : Completion t :=
  match objectInSpace with
  | IsPoint p => Return (centerOnPoint a p)
  | IsArea b => Return (centerOnPoint a (center b))
  | Neither => Throw (Error "only objects of type Point and Area are supported")
  end.

(** The edges of an area, as the specification names them. *)
Definition left (a : t) : Q := Point.x (topLeft a).
Definition right (a : t) : Q := Point.x (topRight a).
Definition top (a : t) : Q := Point.y (topLeft a).
Definition bottom (a : t) : Q := Point.y (bottomLeft a).

End Area.

(** ** Entities *)

Module EntityVisual.

Record t : Type := mk {
  sprite : string;
  dimensions : option Dimensions.t;
  occupiedArea : Area.t
}.

(** [new EntityVisual({sprite, dimensions = null, occupiedArea = null})]. *)
Definition new (sprite : string) (dimensions : option Dimensions.t)
    (occupiedArea : option Area.t) : Completion t :=
  match occupiedArea with
  | Some a => Return (mk sprite dimensions a)
  | None =>
      try a <- Area.new (Some (Point.mk 0 0)) dimensions in
      Return (mk sprite dimensions a)
  end.

End EntityVisual.

Module GridPosition.

Record t : Type := mk { row : Z; column : Z }.

End GridPosition.

Inductive CellType : Type := water | road | grass.

Definition CellType_eqb (a b : CellType) : bool :=
  match a, b with
  | water, water | road, road | grass, grass => true
  | _, _ => false
  end.

(** An increment vector [{x, y}]. *)
Record Vector : Type := mkVector { vx : Q; vy : Q }.

(** The class of an instance, with the fields that its class adds to those
    of [Entity].  [Actor] adds [canMoveOutsideBoard]; the constructor of
    [Enemy] passes [true] for it and nothing assigns it afterwards, so an
    enemy carries only [moveIncrement] and [respawnOnNextUpdate]. *)
Inductive EntityClass : Type :=
| Prop_
| Diamond_
| BoardGridCell_ (_type : CellType) (_gridPosition : GridPosition.t)
| Actor_ (canMoveOutsideBoard : bool)
| Enemy_ (moveIncrement : Vector) (respawnOnNextUpdate : bool).

(** The fields of class [Entity], and the class of the instance. *)
Record Entity : Type := mkEntity {
  _visual : EntityVisual.t;
  _position : Point.t;
  zIndex : Z;
  removeOnHit : bool;
  hitScoreIncrement : Q;
  class : EntityClass
}.

Definition setPosition (e : Entity) (position : Point.t) : Entity :=
  mkEntity (_visual e) position (zIndex e) (removeOnHit e) (hitScoreIncrement e) (class e).

Definition setClass (e : Entity) (c : EntityClass) : Entity :=
  mkEntity (_visual e) (_position e) (zIndex e) (removeOnHit e) (hitScoreIncrement e) c.

(** ** The grid and its cells *)

Module BoardGridCell.

Definition typeToSprite (type : CellType) : string :=
  match type with
  | grass => "images/grass.png"
  | road => "images/road.png"
  | water => "images/water.png"
  end.

(** [BoardGrid.calculateCellPosition], which reads the cell visual template
    of the board of the grid and nothing else. *)
Definition calculateCellPosition (boardTemplate : EntityVisual.t) (row column : Z) : Point.t :=
  let cellOccupiedAreaDimensions := Area.dimensions (EntityVisual.occupiedArea boardTemplate) in
  Point.mk (inject_Z column * Dimensions.width cellOccupiedAreaDimensions)
           (inject_Z row * Dimensions.height cellOccupiedAreaDimensions).

(** [new BoardGridCell({grid, type, zIndex})]: the grid position defaults to
    (0, 0).  The visual is given its occupied area, so that its constructor
    cannot throw. *)
Definition new (boardTemplate : EntityVisual.t) (type : CellType) (zIndex : Z) : Entity :=
  let visual := EntityVisual.mk (typeToSprite type) None
                  (Area.mk (Point.mk 0 52) (Dimensions.mk 101 83)) in
  let hitScoreIncrement := if CellType_eqb type water then 2 else 0 in
  mkEntity visual (calculateCellPosition boardTemplate 0 0) zIndex false hitScoreIncrement
           (BoardGridCell_ type (GridPosition.mk 0 0)).

Definition placeInGrid (boardTemplate : EntityVisual.t) (cell : Entity) (row column : Z) : Entity :=
  match class cell with
  | BoardGridCell_ type _ =>
      setPosition (setClass cell (BoardGridCell_ type (GridPosition.mk row column)))
                  (calculateCellPosition boardTemplate row column)
  | _ => cell
  end.

End BoardGridCell.

Module BoardGrid.

Record t : Type := mk {
  _numberOfColumns : nat;
  _rowTypes : list CellType;
  _rows : list (list Entity);
  (** [this._board.cellVisualTemplate], all that the grid reads of its board *)
  _board_cellVisualTemplate : EntityVisual.t;
  _cellVisualTemplate : EntityVisual.t;
  _area : Area.t;
  _occupiedArea : Area.t;
  _cells : list Entity
}.

Definition cellVisualTemplate (g : t) : EntityVisual.t := _cellVisualTemplate g.
Definition area (g : t) : Area.t := _area g.
Definition occupiedArea (g : t) : Area.t := _occupiedArea g.
Definition cells (g : t) : list Entity := _cells g.
Definition numberOfRows (g : t) : nat := List.length (_rowTypes g).
Definition numberOfColumns (g : t) : nat := _numberOfColumns g.
Definition rows (g : t) : list (list Entity) := _rows g.

Definition calculateCellPosition (g : t) (row column : Z) : Point.t :=
  BoardGridCell.calculateCellPosition (_board_cellVisualTemplate g) row column.

(** The inner loop of the constructor: the cells of one row, each created
    and then assigned to its column by [setCell]. *)
Definition newRow (boardTemplate : EntityVisual.t) (numberOfColumns : nat)
    (type : CellType) (zIndex : Z) (rowIndex : nat) : list Entity :=
  map (fun columnIndex =>
         BoardGridCell.placeInGrid boardTemplate
           (BoardGridCell.new boardTemplate type zIndex)
           (Z.of_nat rowIndex) (Z.of_nat columnIndex))
      (seq 0 numberOfColumns).

(** The outer loop of the constructor, from row [rowIndex] on; [zIndex] is
    the value of the variable before [zIndex += rowIndex]. *)
Fixpoint newRows (boardTemplate : EntityVisual.t) (numberOfColumns : nat)
    (rowTypes : list CellType) (rowIndex : nat) (zIndex : Z) : list (list Entity) :=
  match rowTypes with
  | [] => []
  | type :: rest =>
      let zIndex' := (zIndex + Z.of_nat rowIndex)%Z in
      newRow boardTemplate numberOfColumns type zIndex' rowIndex
        :: newRows boardTemplate numberOfColumns rest (S rowIndex) zIndex'
  end.

(** [new BoardGrid({board, numberOfColumns, rowTypes, cellVisualTemplate})];
    [canvas] stands for the size of the canvas of the global context. *)
Definition new (boardTemplate : EntityVisual.t) (numberOfColumns : nat)
    (rowTypes : list CellType) (cellVisualTemplate : EntityVisual.t)
    (canvas : Dimensions.t) : t :=
  let rows := newRows boardTemplate numberOfColumns rowTypes 0 0 in
  mk numberOfColumns rowTypes rows boardTemplate cellVisualTemplate
     (Area.mk (Point.mk 0 0) (Dimensions.mk (Dimensions.width canvas) (Dimensions.height canvas)))
     (Area.mk (Point.clone (Area.position (EntityVisual.occupiedArea cellVisualTemplate)))
        (Dimensions.mk
           (Area.width (EntityVisual.occupiedArea cellVisualTemplate) * inject_Z (Z.of_nat numberOfColumns))
           (Area.height (EntityVisual.occupiedArea cellVisualTemplate) * inject_Z (Z.of_nat (List.length rowTypes)))))
     (List.concat rows).

(** [this._rows[row][column]]: reading a column of [undefined] throws,
    reading past the end of a row gives [undefined]. *)
Definition getCell (g : t) (row column : Z) : Completion (option Entity) :=
  match js_get (_rows g) row with
  | None => Throw TypeError
  | Some cellsOfRow => Return (js_get cellsOfRow column)
  end.

Definition hasCell (g : t) (row column : Z) : bool :=
  (0 <=? row)%Z && (row <? Z.of_nat (numberOfRows g))%Z &&
  (0 <=? column)%Z && (column <? Z.of_nat (numberOfColumns g))%Z.

(** [entity.type]: a getter of grid cells, [undefined] on other entities. *)
Definition typeOf (e : Entity) : option CellType :=
  match class e with
  | BoardGridCell_ type _ => Some type
  | _ => None
  end.

(** The getter [rowTypes]: [this._rows.map(row => row[0].type)]. *)
Fixpoint rowTypesOf (rows : list (list Entity)) : Completion (list (option CellType)) :=
  match rows with
  | [] => Return []
  | row :: rest =>
      match js_get row 0 with
      | None => Throw TypeError
      | Some cell =>
          try types <- rowTypesOf rest in
          Return (typeOf cell :: types)
      end
  end.

Definition rowTypes (g : t) : Completion (list (option CellType)) := rowTypesOf (_rows g).

End BoardGrid.

(** ** The player and the board *)

(** [Player extends Actor]: [super] holds the inherited fields, of class
    [Actor_ false]. *)
Record Player : Type := mkPlayer {
  super : Entity;
  _gridPosition : GridPosition.t;
  score : Q
}.

Module Range.

Record t : Type := mk { min : Q; max : Q }.

End Range.

(** [player] is [None] until the constructor has assigned it. *)
Record Board : Type := mkBoard {
  numberOfEnemies : nat;
  numberOfDiamonds : nat;
  enemyIncrementRange : Range.t;
  _cellVisualTemplate : EntityVisual.t;
  _grid : BoardGrid.t;
  nonPlayerEntities : list Entity;
  player : option Player
}.

Definition setEntities (b : Board) (entities : list Entity) : Board :=
  mkBoard (numberOfEnemies b) (numberOfDiamonds b) (enemyIncrementRange b)
          (_cellVisualTemplate b) (_grid b) entities (player b).

Definition setPlayer (b : Board) (p : Player) : Board :=
  mkBoard (numberOfEnemies b) (numberOfDiamonds b) (enemyIncrementRange b)
          (_cellVisualTemplate b) (_grid b) (nonPlayerEntities b) (Some p).

(** The getter [Board.playerStartPosition], which reads the grid only. *)
Definition playerStartPosition (g : BoardGrid.t) : GridPosition.t :=
  GridPosition.mk (Z.of_nat (BoardGrid.numberOfRows g) - 1)
                  (Qceiling ((inject_Z (Z.of_nat (BoardGrid.numberOfColumns g)) - 1) / 2)).

(** ** The state of a run and its transformers *)

(** The board under way, the samples [Math.random] is going to return and
    the number of samples drawn so far. *)
Record World : Type := mkWorld {
  board : Board;
  random : nat -> Q;
  drawn : nat
}.

(** A method of the board: its completion and the state it leaves. *)
Definition M (A : Type) : Type := World -> Completion A * World.

Definition ret {A : Type} (a : A) : M A := fun w => (Return a, w).

Definition throw {A : Type} (e : JsError) : M A := fun w => (Throw e, w).

Definition bind {A B : Type} (m : M A) (k : A -> M B) : M B :=
  fun w =>
    match m w with
    | (Return a, w') => k a w'
    | (Throw e, w') => (Throw e, w')
    end.

Definition liftC {A : Type} (c : Completion A) : M A := fun w => (c, w).

Definition getBoard : M Board := fun w => (Return (board w), w).

Definition putBoard (b : Board) : M unit :=
  fun w => (Return tt, mkWorld b (random w) (drawn w)).

Declare Scope method_scope.
Delimit Scope method_scope with method.
Notation "x <- m ;; k" := (bind m (fun x => k))
  (at level 61, m at next level, right associativity) : method_scope.
Notation "m ;; k" := (bind m (fun _ => k))
  (at level 61, right associativity) : method_scope.

Definition Math_random : M Q :=
  fun w => (Return (random w (drawn w)), mkWorld (board w) (random w) (S (drawn w))).

Definition randBetween (min max : Q) : M Z :=
  (r <- Math_random ;;
   ret (Qfloor (r * (max - min + 1) + min)))%method.

(** ** Methods of Entity, Actor and Enemy *)

Module Entity.

Definition position (e : Entity) : Point.t := _position e.

Definition dimensions (e : Entity) : option Dimensions.t := EntityVisual.dimensions (_visual e).

Definition area (e : Entity) : Completion Area.t :=
  Area.new (Some (_position e)) (EntityVisual.dimensions (_visual e)).

Definition occupiedArea (e : Entity) : Area.t :=
  Area.offset (EntityVisual.occupiedArea (_visual e))
              (Point.x (_position e)) (Point.y (_position e)).

Definition touches (e entity : Entity) : Completion bool :=
  Area.intersectsWith (occupiedArea e) (Area.IsArea (occupiedArea entity)).

Definition moveToCell (g : BoardGrid.t) (e : Entity) (row column : Z) : Completion Entity :=
  try cell <- BoardGrid.getCell g row column in
  match cell with
  | None => Throw TypeError
  | Some cell =>
      let cellArea := occupiedArea cell in
      let actorArea := occupiedArea e in
      try newActorArea <- Area.centerOn actorArea (Area.IsArea cellArea) in
      Return (setPosition e
                (Point.offset (_position e)
                   (Point.x (Area.position newActorArea) - Point.x (Area.position actorArea))
                   (Point.y (Area.position newActorArea) - Point.y (Area.position actorArea))))
  end.

Definition someOnTheBoard (g : BoardGrid.t) (e : Entity) : Completion bool :=
  Area.intersectsWith (occupiedArea e) (Area.IsArea (BoardGrid.occupiedArea g)).

Definition instanceofEnemy (e : Entity) : bool :=
  match class e with Enemy_ _ _ => true | _ => false end.

Definition instanceofDiamond (e : Entity) : bool :=
  match class e with Diamond_ => true | _ => false end.

Definition instanceofBoardGridCell (e : Entity) : bool :=
  match class e with BoardGridCell_ _ _ => true | _ => false end.

End Entity.

Module Actor.

(** [this.canMoveOutsideBoard]; [None] on an instance that is no Actor. *)
Definition canMoveOutsideBoard (a : Entity) : option bool :=
  match class a with
  | Actor_ allowed => Some allowed
  | Enemy_ _ _ => Some true
  | _ => None
  end.

(** [board.area]: class Board declares no [area], the property reads as
    [undefined]. *)
Definition Board_area (b : Board) : Area.ObjectInSpace := Area.Neither.

(** [canMove] names a free identifier [board] (not [this._board]);
    [globalBoard] is what the identifier resolves to in the global scope,
    [None] where nothing declares it.  Neither js/app.js nor the engine
    declares it: the [board] of the engine is local to its closure. *)
Definition canMove (globalBoard : option Board) (a : Entity) (increment : Vector) : Completion bool :=
  match canMoveOutsideBoard a with
  | None => Throw TypeError
  | Some true => Return true
  | Some false =>
      let newOccupiedArea := Area.offset (Entity.occupiedArea a) (vx increment) (vy increment) in
      match globalBoard with
      | None => Throw ReferenceError
      | Some board => Area.intersectsWith newOccupiedArea (Board_area board)
      end
  end.

(** [move] returns its completion and the actor as the call leaves it. *)
Definition move (globalBoard : option Board) (a : Entity) (increment : Vector) : Completion bool * Entity :=
  match canMove globalBoard a (mkVector (vx increment) (vy increment)) with
  | Throw e => (Throw e, a)
  | Return false => (Return false, a)
  | Return true =>
      (Return true, setPosition a (Point.offset (Entity.position a) (vx increment) (vy increment)))
  end.

End Actor.

Module Diamond.

Definition new (position : Point.t) (hitScoreIncrement : Q) : Entity :=
  let visual := EntityVisual.mk "images/diamond.png" None
                  (Area.mk (Point.mk 3 100) (Dimensions.mk 95 62)) in
  mkEntity visual position 101 true hitScoreIncrement Diamond_.

End Diamond.

Module Enemy.

(** [new Enemy({board, hitScoreIncrement, removeOnHit, moveIncrement})]:
    cloning the dimensions of the cell visual template throws when the
    template has none. *)
Definition new (g : BoardGrid.t) (hitScoreIncrement : Q) (removeOnHit : bool)
    (moveIncrement : Vector) : Completion Entity :=
  match EntityVisual.dimensions (BoardGrid.cellVisualTemplate g) with
  | None => Throw TypeError
  | Some d =>
      let visual := EntityVisual.mk
                      (if Qle_bool 0 (vx moveIncrement)
                       then "images/enemy-right.png" else "images/enemy-left.png")
                      (Some (Dimensions.clone d))
                      (Area.mk (Point.mk 2 102) (Dimensions.mk 96 42)) in
      Return (mkEntity visual (Point.mk 0 0) 200 removeOnHit hitScoreIncrement
                       (Enemy_ moveIncrement false))
  end.

Definition moveIncrement (e : Entity) : option Vector :=
  match class e with Enemy_ increment _ => Some increment | _ => None end.

Definition respawnOnNextUpdate (e : Entity) : bool :=
  match class e with Enemy_ _ flag => flag | _ => false end.

(** [update(dt)] returns its completion and the enemy as the call leaves it. *)
Definition update (globalBoard : option Board) (g : BoardGrid.t) (e : Entity) (dt : Q)
    : Completion unit * Entity :=
  match class e with
  | Enemy_ moveIncrement _ =>
      let increment := mkVector (vx moveIncrement * dt) (vy moveIncrement * dt) in
      match Actor.move globalBoard e increment with
      | (Throw err, e') => (Throw err, e')
      | (Return _, e') =>
          match Entity.someOnTheBoard g e' with
          | Throw err => (Throw err, e')
          | Return some => (Return tt, setClass e' (Enemy_ moveIncrement (negb some)))
          end
      end
  | _ => (Throw TypeError, e)
  end.

End Enemy.

Module Player.

(** [new Player(board)]; the constructor reads the grid of the board and its
    start position. *)
Definition new (g : BoardGrid.t) : Completion Player :=
  let visual := EntityVisual.mk "images/player.png" None
                  (Area.mk (Point.mk 34 120) (Dimensions.mk 34 20)) in
  let this := mkEntity visual (Point.mk 0 0) 300 false 0 (Actor_ false) in
  let gridPosition := playerStartPosition g in
  try this' <- Entity.moveToCell g this (GridPosition.row gridPosition)
                                  (GridPosition.column gridPosition) in
  Return (mkPlayer this' gridPosition 0).

Definition position (p : Player) : Point.t := _position (super p).

(** The setter of [position]. *)
Definition set_position (p : Player) (position : Point.t) : Completion unit * Player :=
  (Throw (Error "player entities are not allowed to move freely"), p).

Definition canMove (p : Player) (increment : Vector) : Completion bool * Player :=
  (Throw (Error "player entities are not allowed to move freely, use canMoveInGrid instead"), p).

Definition move (p : Player) (increment : Vector) : Completion bool * Player :=
  (Throw (Error "player entities are not allowed to move freely, use moveInGrid instead"), p).

Definition canMoveInGrid (g : BoardGrid.t) (p : Player) (direction : string) : bool :=
  let row := GridPosition.row (_gridPosition p) in
  let column := GridPosition.column (_gridPosition p) in
  if String.eqb direction "left" then BoardGrid.hasCell g row (column - 1)
  else if String.eqb direction "up" then BoardGrid.hasCell g (row - 1) column
  else if String.eqb direction "right" then BoardGrid.hasCell g row (column + 1)
  else if String.eqb direction "down" then BoardGrid.hasCell g (row + 1) column
  else false.

(** The second [switch] of [moveInGrid]: the grid position after the step,
    [None] for the [default] branch. *)
Definition stepInGrid (position : GridPosition.t) (direction : string) : option GridPosition.t :=
  let row := GridPosition.row position in
  let column := GridPosition.column position in
  if String.eqb direction "left" then Some (GridPosition.mk row (column - 1))
  else if String.eqb direction "up" then Some (GridPosition.mk (row - 1) column)
  else if String.eqb direction "right" then Some (GridPosition.mk row (column + 1))
  else if String.eqb direction "down" then Some (GridPosition.mk (row + 1) column)
  else None.

Definition moveInGrid (g : BoardGrid.t) (p : Player) (direction : string) : Completion bool * Player :=
  if negb (canMoveInGrid g p direction) then (Return false, p)
  else
    match stepInGrid (_gridPosition p) direction with
    | None => (Throw (Error "unsupported direction"), p)
    | Some gridPosition =>
        let p' := mkPlayer (super p) gridPosition (score p) in
        match Entity.moveToCell g (super p') (GridPosition.row gridPosition)
                                (GridPosition.column gridPosition) with
        | Throw e => (Throw e, p')
        | Return this' => (Return true, mkPlayer this' gridPosition (score p))
        end
    end.

Definition occupiedCell (g : BoardGrid.t) (p : Player) : Completion (option Entity) :=
  BoardGrid.getCell g (GridPosition.row (_gridPosition p)) (GridPosition.column (_gridPosition p)).

(** [bleed(direction)] pushes the blood prop on the entities of the board of
    the player, the board of the state. *)
Definition bleed (p : Player) (direction : Q) : M unit :=
  (b <- getBoard ;;
   visual <- liftC (EntityVisual.new
                      (if Qle_bool 0 direction then "images/blood-right.png" else "images/blood-left.png")
                      (EntityVisual.dimensions (BoardGrid.cellVisualTemplate (_grid b)))
                      None) ;;
   let blood := mkEntity visual (Point.clone (_position (super p))) 100 false 0 Prop_ in
   putBoard (setEntities b (nonPlayerEntities b ++ [blood])))%method.

End Player.

Module Board.

Definition grid (b : Board) : BoardGrid.t := _grid b.

Definition cellVisualTemplate (b : Board) : EntityVisual.t := _cellVisualTemplate b.

(** One turn of the loop of [placeDiamonds]; [indices] is the set of the
    indices drawn so far, without repetition. *)
Definition placeDiamond (roadCells : list Entity) (indices : list Z) : M (list Z) :=
  (index <- randBetween 0 (inject_Z (Z.of_nat (List.length roadCells))) ;;
   if existsb (Z.eqb index) indices then ret indices
   else
     match js_get roadCells index with
     | None => throw TypeError
     | Some cell =>
         let diamond := Diamond.new (Point.clone (Entity.position cell)) 1 in
         b <- getBoard ;;
         diamond' <- liftC (match class cell with
                            | BoardGridCell_ _ gridPosition =>
                                Entity.moveToCell (_grid b) diamond
                                  (GridPosition.row gridPosition) (GridPosition.column gridPosition)
                            | _ => Throw TypeError
                            end) ;;
         putBoard (setEntities b (nonPlayerEntities b ++ [diamond'])) ;;
         ret (index :: indices)
     end)%method.

(** The [while] loop of [placeDiamonds], for at most [fuel] turns; [None]
    when the turns do not suffice. *)
Fixpoint placeDiamondsLoop (fuel : nat) (numberOfDiamonds : nat) (roadCells : list Entity)
    (indices : list Z) (w : World) : option (Completion unit * World) :=
  if (List.length indices <? numberOfDiamonds)%nat then
    match fuel with
    | O => None
    | S fuel' =>
        match placeDiamond roadCells indices w with
        | (Return indices', w') => placeDiamondsLoop fuel' numberOfDiamonds roadCells indices' w'
        | (Throw e, w') => Some (Throw e, w')
        end
    end
  else Some (Return tt, w).

(** [placeDiamonds()].  The callback of the first statement is a plain
    function, the [this] of which is [undefined]: it throws on the first
    diamond it meets. *)
Definition placeDiamonds (fuel : nat) (w : World) : option (Completion unit * World) :=
  let b := board w in
  if existsb Entity.instanceofDiamond (nonPlayerEntities b) then Some (Throw TypeError, w)
  else
    let roadCells :=
      filter (fun cell => match BoardGrid.typeOf cell with Some road => true | _ => false end)
             (BoardGrid.cells (_grid b)) in
    if (List.length roadCells <? numberOfDiamonds b)%nat
    then Some (Throw (Error "not enough space on board to place all diamonds"), w)
    else placeDiamondsLoop fuel (numberOfDiamonds b) roadCells [] w.

Definition respawnPlayer (keepScore : bool) : M unit :=
  (b <- getBoard ;;
   match player b with
   | None => throw TypeError
   | Some old =>
       let score := score old in
       p <- liftC (Player.new (_grid b)) ;;
       putBoard (setPlayer b (if keepScore then mkPlayer (super p) (_gridPosition p) score else p))
   end)%method.

(** [rowTypes.map((row, index) => row === "road" ? index : -1)], from
    index [index] on. *)
Fixpoint roadOrMinusOne (types : list (option CellType)) (index : nat) : list Z :=
  match types with
  | [] => []
  | Some road :: rest => Z.of_nat index :: roadOrMinusOne rest (S index)
  | _ :: rest => (-1)%Z :: roadOrMinusOne rest (S index)
  end.

Definition roadRowIndices (types : list (option CellType)) : list Z :=
  filter (fun index => negb (index =? -1)%Z) (roadOrMinusOne types 0).

(** The last step of [spawnEnemy]: the enemy is moved out of the board. *)
Definition moveOutside (direction : Z) (enemy : Entity) : Completion Entity :=
  try area <- Entity.area enemy in
  if (direction =? 1)%Z then
    Return (setPosition enemy
              (Point.offset (Entity.position enemy)
                 (-1 * (Area.width area -
                        (Point.x (Area.topRight area) - Point.x (Area.topRight (Entity.occupiedArea enemy)))))
                 0))
  else
    Return (setPosition enemy
              (Point.offset (Entity.position enemy)
                 (Area.width area -
                  (Point.x (Area.topLeft area) - Point.x (Area.topLeft (Entity.occupiedArea enemy))))
                 0)).

Definition spawnEnemy : M unit :=
  (coin <- randBetween 0 1 ;;
   let direction := if (coin =? 1)%Z then 1%Z else (-1)%Z in
   b <- getBoard ;;
   types <- liftC (BoardGrid.rowTypes (_grid b)) ;;
   let roadRowIndices := roadRowIndices types in
   roadIndex <- randBetween 0 (inject_Z (Z.of_nat (List.length roadRowIndices)) - 1) ;;
   let cellRowIndex := js_get roadRowIndices roadIndex in
   let cellColumnIndex :=
     if (direction =? 1)%Z then 0%Z
     else (Z.of_nat (BoardGrid.numberOfColumns (_grid b)) - 1)%Z in
   speed <- randBetween (inject_Z direction * Range.min (enemyIncrementRange b))
                        (inject_Z direction * Range.max (enemyIncrementRange b)) ;;
   enemy <- liftC (Enemy.new (_grid b) (-2) false (mkVector (inject_Z speed) 0)) ;;
   enemy <- liftC (match cellRowIndex with
                   | None => Throw TypeError
                   | Some row => Entity.moveToCell (_grid b) enemy row cellColumnIndex
                   end) ;;
   enemy <- liftC (moveOutside direction enemy) ;;
   b <- getBoard ;;
   putBoard (setEntities b (nonPlayerEntities b ++ [enemy])))%method.

(** [count] calls of [spawnEnemy]: the loop of [respawnEnemies]. *)
Fixpoint spawnEnemies (count : nat) : M unit :=
  match count with
  | O => ret tt
  | S count' => (spawnEnemy ;; spawnEnemies count')%method
  end.

Definition respawnEnemies : M unit :=
  (b <- getBoard ;;
   putBoard (setEntities b (filter (fun entity => negb (Entity.instanceofEnemy entity))
                                   (nonPlayerEntities b))) ;;
   spawnEnemies (numberOfEnemies b))%method.

(** What [update] does when the player touches [entity], found at [index]. *)
Definition hit (index : nat) (entity : Entity) : M unit :=
  (b <- getBoard ;;
   match player b with
   | None => throw TypeError
   | Some p =>
       putBoard (setPlayer b (mkPlayer (super p) (_gridPosition p)
                                       (score p + hitScoreIncrement entity))) ;;
       (if removeOnHit entity
        then (b <- getBoard ;; putBoard (setEntities b (splice1 (nonPlayerEntities b) index)))
        else ret tt) ;;
       (match class entity with
        | Enemy_ moveIncrement _ =>
            (b <- getBoard ;;
             match player b with
             | None => throw TypeError
             | Some p => Player.bleed p (vx moveIncrement)
             end) ;;
            respawnPlayer true
        | _ => ret tt
        end) ;;
       (match class entity with
        | BoardGridCell_ water _ => respawnPlayer true
        | _ => ret tt
        end)
   end)%method.

(** The last block of the loop of [update], for an enemy found at [index]:
    [entity.update(dt)], then the replacement of an enemy that has left the
    board.  The enemy that [update] mutates is the element of the array,
    unless the hit has spliced it out ([detached]). *)
Definition updateEnemy (globalBoard : option Board) (dt : Q) (index : nat) (entity : Entity)
    (detached : bool) : M unit :=
  (b <- getBoard ;;
   let (completion, entity') := Enemy.update globalBoard (_grid b) entity dt in
   (if detached then ret tt
    else putBoard (setEntities b (js_set (nonPlayerEntities b) index entity'))) ;;
   liftC completion ;;
   if Enemy.respawnOnNextUpdate entity' then
     b <- getBoard ;;
     putBoard (setEntities b (splice1 (nonPlayerEntities b) index)) ;;
     spawnEnemy
   else ret tt)%method.

(** The body of the loop of [update], for the entity at [index]. *)
Definition updateEntity (globalBoard : option Board) (dt : Q) (index : nat) : M unit :=
  (b <- getBoard ;;
   match player b, nth_error (nonPlayerEntities b) index with
   | None, _ => throw TypeError
   | Some _, None => throw TypeError
   | Some p, Some entity =>
       touched <- liftC (Entity.touches (super p) entity) ;;
       (if touched : bool then hit index entity else ret tt) ;;
       if Entity.instanceofEnemy entity
       then updateEnemy globalBoard dt index entity (touched && removeOnHit entity)
       else ret tt
   end)%method.

(** The loop of [update], from index [count - 1] down to 0. *)
Fixpoint updateFrom (globalBoard : option Board) (dt : Q) (count : nat) : M unit :=
  match count with
  | O => ret tt
  | S index => (updateEntity globalBoard dt index ;; updateFrom globalBoard dt index)%method
  end.

Definition update (globalBoard : option Board) (dt : Q) : M unit :=
  (b <- getBoard ;;
   updateFrom globalBoard dt (List.length (nonPlayerEntities b)))%method.

(** [new Board({numberOfColumns, rowTypes, numberOfEnemies, numberOfDiamonds,
    enemyIncrementRange, cellVisualTemplate})]: the board is the one of the
    state returned.  [fuel] bounds the loop of [placeDiamonds]. *)
Definition new (numberOfColumns : nat) (rowTypes : list CellType) (numberOfEnemies : nat)
    (numberOfDiamonds : nat) (enemyIncrementRange : Range.t) (cellVisualTemplate : EntityVisual.t)
    (canvas : Dimensions.t) (fuel : nat) (random : nat -> Q) (drawn : nat)
    : option (Completion unit * World) :=
  let grid := BoardGrid.new cellVisualTemplate numberOfColumns rowTypes cellVisualTemplate canvas in
  let this := mkBoard numberOfEnemies numberOfDiamonds enemyIncrementRange cellVisualTemplate
                      grid (BoardGrid.cells grid) None in
  match placeDiamonds fuel (mkWorld this random drawn) with
  | None => None
  | Some (Throw e, w) => Some (Throw e, w)
  | Some (Return _, w) =>
      Some ((p <- liftC (Player.new (_grid (board w))) ;;
             b <- getBoard ;;
             putBoard (setPlayer b p) ;;
             respawnEnemies)%method w)
  end.

End Board.

(** ** The engine *)

Module Engine.

(** [main()], once for each frame: [board.update(dt)], the rendering of the
    board, which changes nothing of it, and the request of the next frame;
    [dts] are the time deltas of the frames to come. *)
Fixpoint main (globalBoard : option Board) (dts : list Q) : M unit :=
  match dts with
  | [] => ret tt
  | dt :: rest => (Board.update globalBoard dt ;; main globalBoard rest)%method
  end.

(** The listener of the keys: [board.player.moveInGrid(direction)]. *)
Definition keyup (direction : string) : M bool :=
  (b <- getBoard ;;
   match player b with
   | None => throw TypeError
   | Some p =>
       let (completion, p') := Player.moveInGrid (_grid b) p direction in
       putBoard (setPlayer b p') ;;
       liftC completion
   end)%method.

End Engine.

(** * The arithmetic of the program: doubles

    A JavaScript number is an IEEE 754 double: [+] and [*] round their
    exact result to the nearest double, ties to even, and [<=] and [>=] are
    false when an operand is NaN.  The methods of [Area] and the update of
    an enemy are embedded here over the doubles of the Standard Library
    ([spec_float] at the precision 53 and the exponent bound 1024 of
    binary64), operation by operation as js/app.js writes them. *)

Module Double.

Definition number : Type := spec_float.

(** [a + b] and [a * b]. *)
Definition add (a b : number) : number := SFadd 53 1024 a b.
Definition mul (a b : number) : number := SFmul 53 1024 a b.

(** [a <= b] and [a >= b]. *)
Definition leb (a b : number) : bool :=
  match SFcompare a b with
  | Some Lt | Some Eq => true
  | _ => false
  end.

Definition geb (a b : number) : bool :=
  match SFcompare a b with
  | Some Gt | Some Eq => true
  | _ => false
  end.

Module Point.

Record t : Type := mk { x : number; y : number }.

Definition clone (p : t) : t := mk (x p) (y p).

Definition offset (p : t) (xOffset yOffset : number) : t :=
  mk (add (x p) xOffset) (add (y p) yOffset).

End Point.

Module Dimensions.

Record t : Type := mk { width : number; height : number }.

Definition clone (d : t) : t := mk (width d) (height d).

End Dimensions.

Module Area.

Record t : Type := mk { position : Point.t; dimensions : Dimensions.t }.

Definition width (a : t) : number := Dimensions.width (dimensions a).
Definition height (a : t) : number := Dimensions.height (dimensions a).

Definition topLeft (a : t) : Point.t := Point.clone (position a).

Definition topRight (a : t) : Point.t :=
  Point.mk (add (Point.x (position a)) (Dimensions.width (dimensions a))) (Point.y (position a)).

Definition bottomLeft (a : t) : Point.t :=
  Point.mk (Point.x (position a)) (add (Point.y (position a)) (Dimensions.height (dimensions a))).

Definition bottomRight (a : t) : Point.t :=
  Point.mk (add (Point.x (position a)) (Dimensions.width (dimensions a)))
           (add (Point.y (position a)) (Dimensions.height (dimensions a))).

Definition corners (a : t) : list Point.t :=
  [topLeft a; topRight a; bottomLeft a; bottomRight a].

(** What a caller may pass where a Point or an Area is expected. *)
Inductive ObjectInSpace : Type :=
| IsPoint (p : Point.t)
| IsArea (a : t)
| Neither.

(** The [instanceof Point] branch of [contains]. *)
Definition containsPoint (a : t) (p : Point.t) : bool :=
  geb (Point.x p) (Point.x (topLeft a)) &&
  leb (Point.x p) (Point.x (topRight a)) &&
  geb (Point.y p) (Point.y (topLeft a)) &&
  leb (Point.y p) (Point.y (bottomLeft a)).

Definition contains (a : t) (objectInSpace : ObjectInSpace) : Completion bool :=
  match objectInSpace with
  | IsPoint p => Return (containsPoint a p)
  | IsArea b => Return (forallb (fun corner => containsPoint a corner) (corners b))
  | Neither => Throw (Error "only objects of type Point and Area are supported")
  end.

(** The [instanceof Area] branch of [intersectsWith]. *)
Definition intersectsArea (a b : t) : bool :=
  existsb (fun corner => containsPoint a corner) (corners b) ||
  existsb (fun corner => containsPoint b corner) (corners a).

Definition intersectsWith (a : t) (objectInSpace : ObjectInSpace) : Completion bool :=
  match objectInSpace with
  | IsPoint p => contains a (IsPoint p)
  | IsArea b => Return (intersectsArea a b)
  | Neither => Throw (Error "only objects of type Point and Area are supported")
  end.

Definition offset (a : t) (xOffset yOffset : number) : t :=
  mk (Point.offset (position a) xOffset yOffset) (Dimensions.clone (dimensions a)).

End Area.

Record Vector : Type := mkVector { vx : number; vy : number }.

(** An enemy, with what [update] reads and writes of it: the occupied area
    of its visual, its position, its move increment and its flag.  The
    constructor sets [canMoveOutsideBoard] to [true] and nothing assigns
    it. *)
Record Enemy : Type := mkEnemy {
  visualOccupiedArea : Area.t;
  _position : Point.t;
  moveIncrement : Vector;
  respawnOnNextUpdate : bool
}.

Module Entity.

Definition position (e : Enemy) : Point.t := _position e.

Definition occupiedArea (e : Enemy) : Area.t :=
  Area.offset (visualOccupiedArea e) (Point.x (_position e)) (Point.y (_position e)).

(** [gridOccupiedArea] is [this._board.grid.occupiedArea]. *)
Definition someOnTheBoard (gridOccupiedArea : Area.t) (e : Enemy) : Completion bool :=
  Area.intersectsWith (occupiedArea e) (Area.IsArea gridOccupiedArea).

End Entity.

Module Actor.

(** [canMove] of an enemy leaves by its first statement. *)
Definition canMove (e : Enemy) (increment : Vector) : Completion bool := Return true.

Definition move (e : Enemy) (increment : Vector) : Completion bool * Enemy :=
  match canMove e (mkVector (vx increment) (vy increment)) with
  | Throw err => (Throw err, e)
  | Return false => (Return false, e)
  | Return true =>
      (Return true,
       mkEnemy (visualOccupiedArea e)
               (Point.offset (Entity.position e) (vx increment) (vy increment))
               (moveIncrement e) (respawnOnNextUpdate e))
  end.

End Actor.

Module Enemy.

Definition update (gridOccupiedArea : Area.t) (e : Enemy) (dt : number)
    : Completion unit * Enemy :=
  let increment := mkVector (mul (vx (moveIncrement e)) dt) (mul (vy (moveIncrement e)) dt) in
  match Actor.move e increment with
  | (Throw err, e') => (Throw err, e')
  | (Return _, e') =>
      match Entity.someOnTheBoard gridOccupiedArea e' with
      | Throw err => (Throw err, e')
      | Return some =>
          (Return tt,
           mkEnemy (visualOccupiedArea e') (_position e') (moveIncrement e') (negb some))
      end
  end.

End Enemy.

End Double.

(** * Notions that the properties are stated with *)

(** ** Boards as the constructor leaves them *)

(** [g] is the grid that [new BoardGrid] builds from the parameters that [g]
    records: nothing assigns a field of a grid after its construction. *)
Definition constructed (g : BoardGrid.t) : Prop :=
  g = BoardGrid.new (BoardGrid._board_cellVisualTemplate g) (BoardGrid._numberOfColumns g)
        (BoardGrid._rowTypes g) (BoardGrid._cellVisualTemplate g)
        (Area.dimensions (BoardGrid._area g)).

(** The cell that the constructor leaves at a position of the grid. *)
Definition cellOf (boardTemplate : EntityVisual.t) (type : CellType) (zIndex : Z)
    (row column : Z) : Entity :=
  BoardGridCell.placeInGrid boardTemplate (BoardGridCell.new boardTemplate type zIndex) row column.

(** The samples of [Math.random] lie in the interval from 0 to 1, 1 excluded. *)
Definition randomOK (random : nat -> Q) : Prop := forall n, 0 <= random n < 1.

Definition countEnemies (b : Board) : nat :=
  List.length (filter Entity.instanceofEnemy (nonPlayerEntities b)).

(** No enemy of the list is removed when hit. *)
Definition enemiesStay (entities : list Entity) : Prop :=
  Forall (fun e => Entity.instanceofEnemy e = true -> removeOnHit e = false) entities.

(** What the constructor of a board with a road row establishes and what
    [update] relies on: the grid is the constructed one and has a column,
    the player is set, no enemy is removed when hit, and the cell visual
    template has dimensions unless the board has no enemy at all. *)
Definition boardOK (b : Board) : Prop :=
  constructed (_grid b) /\
  In road (BoardGrid._rowTypes (_grid b)) /\
  (1 <= BoardGrid.numberOfColumns (_grid b))%nat /\
  player b <> None /\
  enemiesStay (nonPlayerEntities b) /\
  (countEnemies b = 0%nat \/
   EntityVisual.dimensions (BoardGrid.cellVisualTemplate (_grid b)) <> None).

(** The transient blood props: the only instances of class Prop itself. *)
Definition isBlood (e : Entity) : bool :=
  match class e with Prop_ => true | _ => false end.

Definition isWaterCell (e : Entity) : bool :=
  match class e with BoardGridCell_ water _ => true | _ => false end.

(** The occupied area that the engine gives the cell visual template; the
    constructor of a cell gives the same to the visual of every cell. *)
Definition engineOccupiedArea : Area.t := Area.mk (Point.mk 0 52) (Dimensions.mk 101 83).

(** ** The player on its cell *)

(** The player stands on the cell of its grid position: that cell exists
    and the centre of the occupied area of the player is the centre of the
    occupied area of the cell. *)
Definition centredOnItsCell (g : BoardGrid.t) (p : Player) : Prop :=
  exists cell,
    BoardGrid.getCell g (GridPosition.row (_gridPosition p)) (GridPosition.column (_gridPosition p))
    = Return (Some cell) /\
    Point.same (Area.center (Entity.occupiedArea (super p)))
               (Area.center (Entity.occupiedArea cell)).

(** [p'] is [p] moved to the cell at [row] and [column]: nothing else of
    the player has changed. *)
Definition movedTo (g : BoardGrid.t) (p p' : Player) (row column : Z) : Prop :=
  _gridPosition p' = GridPosition.mk row column /\
  score p' = score p /\
  super p' = setPosition (super p) (Player.position p') /\
  centredOnItsCell g p'.

(** ** The states that the steps of a pass lead to *)

(** The direction that [spawnEnemy] draws first in state [w]: 1 for left to
    right, -1 for right to left. *)
Definition spawnDirection (w : World) : Z :=
  if (Qfloor (random w (drawn w) * (1 - 0 + 1) + 0) =? 1)%Z then 1%Z else (-1)%Z.

(** The column in which [spawnEnemy] lets an enemy of that direction start. *)
Definition spawnColumn (g : BoardGrid.t) (direction : Z) : Z :=
  if (direction =? 1)%Z then 0%Z else (Z.of_nat (BoardGrid.numberOfColumns g) - 1)%Z.

(** The state after [spawnEnemy] has appended [enemy]: three samples drawn. *)
Definition spawned (w : World) (enemy : Entity) : World :=
  mkWorld (setEntities (board w) (nonPlayerEntities (board w) ++ [enemy]))
          (random w) (S (S (S (drawn w)))).

(** The blood prop that [bleed] creates where the player stands, the cell
    visual template having dimensions [d]. *)
Definition bloodOf (p : Player) (direction : Q) (d : Dimensions.t) : Entity :=
  mkEntity (EntityVisual.mk
              (if Qle_bool 0 direction then "images/blood-right.png" else "images/blood-left.png")
              (Some d) (Area.mk (Point.mk 0 0) d))
           (Point.clone (Player.position p)) 100 false 0 Prop_.

(** The player with [increment] added to its score. *)
Definition scored (p : Player) (increment : Q) : Player :=
  mkPlayer (super p) (_gridPosition p) (score p + increment).

(** The state in which [update] has added the score of a hit on [entity],
    found at [index], and has removed the entity if it is removed on hit. *)
Definition afterHit (w : World) (p : Player) (index : nat) (entity : Entity) : World :=
  let b := setPlayer (board w) (scored p (hitScoreIncrement entity)) in
  mkWorld (if removeOnHit entity
           then setEntities b (splice1 (nonPlayerEntities b) index)
           else b)
          (random w) (drawn w).

(** [b'] has the grid and the number of enemies of [b]. *)
Definition sameSetup (b b' : Board) : Prop :=
  numberOfEnemies b' = numberOfEnemies b /\ _grid b' = _grid b.

(** Below [index] the entities of [b'] are those of [b]. *)
Definition sameBelow (index : nat) (b b' : Board) : Prop :=
  forall j, (j < index)%nat ->
    nth_error (nonPlayerEntities b') j = nth_error (nonPlayerEntities b) j.

(** What every step of the update pass keeps: the samples, the grid and
    the number of enemies asked for, the invariant of the board, the count
    of the enemies on it, and the entities below [index]. *)
Definition stepOK (index : nat) (w w' : World) : Prop :=
  random w' = random w /\
  sameSetup (board w) (board w') /\
  boardOK (board w') /\
  countEnemies (board w') = countEnemies (board w) /\
  sameBelow index (board w) (board w').

(** What the placement of the diamonds keeps of a board under construction. *)
Definition keptByDiamonds (w w' : World) : Prop :=
  random w' = random w /\
  sameSetup (board w) (board w') /\
  player (board w') = player (board w) /\
  filter Entity.instanceofEnemy (nonPlayerEntities (board w'))
  = filter Entity.instanceofEnemy (nonPlayerEntities (board w)).

(** ** A small board with the cells of the engine *)

(** The cell visual template and the canvas that the engine sets up: the
    sprite of a cell is 101 by 171 pixels. *)
Definition engineTemplate : EntityVisual.t :=
  EntityVisual.mk "images/road.png" (Some (Dimensions.mk 101 171))
                  (Area.mk (Point.mk 0 52) (Dimensions.mk 101 83)).

Definition engineCanvas : Dimensions.t := Dimensions.mk 300 150.

Definition engineRange : Range.t := Range.mk 50 500.

(** Samples that are all one half: [randBetween(0, 1)] then gives 1, the
    direction is left to right. *)
Definition halves : nat -> Q := fun _ => 1 # 2.

(** A grid of one grass cell. *)
Definition oneCellGrid : BoardGrid.t :=
  BoardGrid.new engineTemplate 1 [grass] engineTemplate engineCanvas.

(** A grid of three rows and two columns. *)
Definition smallGrid : BoardGrid.t :=
  BoardGrid.new engineTemplate 2 [water; road; grass] engineTemplate engineCanvas.

(** A player on the road cell of the second column of [smallGrid]. *)
Definition smallGridPlayer : Player :=
  mkPlayer (mkEntity (EntityVisual.mk "images/player.png" None
                        (Area.mk (Point.mk 34 120) (Dimensions.mk 34 20)))
                     (Point.mk (201 # 2) (93 # 2)) 300 false 0 (Actor_ false))
           (GridPosition.mk 1 1) 0.

(** An enemy on the road row of [smallGrid], over the player. *)
Definition touchingEnemy : Entity :=
  mkEntity (EntityVisual.mk "images/enemy-right.png" (Some (Dimensions.mk 101 171))
              (Area.mk (Point.mk 2 102) (Dimensions.mk 96 42)))
           (Point.mk 100 (107 # 2)) 200 false (-2)
           (Enemy_ (mkVector 50 0) false).

(** A diamond on the cell of the player. *)
Definition touchingDiamond : Entity := Diamond.new (Point.mk 101 (91 # 2)) 1.

(** A board on [smallGrid] with the entities [others] after its cells. *)
Definition smallBoard (others : list Entity) : Board :=
  mkBoard 1 0 engineRange engineTemplate smallGrid (BoardGrid.cells smallGrid ++ others)
          (Some smallGridPlayer).

Definition quietWorld : World := mkWorld (smallBoard []) halves 0.
Definition enemyWorld : World := mkWorld (smallBoard [touchingEnemy]) halves 0.
Definition diamondWorld : World := mkWorld (smallBoard [touchingDiamond]) halves 0.

(** The scenario of the specification: one column, the rows water, road and
    grass, no enemy and no diamond; the player goes up twice and the board
    is updated. *)
Definition crossing : option (Completion unit * World) :=
  match Board.new 1 [water; road; grass] 0 0 engineRange engineTemplate engineCanvas 0 halves 0 with
  | Some (Return _, w) =>
      Some ((Engine.keyup "up" ;; Engine.keyup "up" ;; Board.update None (1 # 60))%method w)
  | other => other
  end.

(** ** Rectangles as sets of points *)

Module Geometry.

(** The width and the height of an area are not negative. *)
Definition nonNegative (a : Area.t) : Prop := 0 <= Area.width a /\ 0 <= Area.height a.

(** [b] lies inside [a], edges included. *)
Definition inside (b a : Area.t) : Prop :=
  Area.left a <= Area.left b /\ Area.right b <= Area.right a /\
  Area.top a <= Area.top b /\ Area.bottom b <= Area.bottom a.

(** [a] and [b] share a point, edges included. *)
Definition overlap (a b : Area.t) : Prop :=
  Area.left a <= Area.right b /\ Area.left b <= Area.right a /\
  Area.top a <= Area.bottom b /\ Area.top b <= Area.bottom a.

(** [a] is no wider and no higher than [b]. *)
Definition fitsIn (a b : Area.t) : Prop :=
  Area.width a <= Area.width b /\ Area.height a <= Area.height b.

(** [a] reaches over [b] on the left and on the right, [b] over [a] at the
    top and at the bottom: the two form a cross. *)
Definition crosses (a b : Area.t) : Prop :=
  Area.left a < Area.left b /\ Area.right b < Area.right a /\
  Area.top b < Area.top a /\ Area.bottom a < Area.bottom b.

Definition unitSquare : Area.t := Area.mk (Point.mk 0 0) (Dimensions.mk 1 1).
Definition bigSquare : Area.t := Area.mk (Point.mk (-1) (-1)) (Dimensions.mk 3 3).
Definition flatBar : Area.t := Area.mk (Point.mk (-1) 1) (Dimensions.mk 5 1).
Definition highBar : Area.t := Area.mk (Point.mk 1 (-1)) (Dimensions.mk 1 5).

End Geometry.

(** ** Directions *)

(** The direction that leads back. *)
Definition opposite (direction : string) : string :=
  if String.eqb direction "left" then "right"
  else if String.eqb direction "up" then "down"
  else if String.eqb direction "right" then "left"
  else if String.eqb direction "down" then "up"
  else direction.

(** A grid without a row, and a grid of rows without a column. *)
Definition noRowGrid : BoardGrid.t :=
  BoardGrid.new engineTemplate 2 [] engineTemplate engineCanvas.

Definition noColumnGrid : BoardGrid.t :=
  BoardGrid.new engineTemplate 0 [water; road] engineTemplate engineCanvas.

(** ** Counting *)

(** The sum of the numbers up to [r]. *)
Definition triangular (r : nat) : Z := (Z.of_nat r * (Z.of_nat r + 1) / 2)%Z.

(** ** Boards to try the spawning on *)

(** A grid of grass and water only, and a board on it. *)
Definition noRoadGrid : BoardGrid.t :=
  BoardGrid.new engineTemplate 2 [water; grass] engineTemplate engineCanvas.

Definition noRoadWorld : World :=
  mkWorld (mkBoard 1 0 engineRange engineTemplate noRoadGrid (BoardGrid.cells noRoadGrid) None)
          halves 0.

(** Samples that are all zero: [randBetween(0, 1)] then gives 0, the
    direction is right to left. *)
Definition zeros : nat -> Q := fun _ => 0.

Definition leftWorld : World := mkWorld (smallBoard []) zeros 0.

(** The speed that [spawnEnemy] draws third in state [w], for the direction
    drawn first. *)
Definition spawnSpeed (w : World) : Z :=
  Qfloor (random w (S (S (drawn w))) *
          (inject_Z (spawnDirection w) * Range.max (enemyIncrementRange (board w)) -
           inject_Z (spawnDirection w) * Range.min (enemyIncrementRange (board w)) + 1) +
          inject_Z (spawnDirection w) * Range.min (enemyIncrementRange (board w))).

(** ** The placing of the diamonds *)

(** The cells that [placeDiamonds] chooses from. *)
Definition roadCellsOf (g : BoardGrid.t) : list Entity :=
  filter (fun cell => match BoardGrid.typeOf cell with Some road => true | _ => false end)
         (BoardGrid.cells g).

(** The index that [placeDiamonds] draws on turn [k] of its loop, entered
    in state [w]. *)
Definition drawnIndex (w : World) (k : nat) : Z :=
  Qfloor (random w (k + drawn w) *
          (inject_Z (Z.of_nat (List.length (roadCellsOf (_grid (board w))))) - 0 + 1) + 0).

(** [diamond] is the diamond that [placeDiamonds] puts on the road cell
    [cell]: a new diamond of score 1, moved to the cell. *)
Definition diamondOn (cell diamond : Entity) : Prop :=
  BoardGrid.typeOf cell = Some road /\
  diamond = setPosition (Diamond.new (Point.clone (Entity.position cell)) 1)
                        (Entity.position diamond) /\
  Point.same (Area.center (Entity.occupiedArea diamond))
             (Area.center (Entity.occupiedArea cell)).

(** The state in which [entities] have been appended to those of the board
    and [draws] samples have been drawn: [placeDiamonds] draws one sample
    for a diamond, [spawnEnemy] three for an enemy. *)
Definition placed (w : World) (entities : list Entity) (draws : nat) : World :=
  mkWorld (setEntities (board w) (nonPlayerEntities (board w) ++ entities))
          (random w) (draws + drawn w).

(** Samples that are 0 first and one half from then on, and samples that
    are all nine tenths. *)
Definition zeroThenHalves : nat -> Q := fun n => if Nat.eqb n 0 then 0 else 1 # 2.

Definition nineTenths : nat -> Q := fun _ => 9 # 10.

(** Boards on [smallGrid] that await two diamonds and one diamond. *)
Definition placingWorld : World :=
  mkWorld (mkBoard 0 2 engineRange engineTemplate smallGrid (BoardGrid.cells smallGrid) None)
          zeroThenHalves 0.

Definition pastTheEndWorld : World :=
  mkWorld (mkBoard 0 1 engineRange engineTemplate smallGrid (BoardGrid.cells smallGrid) None)
          nineTenths 0.

(** ** A player on the water *)

(** The occupied area that the constructor gives the visual of a player. *)
Definition playerOccupiedArea : Area.t := Area.mk (Point.mk 34 120) (Dimensions.mk 34 20).

(** A player on the water cell of the second column of [smallGrid], and
    the board with it. *)
Definition waterPlayer : Player :=
  mkPlayer (mkEntity (EntityVisual.mk "images/player.png" None playerOccupiedArea)
                     (Point.mk (201 # 2) (- (73 # 2))) 300 false 0 (Actor_ false))
           (GridPosition.mk 0 1) 5.

Definition waterWorld : World :=
  mkWorld (mkBoard 0 0 engineRange engineTemplate smallGrid (BoardGrid.cells smallGrid)
                   (Some waterPlayer))
          halves 0.

(** ** What a pass leaves on the board *)

(** The entities that last: they are no enemies and are not removed when
    hit.  The cells and the blood props are such entities. *)
Definition lasting (e : Entity) : bool :=
  negb (Entity.instanceofEnemy e) && negb (removeOnHit e).

(** The lasting entities of [w'] are those of [w], in their order, and
    blood props after them. *)
Definition keepsLasting (w w' : World) : Prop :=
  exists more,
    filter lasting (nonPlayerEntities (board w'))
    = filter lasting (nonPlayerEntities (board w)) ++ more /\
    Forall (fun e => isBlood e = true) more.

(** ** The board under construction *)

(** The state in which the constructor of the board calls [placeDiamonds]:
    the entities are the cells of the grid, the player is not set. *)
Definition underConstruction (numberOfColumns : nat) (rowTypes : list CellType)
    (numberOfEnemies numberOfDiamonds : nat) (range : Range.t) (template : EntityVisual.t)
    (canvas : Dimensions.t) (samples : nat -> Q) (drawn0 : nat) : World :=
  let grid := BoardGrid.new template numberOfColumns rowTypes template canvas in
  mkWorld (mkBoard numberOfEnemies numberOfDiamonds range template grid (BoardGrid.cells grid) None)
          samples drawn0.

(** The entities that [respawnEnemies] keeps. *)
Definition noEnemy (e : Entity) : bool := negb (Entity.instanceofEnemy e).

(** ** A pass with one collision *)

(** An entity that the player touches without consequence: it is no enemy
    and no water cell, it is not removed when hit and it scores 0.  The
    cells of grass and road and the blood props are such entities. *)
Definition harmless (e : Entity) : Prop :=
  Entity.instanceofEnemy e = false /\ isWaterCell e = false /\
  removeOnHit e = false /\ hitScoreIncrement e == 0.

(** Of the entities at the indices from [first] on and below [limit], the
    entity [standing] touches harmless ones only. *)
Definition touchesHarmlessOnly (standing : Entity) (entities : list Entity)
    (first limit : nat) : Prop :=
  forall j e, (first <= j < limit)%nat -> nth_error entities j = Some e ->
    Entity.touches standing e = Return true -> harmless e.

(** An enemy of [smallGrid] over its start cell, and boards on which the
    player meets two entities in one pass. *)
Definition enemyOverStart : Entity :=
  mkEntity (EntityVisual.mk "images/enemy-right.png" (Some (Dimensions.mk 101 171))
              (Area.mk (Point.mk 2 102) (Dimensions.mk 96 42)))
           (Point.mk 100 (273 # 2)) 200 false (-2)
           (Enemy_ (mkVector 50 0) false).

Definition twoEnemiesWorld : World :=
  mkWorld (smallBoard [enemyOverStart; touchingEnemy]) halves 0.

Definition diamondAndEnemyWorld : World :=
  mkWorld (smallBoard [touchingDiamond; touchingEnemy]) halves 0.

(** ** Doubles *)

Module Number.

(** The double of an integer, and the double that a decimal literal
    denotes: the one nearest to the quotient of two integers. *)
Definition ofZ (n : Z) : Double.number := binary_normalize 53 1024 n 0 false.

Definition ratio (n d : Z) : Double.number := SFdiv 53 1024 (ofZ n) (ofZ d).

(** [a - b]. *)
Definition sub (a b : Double.number) : Double.number := SFsub 53 1024 a b.

(** The rational number that a finite double is. *)
Definition toQ (n : Double.number) : Q :=
  match n with
  | S754_finite s m e => inject_Z (cond_Zopp s (Zpos m)) * Qpower 2 e
  | _ => 0
  end.

(** A zero, of either sign. *)
Definition isZero (n : Double.number) : Prop := exists s, n = S754_zero s.

(** Neither an infinity nor NaN. *)
Definition finite (n : Double.number) : Prop :=
  match n with
  | S754_zero _ | S754_finite _ _ _ => True
  | _ => False
  end.

(** The same double, or two zeros: what [===] cannot tell apart, and NaN
    and NaN. *)
Definition same (a b : Double.number) : Prop := a = b \/ (isZero a /\ isZero b).

End Number.

(** An enemy of the engine left of a grid of two columns and three rows,
    at x = -97.5, with the speed 50. *)
Definition doubleGridArea : Double.Area.t :=
  Double.Area.mk (Double.Point.mk (Number.ofZ 0) (Number.ofZ 52))
                 (Double.Dimensions.mk (Number.ofZ 202) (Number.ofZ 249)).

Definition doubleEnemy : Double.Enemy :=
  Double.mkEnemy
    (Double.Area.mk (Double.Point.mk (Number.ofZ 2) (Number.ofZ 102))
                    (Double.Dimensions.mk (Number.ofZ 96) (Number.ofZ 42)))
    (Double.Point.mk (Number.ratio (-195) 2) (Number.ratio 107 2))
    (Double.mkVector (Number.ofZ 50) (Number.ofZ 0))
    false.

(** * Properties *)

(** ** Geometry *)

Lemma containsPoint_iff (a : Area.t) (p : Point.t) :
  Area.containsPoint a p = true <->
  (Area.left a <= Point.x p <= Area.right a) /\ (Area.top a <= Point.y p <= Area.bottom a).
Proof.
  unfold Area.containsPoint, Area.left, Area.right, Area.top, Area.bottom.
  rewrite !andb_true_iff, !Qle_bool_iff. tauto.
Qed.

(** C8: [A.contains(P)] returns, and returns true exactly when [P.x] lies
    between the left edge of [A], which is [A.position.x], and its right
    edge, which is the double [A.position.x + A.width], and [P.y] between
    the top edge [A.position.y] and the bottom edge
    [A.position.y + A.height], the edges included;
    [A.intersectsWith(P)] returns the same value.  The numbers are the
    doubles of the code and the comparisons those of the code: with a NaN
    among the coordinates the result is false. *)
Theorem contains_point_inclusive (A : Double.Area.t) (P : Double.Point.t) :
  exists b : bool,
    Double.Area.contains A (Double.Area.IsPoint P) = Return b /\
    (b = true <->
     (Double.geb (Double.Point.x P) (Double.Point.x (Double.Area.position A)) = true /\
      Double.leb (Double.Point.x P)
                 (Double.add (Double.Point.x (Double.Area.position A)) (Double.Area.width A))
      = true) /\
     (Double.geb (Double.Point.y P) (Double.Point.y (Double.Area.position A)) = true /\
      Double.leb (Double.Point.y P)
                 (Double.add (Double.Point.y (Double.Area.position A)) (Double.Area.height A))
      = true)) /\
    Double.Area.intersectsWith A (Double.Area.IsPoint P)
    = Double.Area.contains A (Double.Area.IsPoint P).
Proof.
  exists (Double.Area.containsPoint A P). split; [reflexivity|]. split; [|reflexivity].
  unfold Double.Area.containsPoint, Double.Area.topLeft, Double.Area.topRight,
    Double.Area.bottomLeft, Double.Area.width, Double.Area.height, Double.Point.clone.
  cbn [Double.Point.x Double.Point.y]. rewrite !andb_true_iff. tauto.
Qed.

(** ** Grids built by the constructor *)

Lemma js_get_nat {A : Type} (arr : list A) (i : nat) :
  js_get arr (Z.of_nat i) = nth_error arr i.
Proof.
  unfold js_get. destruct (Z.ltb_spec (Z.of_nat i) 0); [lia|]. now rewrite Nat2Z.id.
Qed.

Lemma js_get_inside {A : Type} (arr : list A) (i : Z) :
  (0 <= i < Z.of_nat (List.length arr))%Z -> exists a, js_get arr i = Some a.
Proof.
  intros H. rewrite <- (Z2Nat.id i) by lia. rewrite js_get_nat.
  destruct (nth_error arr (Z.to_nat i)) eqn:E; [eauto|].
  apply nth_error_None in E. lia.
Qed.

Lemma js_get_outside {A : Type} (arr : list A) (i : Z) :
  (i < 0 \/ Z.of_nat (List.length arr) <= i)%Z -> js_get arr i = None.
Proof.
  intros H. unfold js_get. destruct (Z.ltb_spec i 0); [reflexivity|].
  apply nth_error_None. lia.
Qed.

Lemma newRow_length bt n type z r : List.length (BoardGrid.newRow bt n type z r) = n.
Proof. unfold BoardGrid.newRow. now rewrite length_map, length_seq. Qed.

Lemma newRow_nth bt n type z r c :
  (c < n)%nat ->
  nth_error (BoardGrid.newRow bt n type z r) c = Some (cellOf bt type z (Z.of_nat r) (Z.of_nat c)).
Proof.
  intros H. unfold BoardGrid.newRow.
  rewrite nth_error_map, nth_error_seq.
  destruct (Nat.ltb_spec c n); [reflexivity | lia].
Qed.

Lemma newRows_length bt n types : forall r z,
  List.length (BoardGrid.newRows bt n types r z) = List.length types.
Proof. induction types as [|t ts IH]; intros r z; simpl; [reflexivity | now rewrite IH]. Qed.

Lemma newRows_nth bt n types : forall r0 z0 r type,
  nth_error types r = Some type ->
  exists z, nth_error (BoardGrid.newRows bt n types r0 z0) r
            = Some (BoardGrid.newRow bt n type z (r0 + r)).
Proof.
  induction types as [|t ts IH]; intros r0 z0 r type H.
  - destruct r; discriminate.
  - destruct r as [|r]; simpl in *.
    + injection H as ->. rewrite Nat.add_0_r. eauto.
    + destruct (IH (S r0) (z0 + Z.of_nat r0)%Z r type H) as [z Hz].
      exists z. rewrite Hz. now rewrite Nat.add_succ_r.
Qed.

(** Inside its bounds a constructed grid holds, at every position, the cell
    of the type of the row, placed at that position. *)
Lemma getCell_inside g (row column : nat) :
  constructed g ->
  (row < BoardGrid.numberOfRows g)%nat -> (column < BoardGrid.numberOfColumns g)%nat ->
  exists type z,
    nth_error (BoardGrid._rowTypes g) row = Some type /\
    BoardGrid.getCell g (Z.of_nat row) (Z.of_nat column)
    = Return (Some (cellOf (BoardGrid._board_cellVisualTemplate g) type z
                           (Z.of_nat row) (Z.of_nat column))).
Proof.
  intros Hg Hr Hc. unfold BoardGrid.numberOfRows, BoardGrid.numberOfColumns in *.
  destruct (nth_error (BoardGrid._rowTypes g) row) as [type|] eqn:Et;
    [|apply nth_error_None in Et; lia].
  exists type.
  destruct (newRows_nth (BoardGrid._board_cellVisualTemplate g) (BoardGrid._numberOfColumns g)
              _ 0%nat 0%Z row type Et) as [z Hz].
  exists z. split; [reflexivity|].
  unfold BoardGrid.getCell. rewrite Hg. cbn [BoardGrid._rows BoardGrid.new].
  rewrite js_get_nat, Hz. cbn [Nat.add]. rewrite js_get_nat, newRow_nth by assumption.
  rewrite <- Hg. reflexivity.
Qed.

Lemma rows_length (g : BoardGrid.t) :
  constructed g -> List.length (BoardGrid._rows g) = BoardGrid.numberOfRows g.
Proof.
  intros Hg. unfold constructed in Hg. rewrite Hg at 1.
  cbn [BoardGrid._rows BoardGrid.new]. apply newRows_length.
Qed.

(** Where [hasCell] is true, [getCell] returns the cell of the constructor. *)
Lemma getCell_hasCell (g : BoardGrid.t) (row column : Z) :
  constructed g ->
  BoardGrid.hasCell g row column = true ->
  exists type z,
    nth_error (BoardGrid._rowTypes g) (Z.to_nat row) = Some type /\
    BoardGrid.getCell g row column
    = Return (Some (cellOf (BoardGrid._board_cellVisualTemplate g) type z row column)).
Proof.
  intros Hg. unfold BoardGrid.hasCell. rewrite !andb_true_iff.
  intros [[[H1 H2] H3] H4].
  apply Z.leb_le in H1, H3. apply Z.ltb_lt in H2, H4.
  destruct (getCell_inside g (Z.to_nat row) (Z.to_nat column) Hg) as (type & z & Ht & Hc);
    [lia | lia |].
  rewrite !Z2Nat.id in Hc by lia. eauto.
Qed.

(** A row outside the grid reads as [undefined], and its column throws. *)
Lemma getCell_row_outside (g : BoardGrid.t) (row column : Z) :
  constructed g ->
  (row < 0 \/ Z.of_nat (BoardGrid.numberOfRows g) <= row)%Z ->
  BoardGrid.getCell g row column = Throw TypeError.
Proof.
  intros Hg H. pose proof (rows_length g Hg) as Hlen.
  unfold BoardGrid.getCell. rewrite js_get_outside; [reflexivity | lia].
Qed.

(** A column outside a row of the grid reads as [undefined]. *)
Lemma getCell_column_outside (g : BoardGrid.t) (row column : Z) :
  constructed g ->
  (0 <= row < Z.of_nat (BoardGrid.numberOfRows g))%Z ->
  (column < 0 \/ Z.of_nat (BoardGrid.numberOfColumns g) <= column)%Z ->
  BoardGrid.getCell g row column = Return None.
Proof.
  intros Hg Hr Hc. pose proof (rows_length g Hg) as Hlen.
  unfold BoardGrid.getCell.
  destruct (js_get_inside (BoardGrid._rows g) row) as [cellsOfRow E]; [lia|].
  rewrite E. f_equal. apply js_get_outside.
  assert (List.length cellsOfRow = BoardGrid.numberOfColumns g) as ->; [|exact Hc].
  rewrite <- (Z2Nat.id row) in E by lia. rewrite js_get_nat in E.
  destruct (nth_error (BoardGrid._rowTypes g) (Z.to_nat row)) as [type|] eqn:Et;
    [|apply nth_error_None in Et; unfold BoardGrid.numberOfRows in Hr; lia].
  destruct (newRows_nth (BoardGrid._board_cellVisualTemplate g) (BoardGrid._numberOfColumns g)
              _ 0%nat 0%Z _ type Et) as [z Hz].
  rewrite Hg in E. cbn [BoardGrid._rows BoardGrid.new] in E.
  rewrite Hz in E. injection E as <-. apply newRow_length.
Qed.

(** C10, as the code has it: inside the bounds that [hasCell] tests,
    [getCell] returns the cell the constructor stored there, a grid cell of
    the type of its row; with a row outside the grid it throws (a TypeError:
    the row read is [undefined]); with a row inside the grid and a column
    outside it returns [undefined] and does not throw. *)
Theorem getCell_by_bounds (g : BoardGrid.t) (row column : Z) (Hg : constructed g) :
  (BoardGrid.hasCell g row column = true ->
   exists type z,
     nth_error (BoardGrid._rowTypes g) (Z.to_nat row) = Some type /\
     BoardGrid.getCell g row column
     = Return (Some (cellOf (BoardGrid._board_cellVisualTemplate g) type z row column))) /\
  ((row < 0 \/ Z.of_nat (BoardGrid.numberOfRows g) <= row)%Z ->
   BoardGrid.getCell g row column = Throw TypeError) /\
  ((0 <= row < Z.of_nat (BoardGrid.numberOfRows g))%Z ->
   (column < 0 \/ Z.of_nat (BoardGrid.numberOfColumns g) <= column)%Z ->
   BoardGrid.getCell g row column = Return None).
Proof.
  split; [|split].
  - now apply getCell_hasCell.
  - now apply getCell_row_outside.
  - now apply getCell_column_outside.
Qed.

Lemma getCell_by_bounds_witness :
  constructed smallGrid /\
  BoardGrid.hasCell smallGrid 1 1 = true /\
  (exists type z,
     nth_error (BoardGrid._rowTypes smallGrid) (Z.to_nat 1) = Some type /\
     BoardGrid.getCell smallGrid 1 1
     = Return (Some (cellOf (BoardGrid._board_cellVisualTemplate smallGrid) type z 1 1))).
Proof.
  assert (Hg : constructed smallGrid) by reflexivity.
  split; [exact Hg|]. split; [reflexivity|].
  apply (proj1 (getCell_by_bounds smallGrid 1 1 Hg)). reflexivity.
Defined.

(** C10 fails as stated: in a grid of one cell, [hasCell(0, 1)] is false and
    [getCell(0, 1)] returns [undefined]; it does not fail. *)
Lemma getCell_outside_column_returns :
  constructed oneCellGrid /\
  BoardGrid.hasCell oneCellGrid 0 1 = false /\
  BoardGrid.getCell oneCellGrid 0 1 = Return None /\
  ~ (exists e, BoardGrid.getCell oneCellGrid 0 1 = Throw e).
Proof.
  split; [reflexivity|]. split; [reflexivity|]. split; [reflexivity|].
  intros [e H]. discriminate H.
Qed.

(** ** Free movement *)

(** C9: assigning [position], calling [canMove] and calling [move] on a
    player throw an [Error] whatever the argument, and leave the player as
    it was: its position, its grid position and its score. *)
Theorem player_free_movement_throws (p : Player) (position : Point.t) (v : Vector) :
  (exists message, Player.set_position p position = (Throw (Error message), p)) /\
  (exists message, Player.canMove p v = (Throw (Error message), p)) /\
  (exists message, Player.move p v = (Throw (Error message), p)).
Proof.
  unfold Player.set_position, Player.canMove, Player.move. repeat split; eexists; reflexivity.
Qed.

(** An actor allowed outside the board can move along any vector. *)
Lemma canMove_outside_board (globalBoard : option Board) (a : Entity) (v : Vector) :
  Actor.canMoveOutsideBoard a = Some true -> Actor.canMove globalBoard a v = Return true.
Proof. intros H. unfold Actor.canMove. now rewrite H. Qed.

(** C5, second half, on the code: for an actor that must stay on the board
    [canMove] returns no boolean.  It throws a ReferenceError where no
    global [board] exists, and otherwise throws on [board.area], which no
    Board has. *)
Theorem canMove_on_board_throws (globalBoard : option Board) (visual : EntityVisual.t)
    (position : Point.t) (z : Z) (remove : bool) (increment : Q) (v : Vector) :
  exists e,
    Actor.canMove globalBoard (mkEntity visual position z remove increment (Actor_ false)) v
    = Throw e.
Proof.
  unfold Actor.canMove. cbn. destruct globalBoard; eexists; reflexivity.
Qed.

(** ** Enemies *)

Lemma add_zero_same (y z : Double.number) :
  Number.isZero z -> Number.same (Double.add y z) y.
Proof.
  intros [s ->]. unfold Number.same, Number.isZero, Double.add.
  destruct y as [sy|sy| |sy my ey]; cbn [SFadd]; auto.
  destruct sy, s; cbn; eauto.
Qed.

Lemma mul_zero_finite (z dt : Double.number) :
  Number.isZero z -> Number.finite dt -> Number.isZero (Double.mul z dt).
Proof.
  intros [s ->] Hdt. unfold Number.isZero, Double.mul.
  destruct dt as [sd|sd| |sd md ed]; cbn [SFmul]; try destruct Hdt; eauto.
Qed.

(** C4, as the code has it: [update(dt)] of an enemy returns; it has
    replaced [position.x] by the double [position.x + moveIncrement.x * dt],
    the product rounded and then the sum, and [position.y] by
    [position.y + moveIncrement.y * dt], which for a [moveIncrement.y] of
    zero and a finite [dt] is [position.y] again; the move increment is
    left, and afterwards [respawnOnNextUpdate] is true exactly when
    [someOnTheBoard] is false, that is when the test of [intersectsWith]
    between the occupied area of the enemy where it now stands and that of
    the grid is false. *)
Theorem enemy_update_moves_and_flags (gridOccupiedArea : Double.Area.t) (e : Double.Enemy)
    (dt : Double.number) :
  exists e',
    Double.Enemy.update gridOccupiedArea e dt = (Return tt, e') /\
    Double.Point.x (Double.Entity.position e')
    = Double.add (Double.Point.x (Double.Entity.position e))
                 (Double.mul (Double.vx (Double.moveIncrement e)) dt) /\
    Double.Point.y (Double.Entity.position e')
    = Double.add (Double.Point.y (Double.Entity.position e))
                 (Double.mul (Double.vy (Double.moveIncrement e)) dt) /\
    (Number.isZero (Double.vy (Double.moveIncrement e)) -> Number.finite dt ->
     Number.same (Double.Point.y (Double.Entity.position e'))
                 (Double.Point.y (Double.Entity.position e))) /\
    Double.moveIncrement e' = Double.moveIncrement e /\
    Double.visualOccupiedArea e' = Double.visualOccupiedArea e /\
    (Double.respawnOnNextUpdate e' = true <->
     Double.Entity.someOnTheBoard gridOccupiedArea e' = Return false) /\
    (Double.respawnOnNextUpdate e' = true <->
     Double.Area.intersectsArea
       (Double.Area.offset (Double.visualOccupiedArea e)
          (Double.Point.x (Double.Entity.position e'))
          (Double.Point.y (Double.Entity.position e')))
       gridOccupiedArea = false).
Proof.
  unfold Double.Enemy.update, Double.Actor.move, Double.Actor.canMove,
    Double.Entity.someOnTheBoard, Double.Entity.position, Double.Entity.occupiedArea.
  cbn [Double.Area.intersectsWith Double.vx Double.vy Double._position Double.moveIncrement
       Double.visualOccupiedArea Double.respawnOnNextUpdate Double.Point.offset
       Double.Point.x Double.Point.y].
  eexists. split; [reflexivity|].
  cbn [Double.Area.intersectsWith Double.vx Double.vy Double._position Double.moveIncrement
       Double.visualOccupiedArea Double.respawnOnNextUpdate Double.Point.offset
       Double.Point.x Double.Point.y].
  split; [reflexivity|]. split; [reflexivity|].
  split; [intros Hz Hdt; apply add_zero_same; now apply mul_zero_finite|].
  split; [reflexivity|]. split; [reflexivity|].
  split; (split; [intros H; apply negb_true_iff in H; now rewrite H|]).
  - intros H. injection H as ->. reflexivity.
  - intros ->. reflexivity.
Qed.

(** C4 fails as stated: the enemy at x = -97.5 with the speed 50, updated
    with [dt] = 0.017, stands at the double -96.65 afterwards.  The
    increase, taken as JavaScript subtracts, is 0.8499999999999943 and not
    the product 0.8500000000000001; the exact difference of the two
    positions is not the exact product of the speed and [dt] either. *)
Lemma enemy_update_rounds :
  exists e',
    Double.Enemy.update doubleGridArea doubleEnemy (Number.ratio 17 1000) = (Return tt, e') /\
    Double.Point.x (Double.Entity.position e') = Number.ratio (-9665) 100 /\
    Number.sub (Double.Point.x (Double.Entity.position e'))
               (Double.Point.x (Double.Entity.position doubleEnemy))
    = Number.ratio 8499999999999943 10000000000000000 /\
    Double.mul (Number.ofZ 50) (Number.ratio 17 1000)
    = Number.ratio 8500000000000001 10000000000000000 /\
    Number.sub (Double.Point.x (Double.Entity.position e'))
               (Double.Point.x (Double.Entity.position doubleEnemy))
    <> Double.mul (Number.ofZ 50) (Number.ratio 17 1000) /\
    ~ (Number.toQ (Double.Point.x (Double.Entity.position e'))
       - Number.toQ (Double.Point.x (Double.Entity.position doubleEnemy))
       == Number.toQ (Number.ofZ 50) * Number.toQ (Number.ratio 17 1000)).
Proof.
  eexists. split; [vm_compute; reflexivity|]. split; [vm_compute; reflexivity|].
  split; [vm_compute; reflexivity|]. split; [vm_compute; reflexivity|].
  split; [vm_compute; discriminate|].
  intros H. vm_compute in H. discriminate H.
Qed.

(** ** Moving in the grid *)

Lemma moveToCell_centers (g : BoardGrid.t) (e : Entity) (row column : Z) (cell : Entity) :
  BoardGrid.getCell g row column = Return (Some cell) ->
  exists e',
    Entity.moveToCell g e row column = Return e' /\
    e' = setPosition e (Entity.position e') /\
    Point.same (Area.center (Entity.occupiedArea e')) (Area.center (Entity.occupiedArea cell)).
Proof.
  intros H. unfold Entity.moveToCell. rewrite H. cbn [bindC Area.centerOn].
  eexists. split; [reflexivity|]. split; [reflexivity|].
  unfold Point.same, Area.center, Entity.occupiedArea, Area.offset, Area.centerOnPoint,
    Point.offset, Dimensions.clone, setPosition.
  cbn [Area.position Area.dimensions Point.x Point.y Dimensions.width Dimensions.height
       _position _visual].
  split; field.
Qed.

Lemma canMoveInGrid_step (g : BoardGrid.t) (p : Player) (direction : string)
    (target : GridPosition.t) :
  Player.stepInGrid (_gridPosition p) direction = Some target ->
  Player.canMoveInGrid g p direction
  = BoardGrid.hasCell g (GridPosition.row target) (GridPosition.column target).
Proof.
  unfold Player.stepInGrid, Player.canMoveInGrid.
  repeat (destruct (String.eqb direction _); [intros [= <-]; reflexivity|]).
  discriminate.
Qed.

Lemma moveInGrid_refused (g : BoardGrid.t) (p : Player) (direction : string) :
  Player.canMoveInGrid g p direction = false ->
  Player.moveInGrid g p direction = (Return false, p).
Proof. intros H. unfold Player.moveInGrid. now rewrite H. Qed.

Lemma moveInGrid_allowed (g : BoardGrid.t) (p : Player) (direction : string)
    (target : GridPosition.t) :
  constructed g ->
  Player.stepInGrid (_gridPosition p) direction = Some target ->
  BoardGrid.hasCell g (GridPosition.row target) (GridPosition.column target) = true ->
  exists p',
    Player.moveInGrid g p direction = (Return true, p') /\
    movedTo g p p' (GridPosition.row target) (GridPosition.column target).
Proof.
  intros Hg Hstep Hcell.
  destruct (getCell_hasCell g _ _ Hg Hcell) as (type & z & _ & Hget).
  destruct (moveToCell_centers g (super p) _ _ _ Hget) as (e' & Hmove & Hsame & Hcentre).
  unfold Player.moveInGrid.
  rewrite (canMoveInGrid_step g p direction target Hstep), Hcell, Hstep.
  cbn [negb super]. rewrite Hmove.
  eexists. split; [reflexivity|].
  unfold movedTo, centredOnItsCell, Player.position.
  cbn [_gridPosition score super].
  split; [now destruct target|]. split; [reflexivity|]. split; [exact Hsame|].
  eexists. split; [exact Hget | exact Hcentre].
Qed.

Lemma hasCell_iff (g : BoardGrid.t) (row column : Z) :
  BoardGrid.hasCell g row column = true <->
  (0 <= row < Z.of_nat (BoardGrid.numberOfRows g))%Z /\
  (0 <= column < Z.of_nat (BoardGrid.numberOfColumns g))%Z.
Proof.
  unfold BoardGrid.hasCell.
  rewrite !andb_true_iff, !Z.leb_le, !Z.ltb_lt. tauto.
Qed.

Lemma hasCell_false_iff (g : BoardGrid.t) (row column : Z) :
  BoardGrid.hasCell g row column = false <->
  ~ ((0 <= row < Z.of_nat (BoardGrid.numberOfRows g))%Z /\
     (0 <= column < Z.of_nat (BoardGrid.numberOfColumns g))%Z).
Proof. rewrite <- hasCell_iff. now destruct (BoardGrid.hasCell g row column). Qed.

(** C3: for a player standing on a cell of the grid, [moveInGrid("left")]
    in column 0 returns false and leaves the player as it was; in a column
    greater than 0 it returns true, takes one from the column and puts the
    player on the new cell, the centre of its occupied area on that of the
    cell.  Likewise for "up" against row 0, for "right" against the last
    column and for "down" against the last row. *)
Theorem moveInGrid_bounds_checked (g : BoardGrid.t) (p : Player)
    (Hg : constructed g)
    (Hin : BoardGrid.hasCell g (GridPosition.row (_gridPosition p))
                               (GridPosition.column (_gridPosition p)) = true) :
  let row := GridPosition.row (_gridPosition p) in
  let column := GridPosition.column (_gridPosition p) in
  let lastRow := (Z.of_nat (BoardGrid.numberOfRows g) - 1)%Z in
  let lastColumn := (Z.of_nat (BoardGrid.numberOfColumns g) - 1)%Z in
  (column = 0%Z -> Player.moveInGrid g p "left" = (Return false, p)) /\
  ((column > 0)%Z ->
   exists p', Player.moveInGrid g p "left" = (Return true, p') /\
              movedTo g p p' row (column - 1)) /\
  (row = 0%Z -> Player.moveInGrid g p "up" = (Return false, p)) /\
  ((row > 0)%Z ->
   exists p', Player.moveInGrid g p "up" = (Return true, p') /\
              movedTo g p p' (row - 1) column) /\
  (column = lastColumn -> Player.moveInGrid g p "right" = (Return false, p)) /\
  ((column < lastColumn)%Z ->
   exists p', Player.moveInGrid g p "right" = (Return true, p') /\
              movedTo g p p' row (column + 1)) /\
  (row = lastRow -> Player.moveInGrid g p "down" = (Return false, p)) /\
  ((row < lastRow)%Z ->
   exists p', Player.moveInGrid g p "down" = (Return true, p') /\
              movedTo g p p' (row + 1) column).
Proof.
  intros row column lastRow lastColumn.
  apply hasCell_iff in Hin. fold row column in Hin.
  assert (Hno : forall direction target,
             Player.stepInGrid (_gridPosition p) direction = Some target ->
             BoardGrid.hasCell g (GridPosition.row target) (GridPosition.column target) = false ->
             Player.moveInGrid g p direction = (Return false, p)).
  { intros direction target Hs Hc. apply moveInGrid_refused.
    now rewrite (canMoveInGrid_step g p direction target Hs). }
  assert (Hyes : forall direction target,
             Player.stepInGrid (_gridPosition p) direction = Some target ->
             BoardGrid.hasCell g (GridPosition.row target) (GridPosition.column target) = true ->
             exists p', Player.moveInGrid g p direction = (Return true, p') /\
                        movedTo g p p' (GridPosition.row target) (GridPosition.column target)).
  { intros direction target Hs Hc. now apply moveInGrid_allowed. }
  repeat split; intros H.
  - apply (Hno "left"%string (GridPosition.mk row (column - 1)) eq_refl), hasCell_false_iff.
    cbn [GridPosition.row GridPosition.column]. lia.
  - apply (Hyes "left"%string (GridPosition.mk row (column - 1)) eq_refl), hasCell_iff.
    cbn [GridPosition.row GridPosition.column]. lia.
  - apply (Hno "up"%string (GridPosition.mk (row - 1) column) eq_refl), hasCell_false_iff.
    cbn [GridPosition.row GridPosition.column]. lia.
  - apply (Hyes "up"%string (GridPosition.mk (row - 1) column) eq_refl), hasCell_iff.
    cbn [GridPosition.row GridPosition.column]. lia.
  - apply (Hno "right"%string (GridPosition.mk row (column + 1)) eq_refl), hasCell_false_iff.
    cbn [GridPosition.row GridPosition.column]. unfold lastColumn in H. lia.
  - apply (Hyes "right"%string (GridPosition.mk row (column + 1)) eq_refl), hasCell_iff.
    cbn [GridPosition.row GridPosition.column]. unfold lastColumn in H. lia.
  - apply (Hno "down"%string (GridPosition.mk (row + 1) column) eq_refl), hasCell_false_iff.
    cbn [GridPosition.row GridPosition.column]. unfold lastRow in H. lia.
  - apply (Hyes "down"%string (GridPosition.mk (row + 1) column) eq_refl), hasCell_iff.
    cbn [GridPosition.row GridPosition.column]. unfold lastRow in H. lia.
Qed.

Lemma moveInGrid_bounds_checked_witness :
  constructed smallGrid /\
  BoardGrid.hasCell smallGrid 1 1 = true /\
  Player.moveInGrid smallGrid smallGridPlayer "right" = (Return false, smallGridPlayer) /\
  exists p', Player.moveInGrid smallGrid smallGridPlayer "left" = (Return true, p') /\
             movedTo smallGrid smallGridPlayer p' 1 (1 - 1).
Proof.
  assert (Hg : constructed smallGrid) by reflexivity.
  assert (Hin : BoardGrid.hasCell smallGrid 1 1 = true) by reflexivity.
  split; [exact Hg|]. split; [exact Hin|].
  destruct (moveInGrid_bounds_checked smallGrid smallGridPlayer Hg Hin)
    as (_ & Hleft & _ & _ & Hright & _).
  split; [apply Hright; reflexivity | apply Hleft; reflexivity].
Defined.

(** ** Arithmetic of the random draws and of the start cell *)

Lemma Qfloor_range (x : Q) (n : Z) : 0 <= x -> x < inject_Z n -> (0 <= Qfloor x < n)%Z.
Proof.
  intros H0 Hn. assert (Hlt := Qlt_floor x). assert (Hle := Qfloor_le x). split.
  - cut (0 < Qfloor x + 1)%Z; [lia|]. rewrite Zlt_Qlt. change (inject_Z 0) with 0. lra.
  - rewrite Zlt_Qlt. lra.
Qed.

Lemma randomIndex_range (r : Q) (n : nat) :
  0 <= r < 1 -> (1 <= n)%nat ->
  (0 <= Qfloor (r * (inject_Z (Z.of_nat n) - 1 - 0 + 1) + 0) < Z.of_nat n)%Z.
Proof.
  intros [H0 H1] Hn.
  assert (1 <= inject_Z (Z.of_nat n)) by (rewrite <- (Zle_Qle 1); lia).
  apply Qfloor_range; nra.
Qed.

Lemma startColumn_range (n : nat) :
  (1 <= n)%nat -> (0 <= Qceiling ((inject_Z (Z.of_nat n) - 1) / 2) < Z.of_nat n)%Z.
Proof.
  intros Hn.
  assert (Hq : 1 <= inject_Z (Z.of_nat n)) by (rewrite <- (Zle_Qle 1); lia).
  set (x := (inject_Z (Z.of_nat n) - 1) / 2).
  assert (Hx : x == (inject_Z (Z.of_nat n) - 1) * (1 # 2)) by (unfold x; field).
  assert (Hc := Qle_ceiling x). assert (Hl := Qceiling_lt x).
  unfold Z.sub in Hl. rewrite inject_Z_plus in Hl.
  change (inject_Z (Qceiling x) - 1 < x) in Hl.
  split.
  - rewrite Zle_Qle. change (inject_Z 0) with 0. lra.
  - rewrite Zlt_Qlt. lra.
Qed.

(** ** The start cell and the respawn of the player *)

Lemma start_hasCell (g : BoardGrid.t) :
  In road (BoardGrid._rowTypes g) -> (1 <= BoardGrid.numberOfColumns g)%nat ->
  BoardGrid.hasCell g (GridPosition.row (playerStartPosition g))
                      (GridPosition.column (playerStartPosition g)) = true.
Proof.
  intros Hroad Hcols. apply hasCell_iff. unfold playerStartPosition.
  cbn [GridPosition.row GridPosition.column].
  split; [|now apply startColumn_range].
  unfold BoardGrid.numberOfRows. destruct (BoardGrid._rowTypes g); [destruct Hroad|].
  cbn [List.length]. lia.
Qed.

(** [new Player(board)] returns on a constructed grid with a row and a
    column: a player of score 0, standing on the start cell. *)
Lemma Player_new_returns (g : BoardGrid.t) :
  constructed g -> In road (BoardGrid._rowTypes g) -> (1 <= BoardGrid.numberOfColumns g)%nat ->
  exists p,
    Player.new g = Return p /\
    _gridPosition p = playerStartPosition g /\
    score p = 0 /\
    centredOnItsCell g p.
Proof.
  intros Hg Hroad Hcols.
  destruct (getCell_hasCell g _ _ Hg (start_hasCell g Hroad Hcols))
    as (type & z & _ & Hget).
  unfold Player.new.
  match goal with |- context [Entity.moveToCell g ?e _ _] =>
    destruct (moveToCell_centers g e _ _ _ Hget) as (e' & Hmove & _ & Hcentre) end.
  rewrite Hmove. cbn [bindC].
  eexists. split; [reflexivity|]. cbn [_gridPosition score].
  split; [reflexivity|]. split; [reflexivity|].
  unfold centredOnItsCell. cbn [_gridPosition super]. eauto.
Qed.

(** ** Spawning an enemy *)

Lemma typeOf_cellOf bt type z row column : BoardGrid.typeOf (cellOf bt type z row column) = Some type.
Proof. reflexivity. Qed.

Lemma rowTypesOf_newRows bt n types : forall r z,
  (1 <= n)%nat ->
  BoardGrid.rowTypesOf (BoardGrid.newRows bt n types r z) = Return (map Some types).
Proof.
  induction types as [|t ts IH]; intros r z Hn; [reflexivity|].
  cbn [BoardGrid.newRows BoardGrid.rowTypesOf map].
  change 0%Z with (Z.of_nat 0). rewrite js_get_nat, newRow_nth by lia.
  rewrite IH by assumption. reflexivity.
Qed.

Lemma rowTypes_constructed (g : BoardGrid.t) :
  constructed g -> (1 <= BoardGrid.numberOfColumns g)%nat ->
  BoardGrid.rowTypes g = Return (map Some (BoardGrid._rowTypes g)).
Proof.
  intros Hg Hn. unfold BoardGrid.rowTypes. unfold constructed in Hg. rewrite Hg at 1.
  cbn [BoardGrid._rows BoardGrid.new]. now apply rowTypesOf_newRows.
Qed.

Lemma roadOrMinusOne_spec types : forall k i,
  In i (Board.roadOrMinusOne (map Some types) k) ->
  i = (-1)%Z \/ exists j, i = Z.of_nat (k + j) /\ nth_error types j = Some road.
Proof.
  induction types as [|t ts IH]; intros k i H; [destruct H|].
  assert (Hrest : In i (Board.roadOrMinusOne (map Some ts) (S k)) ->
                  i = (-1)%Z \/ exists j, i = Z.of_nat (k + j) /\ nth_error (t :: ts) j = Some road).
  { intros Hin. destruct (IH _ _ Hin) as [->|(j & -> & Hj)]; [now left|].
    right. exists (S j). split; [f_equal; lia | exact Hj]. }
  destruct t; cbn [map Board.roadOrMinusOne] in H; destruct H as [<-|H]; auto.
  right. exists 0%nat. split; [f_equal; lia | reflexivity].
Qed.

Lemma roadRowIndices_spec types i :
  In i (Board.roadRowIndices (map Some types)) ->
  (0 <= i)%Z /\ nth_error types (Z.to_nat i) = Some road.
Proof.
  unfold Board.roadRowIndices. rewrite filter_In. intros [Hin Hne].
  destruct (roadOrMinusOne_spec types 0 i Hin) as [->|(j & -> & Hj)]; [discriminate|].
  cbn [Nat.add]. rewrite Nat2Z.id. split; [lia | exact Hj].
Qed.

Lemma roadOrMinusOne_road types : forall k,
  In road types -> exists i, In i (Board.roadOrMinusOne (map Some types) k) /\ (0 <= i)%Z.
Proof.
  induction types as [|t ts IH]; intros k H; [destruct H|].
  destruct H as [->|H].
  - exists (Z.of_nat k). split; [left; reflexivity | lia].
  - destruct (IH (S k) H) as (i & Hi & H0). exists i. split; [|exact H0].
    destruct t; right; exact Hi.
Qed.

Lemma roadRowIndices_nonempty types :
  In road types -> (1 <= List.length (Board.roadRowIndices (map Some types)))%nat.
Proof.
  intros H. destruct (roadOrMinusOne_road types 0 H) as (i & Hi & H0).
  assert (Hin : In i (Board.roadRowIndices (map Some types))).
  { unfold Board.roadRowIndices. apply filter_In. split; [exact Hi|].
    apply negb_true_iff, Z.eqb_neq. lia. }
  destruct (Board.roadRowIndices (map Some types)); [destruct Hin | cbn; lia].
Qed.

(** With a road row, a column and a cell visual template that has
    dimensions, [spawnEnemy] returns: it has created an enemy, put it on the
    first or last cell of a road row, moved it outwards and appended it. *)
Lemma spawnEnemy_returns (w : World) (d : Dimensions.t) :
  let g := _grid (board w) in
  constructed g ->
  In road (BoardGrid._rowTypes g) ->
  (1 <= BoardGrid.numberOfColumns g)%nat ->
  EntityVisual.dimensions (BoardGrid.cellVisualTemplate g) = Some d ->
  randomOK (random w) ->
  exists row speed enemy0 enemy1 enemy,
    nth_error (BoardGrid._rowTypes g) (Z.to_nat row) = Some road /\
    (0 <= row)%Z /\
    Enemy.new g (-2) false (mkVector (inject_Z speed) 0) = Return enemy0 /\
    Entity.moveToCell g enemy0 row (spawnColumn g (spawnDirection w)) = Return enemy1 /\
    Board.moveOutside (spawnDirection w) enemy1 = Return enemy /\
    Board.spawnEnemy w = (Return tt, spawned w enemy).
Proof.
  intros g Hg Hroad Hcols Hdims Hrandom.
  pose proof (rowTypes_constructed g Hg Hcols) as Htypes.
  pose proof (roadRowIndices_nonempty _ Hroad) as Hlen.
  set (indices := Board.roadRowIndices (map Some (BoardGrid._rowTypes g))) in *.
  pose proof (randomIndex_range (random w (S (drawn w))) (List.length indices)
                (Hrandom _) Hlen) as Hindex.
  set (roadIndex := Qfloor (random w (S (drawn w)) *
                            (inject_Z (Z.of_nat (List.length indices)) - 1 - 0 + 1) + 0)) in *.
  destruct (js_get_inside indices roadIndex Hindex) as [row Hrow].
  assert (Hin : In row indices).
  { unfold js_get in Hrow. destruct (roadIndex <? 0)%Z; [discriminate|].
    eapply nth_error_In; eassumption. }
  destruct (roadRowIndices_spec _ _ Hin) as [Hrow0 Hroadrow].
  set (direction := spawnDirection w).
  set (speed := Qfloor (random w (S (S (drawn w))) *
                        (inject_Z direction * Range.max (enemyIncrementRange (board w)) -
                         inject_Z direction * Range.min (enemyIncrementRange (board w)) + 1) +
                        inject_Z direction * Range.min (enemyIncrementRange (board w)))).
  assert (Hcell : BoardGrid.hasCell g row (spawnColumn g direction) = true).
  { apply hasCell_iff. split.
    - split; [exact Hrow0|]. unfold BoardGrid.numberOfRows.
      assert (Z.to_nat row < List.length (BoardGrid._rowTypes g))%nat; [|lia].
      apply nth_error_Some. now rewrite Hroadrow.
    - unfold spawnColumn. destruct (direction =? 1)%Z; lia. }
  destruct (getCell_hasCell g _ _ Hg Hcell) as (type & z & _ & Hget).
  assert (Hnew : Enemy.new g (-2) false (mkVector (inject_Z speed) 0)
                 = Return (mkEntity
                     (EntityVisual.mk
                        (if Qle_bool 0 (inject_Z speed)
                         then "images/enemy-right.png" else "images/enemy-left.png")%string
                        (Some (Dimensions.clone d))
                        (Area.mk (Point.mk 2 102) (Dimensions.mk 96 42)))
                     (Point.mk 0 0) 200 false (-2) (Enemy_ (mkVector (inject_Z speed) 0) false))).
  { unfold Enemy.new. rewrite Hdims. reflexivity. }
  match type of Hnew with _ = Return ?e => set (enemy0 := e) in * end.
  destruct (moveToCell_centers g enemy0 _ _ _ Hget) as (enemy1 & Hmove & Hsame & _).
  assert (Hout : exists enemy, Board.moveOutside direction enemy1 = Return enemy).
  { unfold Board.moveOutside, Entity.area. rewrite Hsame. cbn [setPosition _visual _position].
    unfold enemy0. cbn [_visual EntityVisual.dimensions Area.new bindC].
    destruct (direction =? 1)%Z; eexists; reflexivity. }
  destruct Hout as [enemy Hout].
  exists row, speed, enemy0, enemy1, enemy.
  repeat (split; [assumption|]).
  unfold Board.spawnEnemy, randBetween, Math_random, ret, getBoard, liftC, putBoard, bind.
  cbn [board random drawn].
  fold g. rewrite Htypes. fold indices. fold roadIndex. rewrite Hrow.
  fold (spawnDirection w). fold direction. fold speed.
  rewrite Hnew. fold (spawnColumn g direction). rewrite Hmove, Hout. reflexivity.
Qed.

Lemma moveToCell_fields (g : BoardGrid.t) (e e' : Entity) (row column : Z) :
  Entity.moveToCell g e row column = Return e' -> e' = setPosition e (Entity.position e').
Proof.
  unfold Entity.moveToCell.
  destruct (BoardGrid.getCell g row column) as [[cell|]|]; cbn; intros [= <-]; reflexivity.
Qed.

Lemma moveOutside_fields (direction : Z) (e e' : Entity) :
  Board.moveOutside direction e = Return e' -> e' = setPosition e (Entity.position e').
Proof.
  unfold Board.moveOutside. destruct (Entity.area e); [|discriminate]. cbn [bindC].
  destruct (direction =? 1)%Z; intros [= <-]; reflexivity.
Qed.

(** ** Lists under splice and assignment *)

Section Lists.

Context {A : Type}.
Variable f : A -> bool.

Lemma nth_error_js_set (l : list A) : forall i j x,
  j <> i -> nth_error (js_set l i x) j = nth_error l j.
Proof.
  induction l as [|a l IH]; intros i j x H; [destruct i; reflexivity|].
  destruct i, j; cbn; try reflexivity; try congruence. apply IH. congruence.
Qed.

Lemma nth_error_splice1 (l : list A) : forall i j,
  (j < i)%nat -> nth_error (splice1 l i) j = nth_error l j.
Proof.
  induction l as [|a l IH]; intros i j H; [destruct i; reflexivity|].
  destruct i, j; cbn; try reflexivity; try lia. apply IH. lia.
Qed.

Lemma nth_error_app_left (l l' : list A) (j : nat) (a : A) :
  nth_error l j = Some a -> nth_error (l ++ l') j = Some a.
Proof.
  intros H. rewrite nth_error_app1; [exact H|]. apply nth_error_Some. congruence.
Qed.

Lemma filter_js_set (l : list A) : forall i x y,
  nth_error l i = Some y -> f x = f y ->
  List.length (filter f (js_set l i x)) = List.length (filter f l).
Proof.
  induction l as [|a l IH]; intros i x y H Hf; [destruct i; discriminate|].
  destruct i; cbn in *.
  - injection H as ->. rewrite Hf. destruct (f y); reflexivity.
  - destruct (f a); cbn; [f_equal|]; eapply IH; eauto.
Qed.

Lemma filter_js_set_false (l : list A) : forall i x y,
  nth_error l i = Some y -> f x = false -> f y = false ->
  filter f (js_set l i x) = filter f l.
Proof.
  induction l as [|a l IH]; intros i x y H Hx Hy; [destruct i; discriminate|].
  destruct i; cbn in *.
  - injection H as ->. now rewrite Hx, Hy.
  - destruct (f a); [f_equal|]; eapply IH; eauto.
Qed.

Lemma filter_splice1_false (l : list A) : forall i y,
  nth_error l i = Some y -> f y = false -> filter f (splice1 l i) = filter f l.
Proof.
  induction l as [|a l IH]; intros i y H Hy; [destruct i; discriminate|].
  destruct i; cbn in *.
  - injection H as ->. now rewrite Hy.
  - destruct (f a); [f_equal|]; eapply IH; eauto.
Qed.

Lemma filter_splice1_true (l : list A) : forall i y,
  nth_error l i = Some y -> f y = true ->
  S (List.length (filter f (splice1 l i))) = List.length (filter f l).
Proof.
  induction l as [|a l IH]; intros i y H Hy; [destruct i; discriminate|].
  destruct i; cbn in *.
  - injection H as ->. now rewrite Hy.
  - destruct (f a); cbn; [f_equal|]; eapply IH; eauto.
Qed.

Lemma splice1_firstn_skipn (l : list A) : forall i,
  splice1 l i = firstn i l ++ skipn (S i) l.
Proof.
  induction l as [|a l IH]; intros i; [destruct i; reflexivity|].
  destruct i; cbn; [reflexivity|]. now rewrite IH.
Qed.

Variable P : A -> Prop.

Lemma Forall_js_set (l : list A) : forall i x, Forall P l -> P x -> Forall P (js_set l i x).
Proof.
  induction l as [|a l IH]; intros i x Hl Hx; [destruct i; constructor|].
  inversion Hl; subst. destruct i; cbn; constructor; auto.
Qed.

Lemma Forall_splice1 (l : list A) : forall i, Forall P l -> Forall P (splice1 l i).
Proof.
  induction l as [|a l IH]; intros i Hl; [destruct i; constructor|].
  inversion Hl; subst. destruct i; cbn; [assumption | constructor; auto].
Qed.

End Lists.

(** ** The steps of the update pass *)

Lemma respawnPlayer_returns (w : World) (p : Player) :
  constructed (_grid (board w)) ->
  In road (BoardGrid._rowTypes (_grid (board w))) ->
  (1 <= BoardGrid.numberOfColumns (_grid (board w)))%nat ->
  player (board w) = Some p ->
  exists fresh,
    Player.new (_grid (board w)) = Return fresh /\
    Board.respawnPlayer true w
    = (Return tt,
       mkWorld (setPlayer (board w) (mkPlayer (super fresh) (_gridPosition fresh) (score p)))
               (random w) (drawn w)).
Proof.
  intros Hg Hroad Hcols Hp.
  destruct (Player_new_returns _ Hg Hroad Hcols) as (fresh & Hnew & _).
  exists fresh. split; [exact Hnew|].
  unfold Board.respawnPlayer, getBoard, liftC, putBoard, bind.
  rewrite Hp. cbn [board]. rewrite Hnew. reflexivity.
Qed.

Lemma bleed_returns (w : World) (p : Player) (direction : Q) (d : Dimensions.t) :
  EntityVisual.dimensions (BoardGrid.cellVisualTemplate (_grid (board w))) = Some d ->
  Player.bleed p direction w
  = (Return tt,
     mkWorld (setEntities (board w) (nonPlayerEntities (board w) ++ [bloodOf p direction d]))
             (random w) (drawn w)).
Proof.
  intros Hd. unfold Player.bleed, getBoard, liftC, putBoard, bind. cbn [board].
  rewrite Hd. reflexivity.
Qed.

Lemma Enemy_update_returns (globalBoard : option Board) (g : BoardGrid.t) (e : Entity)
    (moveIncrement : Vector) (flag : bool) (dt : Q) :
  class e = Enemy_ moveIncrement flag ->
  exists e' flag',
    Enemy.update globalBoard g e dt = (Return tt, e') /\
    class e' = Enemy_ moveIncrement flag' /\
    removeOnHit e' = removeOnHit e.
Proof.
  intros He. unfold Enemy.update, Actor.move, Actor.canMove, Actor.canMoveOutsideBoard.
  rewrite He. unfold Entity.someOnTheBoard. cbn [Area.intersectsWith].
  eexists _, _. split; [reflexivity|]. split; reflexivity.
Qed.

Lemma countEnemies_app (b : Board) (entities extra : list Entity) :
  countEnemies (setEntities b (entities ++ extra))
  = (countEnemies (setEntities b entities) + List.length (filter Entity.instanceofEnemy extra))%nat.
Proof.
  unfold countEnemies. cbn [nonPlayerEntities setEntities].
  now rewrite filter_app, length_app.
Qed.

Lemma enemiesStay_app (entities extra : list Entity) :
  enemiesStay entities -> enemiesStay extra -> enemiesStay (entities ++ extra).
Proof. unfold enemiesStay. intros. now apply Forall_app. Qed.

Lemma enemy_counted (b : Board) (index : nat) (entity : Entity) :
  nth_error (nonPlayerEntities b) index = Some entity ->
  Entity.instanceofEnemy entity = true ->
  countEnemies b <> 0%nat.
Proof.
  intros Hn He Hc. unfold countEnemies in Hc.
  apply length_zero_iff_nil in Hc.
  assert (Hin : In entity (filter Entity.instanceofEnemy (nonPlayerEntities b))).
  { apply filter_In. split; [eapply nth_error_In; eassumption | exact He]. }
  rewrite Hc in Hin. destruct Hin.
Qed.

(** A hit on an entity that is no enemy: the score, the removal, and the
    respawn if the entity is a water cell. *)
Lemma hit_other (w : World) (index : nat) (entity : Entity) (p : Player) :
  player (board w) = Some p ->
  Entity.instanceofEnemy entity = false ->
  Board.hit index entity w
  = if isWaterCell entity then Board.respawnPlayer true (afterHit w p index entity)
    else (Return tt, afterHit w p index entity).
Proof.
  intros Hp He. unfold Board.hit, afterHit, isWaterCell, scored, getBoard, putBoard, ret, bind.
  unfold Entity.instanceofEnemy in He. rewrite Hp. cbn [board random drawn].
  destruct (removeOnHit entity); cbn [board random drawn];
    destruct (class entity) as [| |[| |] ?|?|? ?]; try discriminate; reflexivity.
Qed.

(** A hit on an enemy that is not removed on hit: the score, the blood where
    the player stood, and the respawn of the player with its score. *)
Lemma hit_enemy (w : World) (index : nat) (entity : Entity) (moveIncrement : Vector)
    (flag : bool) (p : Player) (d : Dimensions.t) :
  constructed (_grid (board w)) ->
  In road (BoardGrid._rowTypes (_grid (board w))) ->
  (1 <= BoardGrid.numberOfColumns (_grid (board w)))%nat ->
  EntityVisual.dimensions (BoardGrid.cellVisualTemplate (_grid (board w))) = Some d ->
  player (board w) = Some p ->
  class entity = Enemy_ moveIncrement flag ->
  removeOnHit entity = false ->
  exists fresh,
    Player.new (_grid (board w)) = Return fresh /\
    Board.hit index entity w
    = (Return tt,
       mkWorld (setPlayer
                  (setEntities (board w)
                     (nonPlayerEntities (board w) ++ [bloodOf p (vx moveIncrement) d]))
                  (mkPlayer (super fresh) (_gridPosition fresh)
                            (score p + hitScoreIncrement entity)))
               (random w) (drawn w)).
Proof.
  intros Hg Hroad Hcols Hd Hp He Hr.
  destruct (Player_new_returns _ Hg Hroad Hcols) as (fresh & Hnew & _).
  exists fresh. split; [exact Hnew|].
  unfold Board.hit, getBoard, putBoard, ret, bind.
  rewrite Hp, Hr, He. cbn [board random drawn setPlayer player].
  rewrite bleed_returns with (d := d) by exact Hd.
  unfold Board.respawnPlayer, getBoard, liftC, putBoard, bind.
  cbn [board random drawn setPlayer setEntities player _grid score]. rewrite Hnew.
  reflexivity.
Qed.

Lemma spawnEnemy_general (w : World) (d : Dimensions.t) :
  constructed (_grid (board w)) ->
  In road (BoardGrid._rowTypes (_grid (board w))) ->
  (1 <= BoardGrid.numberOfColumns (_grid (board w)))%nat ->
  EntityVisual.dimensions (BoardGrid.cellVisualTemplate (_grid (board w))) = Some d ->
  randomOK (random w) ->
  exists enemy,
    Board.spawnEnemy w = (Return tt, spawned w enemy) /\
    Entity.instanceofEnemy enemy = true /\
    removeOnHit enemy = false.
Proof.
  intros Hg Hroad Hcols Hd Hrandom.
  destruct (spawnEnemy_returns w d Hg Hroad Hcols Hd Hrandom)
    as (row & speed & enemy0 & enemy1 & enemy & _ & _ & Hnew & Hmove & Hout & Hspawn).
  exists enemy. split; [exact Hspawn|].
  apply moveToCell_fields in Hmove. apply moveOutside_fields in Hout.
  unfold Enemy.new in Hnew. rewrite Hd in Hnew. injection Hnew as <-.
  rewrite Hout, Hmove. split; reflexivity.
Qed.

Lemma splice1_js_set {A : Type} (l : list A) : forall i x, splice1 (js_set l i x) i = splice1 l i.
Proof.
  induction l as [|a l IH]; intros i x; [destruct i; reflexivity|].
  destruct i; cbn; [reflexivity|]. now rewrite IH.
Qed.

(** The enemy block of the loop, for an enemy still in the array. *)
Lemma updateEnemy_attached (globalBoard : option Board) (dt : Q) (w : World) (index : nat)
    (entity : Entity) (moveIncrement : Vector) (flag : bool) :
  class entity = Enemy_ moveIncrement flag ->
  exists e' flag',
    Enemy.update globalBoard (_grid (board w)) entity dt = (Return tt, e') /\
    class e' = Enemy_ moveIncrement flag' /\
    removeOnHit e' = removeOnHit entity /\
    Board.updateEnemy globalBoard dt index entity false w
    = if flag'
      then Board.spawnEnemy
             (mkWorld (setEntities (board w) (splice1 (nonPlayerEntities (board w)) index))
                      (random w) (drawn w))
      else (Return tt,
            mkWorld (setEntities (board w) (js_set (nonPlayerEntities (board w)) index e'))
                    (random w) (drawn w)).
Proof.
  intros He.
  destruct (Enemy_update_returns globalBoard (_grid (board w)) entity _ _ dt He)
    as (e' & flag' & Hu & He' & Hr).
  exists e', flag'. repeat (split; [assumption|]).
  unfold Board.updateEnemy, getBoard, putBoard, liftC, ret, bind.
  rewrite Hu. unfold Enemy.respawnOnNextUpdate. rewrite He'.
  cbn [board random drawn setEntities nonPlayerEntities].
  destruct flag'; [|reflexivity].
  cbn [board random drawn setEntities nonPlayerEntities].
  now rewrite splice1_js_set.
Qed.

Lemma stepOK_trans (index : nat) (w w1 w2 : World) :
  stepOK index w w1 -> stepOK index w1 w2 -> stepOK index w w2.
Proof.
  intros (Hr & [Hn Hgr] & _ & Hc & Hb) (Hr' & [Hn' Hgr'] & Hok & Hc' & Hb').
  split; [congruence|]. split; [split; congruence|]. split; [exact Hok|].
  split; [congruence|].
  intros j Hj. rewrite (Hb' j Hj). now apply Hb.
Qed.

Lemma stepOK_weaken (index index' : nat) (w w' : World) :
  (index' <= index)%nat -> stepOK index w w' -> stepOK index' w w'.
Proof.
  intros Hle (Hr & Hs & Hok & Hc & Hb).
  split; [exact Hr|]. split; [exact Hs|]. split; [exact Hok|]. split; [exact Hc|].
  intros j Hj. apply Hb. lia.
Qed.

Lemma boardOK_change (b b' : Board) :
  boardOK b -> _grid b' = _grid b -> player b' <> None ->
  enemiesStay (nonPlayerEntities b') -> countEnemies b' = countEnemies b ->
  boardOK b'.
Proof.
  intros (Hg & Hroad & Hcols & _ & _ & Hd) Hgrid Hp Hstay Hcount.
  unfold boardOK. rewrite Hgrid, Hcount. auto 10.
Qed.

Lemma stepOK_refl (index : nat) (w : World) : boardOK (board w) -> stepOK index w w.
Proof.
  intros H. split; [reflexivity|]. split; [split; reflexivity|]. split; [exact H|].
  split; [reflexivity|]. intros j _. reflexivity.
Qed.

Lemma stepOK_setPlayer (index : nat) (w w1 : World) (q : Player) (n : nat) :
  stepOK index w w1 ->
  stepOK index w (mkWorld (setPlayer (board w1) q) (random w1) n).
Proof.
  intros (Hr & Hs & Hok & Hc & Hb).
  split; [exact Hr|]. split; [exact Hs|].
  split; [|split; [exact Hc | exact Hb]].
  apply (boardOK_change (board w1)); try reflexivity; [exact Hok | discriminate | apply Hok].
Qed.

Lemma stepOK_afterHit (w : World) (p : Player) (index : nat) (entity : Entity) :
  boardOK (board w) ->
  nth_error (nonPlayerEntities (board w)) index = Some entity ->
  Entity.instanceofEnemy entity = false ->
  stepOK index w (afterHit w p index entity) /\
  drawn (afterHit w p index entity) = drawn w /\
  player (board (afterHit w p index entity)) = Some (scored p (hitScoreIncrement entity)).
Proof.
  intros Hok Hn He. unfold afterHit.
  destruct (removeOnHit entity); cbn [board random drawn player setPlayer setEntities];
    (split; [|split; reflexivity]).
  - split; [reflexivity|]. split; [split; reflexivity|].
    assert (Hc : countEnemies (setEntities (setPlayer (board w) (scored p (hitScoreIncrement entity)))
                   (splice1 (nonPlayerEntities (board w)) index)) = countEnemies (board w)).
    { unfold countEnemies. cbn [nonPlayerEntities setEntities].
      now rewrite (filter_splice1_false _ _ _ _ Hn He). }
    split; [|split; [exact Hc|]].
    + apply (boardOK_change (board w)); try assumption; try reflexivity; [discriminate|].
      apply Forall_splice1, Hok.
    + intros j Hj. cbn [nonPlayerEntities setEntities]. now apply nth_error_splice1.
  - apply (stepOK_setPlayer index w w (scored p (hitScoreIncrement entity)) (drawn w)).
    now apply stepOK_refl.
Qed.

(** Whatever the entity hit, the hit returns and keeps what the pass keeps;
    an enemy that is hit stays where it is in the array. *)
Lemma hit_general (w : World) (index : nat) (entity : Entity) (p : Player) :
  boardOK (board w) ->
  player (board w) = Some p ->
  nth_error (nonPlayerEntities (board w)) index = Some entity ->
  exists w1,
    Board.hit index entity w = (Return tt, w1) /\
    drawn w1 = drawn w /\
    stepOK index w w1 /\
    (Entity.instanceofEnemy entity = true ->
     nth_error (nonPlayerEntities (board w1)) index = Some entity).
Proof.
  intros Hok Hp Hn.
  destruct (Entity.instanceofEnemy entity) eqn:He.
  - destruct Hok as (Hg & Hroad & Hcols & Hpl & Hstay & Hdims).
    assert (Hr : removeOnHit entity = false).
    { unfold enemiesStay in Hstay. rewrite Forall_forall in Hstay.
      apply Hstay; [eapply nth_error_In; eassumption | exact He]. }
    destruct Hdims as [Hc|Hd]; [now apply enemy_counted in Hn|].
    destruct (EntityVisual.dimensions (BoardGrid.cellVisualTemplate (_grid (board w))))
      as [d|] eqn:Ed; [|congruence].
    assert (Hclass : exists moveIncrement flag, class entity = Enemy_ moveIncrement flag).
    { unfold Entity.instanceofEnemy in He. destruct (class entity); try discriminate; eauto. }
    destruct Hclass as (moveIncrement & flag & Hclass).
    destruct (hit_enemy w index entity _ _ p d Hg Hroad Hcols Ed Hp Hclass Hr)
      as (fresh & _ & Hhit).
    eexists. split; [exact Hhit|]. split; [reflexivity|].
    split; [|intros _; cbn [board nonPlayerEntities setPlayer setEntities];
             now apply nth_error_app_left].
    apply (stepOK_setPlayer index w
             (mkWorld (setEntities (board w)
                         (nonPlayerEntities (board w) ++ [bloodOf p (vx moveIncrement) d]))
                      (random w) (drawn w))).
    assert (Hcount : countEnemies (setEntities (board w)
                        (nonPlayerEntities (board w) ++ [bloodOf p (vx moveIncrement) d]))
                     = countEnemies (board w)).
    { rewrite countEnemies_app. cbn [filter bloodOf Entity.instanceofEnemy class List.length].
      unfold countEnemies. cbn [nonPlayerEntities setEntities]. lia. }
    split; [reflexivity|]. split; [split; reflexivity|].
    split; [|split; [exact Hcount|]].
    + apply (boardOK_change (board w)); try reflexivity; try assumption.
      * unfold boardOK. rewrite Ed. repeat (split; [assumption|]). right. discriminate.
      * apply enemiesStay_app; [exact Hstay|]. constructor; [discriminate | constructor].
    + intros j Hj. cbn [board nonPlayerEntities setEntities].
      apply nth_error_app1. apply nth_error_Some.
      assert (index < List.length (nonPlayerEntities (board w)))%nat
        by (apply nth_error_Some; congruence).
      intros E. apply nth_error_None in E. lia.
  - rewrite (hit_other w index entity p Hp He).
    destruct (stepOK_afterHit w p index entity Hok Hn He) as (Hstep & Hdrawn & Hplayer).
    destruct (isWaterCell entity).
    + destruct Hstep as (Hr & Hs & Hok' & Hc & Hb).
      destruct Hok' as (Hg & Hroad & Hcols & Hpl & Hstay & Hdims).
      destruct (respawnPlayer_returns _ _ Hg Hroad Hcols Hplayer) as (fresh & _ & Hre).
      eexists. split; [exact Hre|]. split; [exact Hdrawn|]. split; [|discriminate].
      apply stepOK_setPlayer. repeat split; try assumption; apply Hs.
    + eexists. split; [reflexivity|]. split; [exact Hdrawn|]. split; [exact Hstep | discriminate].
Qed.

Lemma enemy_not_blood (e : Entity) : Entity.instanceofEnemy e = true -> isBlood e = false.
Proof. unfold Entity.instanceofEnemy, isBlood. now destruct (class e). Qed.

Lemma nth_error_below {A : Type} (l : list A) (index j : nat) (a : A) :
  nth_error l index = Some a -> (j < index)%nat -> exists a', nth_error l j = Some a'.
Proof.
  intros H Hj. destruct (nth_error l j) eqn:E; [eauto|].
  apply nth_error_None in E.
  assert (index < List.length l)%nat by (apply nth_error_Some; congruence). lia.
Qed.

(** The enemy block of the loop returns and keeps what the pass keeps: an
    enemy that has left the board is replaced by exactly one new enemy.  It
    leaves the player and the blood props alone. *)
Lemma updateEnemy_general (globalBoard : option Board) (dt : Q) (w : World) (index : nat)
    (entity : Entity) :
  boardOK (board w) ->
  randomOK (random w) ->
  nth_error (nonPlayerEntities (board w)) index = Some entity ->
  Entity.instanceofEnemy entity = true ->
  exists w2,
    Board.updateEnemy globalBoard dt index entity false w = (Return tt, w2) /\
    stepOK index w w2 /\
    player (board w2) = player (board w) /\
    filter isBlood (nonPlayerEntities (board w2)) = filter isBlood (nonPlayerEntities (board w)).
Proof.
  intros Hok Hrandom Hn He.
  pose proof Hok as (Hg & Hroad & Hcols & Hpl & Hstay & Hdims).
  assert (Hr : removeOnHit entity = false).
  { unfold enemiesStay in Hstay. rewrite Forall_forall in Hstay.
    apply Hstay; [eapply nth_error_In; eassumption | exact He]. }
  destruct Hdims as [Hc|Hd]; [now apply enemy_counted in Hn|].
  destruct (EntityVisual.dimensions (BoardGrid.cellVisualTemplate (_grid (board w))))
    as [d|] eqn:Ed; [|congruence].
  assert (Hclass : exists moveIncrement flag, class entity = Enemy_ moveIncrement flag).
  { unfold Entity.instanceofEnemy in He. destruct (class entity); try discriminate; eauto. }
  destruct Hclass as (moveIncrement & flag & Hclass).
  destruct (updateEnemy_attached globalBoard dt w index entity _ _ Hclass)
    as (e' & flag' & _ & Hclass' & Hr' & Hupdate).
  assert (He' : Entity.instanceofEnemy e' = true)
    by (unfold Entity.instanceofEnemy; now rewrite Hclass').
  rewrite Hupdate. destruct flag'.
  - set (ws := mkWorld (setEntities (board w) (splice1 (nonPlayerEntities (board w)) index))
                       (random w) (drawn w)).
    destruct (spawnEnemy_general ws d Hg Hroad Hcols Ed Hrandom) as (enemy & Hspawn & Hen & Hre).
    exists (spawned ws enemy). split; [exact Hspawn|].
    unfold spawned, ws. cbn [board random drawn setEntities nonPlayerEntities player].
    assert (Hcount : countEnemies (setEntities (board w)
                       (splice1 (nonPlayerEntities (board w)) index ++ [enemy]))
                     = countEnemies (board w)).
    { rewrite countEnemies_app. cbn [filter]. rewrite Hen. unfold countEnemies.
      cbn [nonPlayerEntities setEntities List.length].
      rewrite <- (filter_splice1_true _ _ _ _ Hn He). lia. }
    split; [|split; [reflexivity|]].
    + split; [reflexivity|]. split; [split; reflexivity|].
      split; [|split; [exact Hcount|]].
      * apply (boardOK_change (board w)); try reflexivity; try assumption.
        apply enemiesStay_app; [apply Forall_splice1, Hstay|].
        constructor; [intros _; exact Hre | constructor].
      * intros j Hj. cbn [nonPlayerEntities setEntities].
        destruct (nth_error_below _ _ _ _ Hn Hj) as [a Ha]. rewrite Ha.
        apply nth_error_app_left. now rewrite nth_error_splice1.
    + rewrite filter_app. cbn [filter]. rewrite (enemy_not_blood _ Hen), app_nil_r.
      apply (filter_splice1_false _ _ _ _ Hn), enemy_not_blood, He.
  - eexists. split; [reflexivity|].
    cbn [board random drawn setEntities nonPlayerEntities player].
    assert (Hcount : countEnemies (setEntities (board w) (js_set (nonPlayerEntities (board w)) index e'))
                     = countEnemies (board w)).
    { unfold countEnemies. cbn [nonPlayerEntities setEntities].
      apply (filter_js_set _ _ _ _ _ Hn). congruence. }
    split; [|split; [reflexivity|]].
    + split; [reflexivity|]. split; [split; reflexivity|].
      split; [|split; [exact Hcount|]].
      * apply (boardOK_change (board w)); try reflexivity; try assumption.
        apply Forall_js_set; [exact Hstay|]. intros _. congruence.
      * intros j Hj. cbn [nonPlayerEntities setEntities]. apply nth_error_js_set. lia.
    + apply (filter_js_set_false _ _ _ _ _ Hn); now apply enemy_not_blood.
Qed.

(** [player.touches(entity)] as a boolean: between two entities it cannot
    throw. *)
Lemma touches_returns (e entity : Entity) :
  Entity.touches e entity
  = Return (Area.intersectsArea (Entity.occupiedArea e) (Entity.occupiedArea entity)).
Proof. reflexivity. Qed.

Lemma updateEntity_unfold (globalBoard : option Board) (dt : Q) (index : nat) (w : World)
    (p : Player) (entity : Entity) :
  player (board w) = Some p ->
  nth_error (nonPlayerEntities (board w)) index = Some entity ->
  let touched := Area.intersectsArea (Entity.occupiedArea (super p)) (Entity.occupiedArea entity) in
  Board.updateEntity globalBoard dt index w
  = match (if touched then Board.hit index entity else ret tt) w with
    | (Return _, w1) =>
        (if Entity.instanceofEnemy entity
         then Board.updateEnemy globalBoard dt index entity (touched && removeOnHit entity)
         else ret tt) w1
    | (Throw e, w1) => (Throw e, w1)
    end.
Proof.
  intros Hp Hn touched. unfold Board.updateEntity, getBoard, liftC, bind.
  rewrite Hp, Hn, touches_returns. reflexivity.
Qed.

(** One turn of the loop of [update] returns and keeps what the pass keeps. *)
Lemma updateEntity_general (globalBoard : option Board) (dt : Q) (index : nat) (w : World) :
  boardOK (board w) ->
  randomOK (random w) ->
  (index < List.length (nonPlayerEntities (board w)))%nat ->
  exists w', Board.updateEntity globalBoard dt index w = (Return tt, w') /\ stepOK index w w'.
Proof.
  intros Hok Hrandom Hindex.
  destruct (player (board w)) as [p|] eqn:Hp; [|now destruct Hok as (_ & _ & _ & Hpl & _)].
  destruct (nth_error (nonPlayerEntities (board w)) index) as [entity|] eqn:Hn;
    [|apply nth_error_None in Hn; lia].
  rewrite (updateEntity_unfold globalBoard dt index w p entity Hp Hn).
  set (touched := Area.intersectsArea _ _).
  assert (Hhit : exists w1,
             (if touched then Board.hit index entity else ret tt) w = (Return tt, w1) /\
             stepOK index w w1 /\
             (Entity.instanceofEnemy entity = true ->
              nth_error (nonPlayerEntities (board w1)) index = Some entity)).
  { destruct touched.
    - destruct (hit_general w index entity p Hok Hp Hn) as (w1 & H1 & _ & H2 & H3). eauto.
    - exists w. split; [reflexivity|]. split; [now apply stepOK_refl | intros _; exact Hn]. }
  destruct Hhit as (w1 & Hhit & Hstep & Hstill). rewrite Hhit.
  destruct (Entity.instanceofEnemy entity) eqn:He; [|exists w1; split; [reflexivity | exact Hstep]].
  assert (Hr : removeOnHit entity = false).
  { destruct Hok as (_ & _ & _ & _ & Hstay & _).
    unfold enemiesStay in Hstay. rewrite Forall_forall in Hstay.
    apply Hstay; [eapply nth_error_In; eassumption | exact He]. }
  rewrite Hr, andb_false_r.
  pose proof Hstep as (Hr1 & _ & Hok1 & _).
  assert (Hrandom1 : randomOK (random w1)) by (now rewrite Hr1).
  destruct (updateEnemy_general globalBoard dt w1 index entity Hok1 Hrandom1 (Hstill eq_refl) He)
    as (w2 & Hupdate & Hstep2 & _).
  exists w2. split; [exact Hupdate|]. eapply stepOK_trans; eassumption.
Qed.

Lemma sameBelow_length (index : nat) (b b' : Board) :
  sameBelow index b b' -> (index <= List.length (nonPlayerEntities b))%nat ->
  (index <= List.length (nonPlayerEntities b'))%nat.
Proof.
  intros H Hle. destruct index as [|i]; [lia|].
  assert (E : nth_error (nonPlayerEntities b') i <> None).
  { rewrite (H i) by lia. apply nth_error_Some. lia. }
  apply nth_error_Some in E. lia.
Qed.

(** The loop of [update] over the indices below [count] returns and keeps
    what the pass keeps. *)
Lemma updateFrom_general (globalBoard : option Board) (dt : Q) (count : nat) : forall w,
  boardOK (board w) ->
  randomOK (random w) ->
  (count <= List.length (nonPlayerEntities (board w)))%nat ->
  exists w', Board.updateFrom globalBoard dt count w = (Return tt, w') /\ stepOK 0 w w'.
Proof.
  induction count as [|index IH]; intros w Hok Hrandom Hcount.
  - exists w. split; [reflexivity | now apply stepOK_refl].
  - destruct (updateEntity_general globalBoard dt index w Hok Hrandom) as (w1 & Hrun & Hstep);
      [lia|].
    pose proof Hstep as (Hr1 & _ & Hok1 & _ & Hbelow).
    destruct (IH w1 Hok1) as (w' & Hrun' & Hstep').
    + now rewrite Hr1.
    + apply (sameBelow_length index (board w)); [exact Hbelow | lia].
    + exists w'. split.
      * cbn [Board.updateFrom]. unfold bind. rewrite Hrun. exact Hrun'.
      * eapply stepOK_trans; [eapply stepOK_weaken; [|exact Hstep]; lia | exact Hstep'].
Qed.

(** ** The constructor of the board *)

Lemma constructed_new bt n types t canvas : constructed (BoardGrid.new bt n types t canvas).
Proof. reflexivity. Qed.

Lemma newRows_cells bt n types : forall r z,
  Forall (fun c => Entity.instanceofBoardGridCell c = true)
         (List.concat (BoardGrid.newRows bt n types r z)).
Proof.
  induction types as [|t ts IH]; intros r z; [constructor|].
  cbn [BoardGrid.newRows List.concat]. apply Forall_app. split; [|apply IH].
  unfold BoardGrid.newRow. apply Forall_forall. intros c Hc.
  apply in_map_iff in Hc. destruct Hc as (column & <- & _). reflexivity.
Qed.

Lemma cells_no_enemy (entities : list Entity) :
  Forall (fun c => Entity.instanceofBoardGridCell c = true) entities ->
  filter Entity.instanceofEnemy entities = [] /\
  existsb Entity.instanceofDiamond entities = false.
Proof.
  induction 1 as [|c l Hc _ [IH1 IH2]]; [split; reflexivity|].
  cbn [filter existsb]. rewrite IH1, IH2.
  unfold Entity.instanceofBoardGridCell, Entity.instanceofEnemy, Entity.instanceofDiamond in *.
  destruct (class c); try discriminate; split; reflexivity.
Qed.

Lemma keptByDiamonds_trans (w w1 w2 : World) :
  keptByDiamonds w w1 -> keptByDiamonds w1 w2 -> keptByDiamonds w w2.
Proof.
  intros (Hr & [Hn Hg] & Hp & Hf) (Hr' & [Hn' Hg'] & Hp' & Hf').
  split; [congruence|]. split; [split; congruence|]. split; congruence.
Qed.

Lemma placeDiamond_keeps (roadCells : list Entity) (indices indices' : list Z) (w w' : World) :
  Board.placeDiamond roadCells indices w = (Return indices', w') -> keptByDiamonds w w'.
Proof.
  unfold Board.placeDiamond, randBetween, Math_random, ret, throw, getBoard, liftC, putBoard, bind.
  cbn [board random drawn].
  destruct (existsb _ indices).
  - intros [= _ <-]. repeat split.
  - destruct (js_get roadCells _) as [cell|]; [|discriminate].
    destruct (class cell) as [| |type gridPosition| |]; try discriminate.
    destruct (Entity.moveToCell _ _ _ _) as [diamond|] eqn:Hmove; [|discriminate].
    intros [= _ <-]. apply moveToCell_fields in Hmove.
    split; [reflexivity|]. split; [split; reflexivity|]. split; [reflexivity|].
    cbn [board nonPlayerEntities setEntities]. rewrite filter_app, Hmove. cbn. apply app_nil_r.
Qed.

Lemma placeDiamondsLoop_keeps (numberOfDiamonds : nat) (roadCells : list Entity) (fuel : nat) :
  forall indices w w',
    Board.placeDiamondsLoop fuel numberOfDiamonds roadCells indices w = Some (Return tt, w') ->
    keptByDiamonds w w'.
Proof.
  induction fuel as [|fuel IH]; intros indices w w'; cbn [Board.placeDiamondsLoop];
    destruct (List.length indices <? numberOfDiamonds)%nat; try discriminate;
    try (intros [= <-]; repeat split).
  destruct (Board.placeDiamond roadCells indices w) as [[indices'|e] w1] eqn:Hstep;
    [|discriminate].
  intros Hloop. eapply keptByDiamonds_trans; [eapply placeDiamond_keeps | eapply IH]; eassumption.
Qed.

Lemma placeDiamonds_keeps (fuel : nat) (w w' : World) :
  Board.placeDiamonds fuel w = Some (Return tt, w') -> keptByDiamonds w w'.
Proof.
  unfold Board.placeDiamonds.
  destruct (existsb _ _); [discriminate|].
  destruct (_ <? _)%nat; [discriminate|]. apply placeDiamondsLoop_keeps.
Qed.

Lemma Player_new_needs_column (g : BoardGrid.t) (p : Player) :
  constructed g -> In road (BoardGrid._rowTypes g) -> Player.new g = Return p ->
  (1 <= BoardGrid.numberOfColumns g)%nat.
Proof.
  intros Hg Hroad Hnew.
  destruct (BoardGrid.numberOfColumns g) as [|n] eqn:En; [|lia].
  exfalso. unfold Player.new, Entity.moveToCell in Hnew.
  rewrite (getCell_column_outside g (GridPosition.row (playerStartPosition g))
             (GridPosition.column (playerStartPosition g)) Hg) in Hnew;
    [discriminate| |rewrite En; lia].
  unfold playerStartPosition, BoardGrid.numberOfRows. cbn [GridPosition.row].
  destruct (BoardGrid._rowTypes g); [destruct Hroad | cbn [List.length]; lia].
Qed.

Lemma spawnEnemy_without_dimensions (w : World) :
  EntityVisual.dimensions (BoardGrid.cellVisualTemplate (_grid (board w))) = None ->
  exists e w', Board.spawnEnemy w = (Throw e, w').
Proof.
  intros Hd.
  unfold Board.spawnEnemy, randBetween, Math_random, ret, getBoard, liftC, putBoard, bind.
  cbn [board random drawn].
  destruct (BoardGrid.rowTypes _); [|eauto].
  unfold Enemy.new. rewrite Hd. eauto.
Qed.

(** [count] calls of [spawnEnemy] return and append [count] enemies, none
    of them removed on hit. *)
Lemma spawnEnemies_general (d : Dimensions.t) (count : nat) : forall w,
  constructed (_grid (board w)) ->
  In road (BoardGrid._rowTypes (_grid (board w))) ->
  (1 <= BoardGrid.numberOfColumns (_grid (board w)))%nat ->
  EntityVisual.dimensions (BoardGrid.cellVisualTemplate (_grid (board w))) = Some d ->
  randomOK (random w) ->
  enemiesStay (nonPlayerEntities (board w)) ->
  exists w',
    Board.spawnEnemies count w = (Return tt, w') /\
    random w' = random w /\
    sameSetup (board w) (board w') /\
    player (board w') = player (board w) /\
    enemiesStay (nonPlayerEntities (board w')) /\
    countEnemies (board w') = (countEnemies (board w) + count)%nat.
Proof.
  induction count as [|count IH]; intros w Hg Hroad Hcols Hd Hrandom Hstay.
  - exists w. cbn [Board.spawnEnemies]. unfold ret.
    split; [reflexivity|]. split; [reflexivity|]. split; [split; reflexivity|].
    split; [reflexivity|]. split; [exact Hstay | lia].
  - destruct (spawnEnemy_general w d Hg Hroad Hcols Hd Hrandom) as (enemy & Hspawn & He & Hr).
    destruct (IH (spawned w enemy)) as (w' & Hrun & Hr' & [Hn' Hg'] & Hp' & Hstay' & Hc');
      try assumption.
    { cbn [spawned board setEntities nonPlayerEntities]. apply enemiesStay_app; [exact Hstay|].
      constructor; [intros _; exact Hr | constructor]. }
    exists w'. split; [cbn [Board.spawnEnemies]; unfold bind; now rewrite Hspawn|].
    split; [exact Hr'|]. split; [split; [exact Hn' | exact Hg']|]. split; [exact Hp'|].
    split; [exact Hstay'|]. rewrite Hc'.
    unfold spawned. cbn [board]. rewrite countEnemies_app. cbn [filter]. rewrite He.
    unfold countEnemies. cbn [nonPlayerEntities setEntities List.length]. lia.
Qed.

Lemma filter_out_enemies (entities : list Entity) :
  filter Entity.instanceofEnemy
         (filter (fun entity => negb (Entity.instanceofEnemy entity)) entities) = [] /\
  enemiesStay (filter (fun entity => negb (Entity.instanceofEnemy entity)) entities).
Proof.
  induction entities as [|e l [IH1 IH2]]; [split; constructor|].
  cbn [filter]. destruct (Entity.instanceofEnemy e) eqn:E; cbn [negb filter]; [now split|].
  rewrite E. split; [exact IH1|]. constructor; [congruence | exact IH2].
Qed.

(** The constructor of a board with a road row, when it returns, leaves a
    board that satisfies the invariant and carries [numberOfEnemies]
    enemies. *)
Lemma Board_new_establishes (numberOfColumns : nat) (rowTypes : list CellType)
    (numberOfEnemies0 numberOfDiamonds0 : nat) (range : Range.t) (template : EntityVisual.t)
    (canvas : Dimensions.t) (fuel : nat) (samples : nat -> Q) (drawn0 : nat) (w : World) :
  In road rowTypes ->
  randomOK samples ->
  Board.new numberOfColumns rowTypes numberOfEnemies0 numberOfDiamonds0 range template canvas
            fuel samples drawn0 = Some (Return tt, w) ->
  boardOK (board w) /\
  random w = samples /\
  numberOfEnemies (board w) = numberOfEnemies0 /\
  countEnemies (board w) = numberOfEnemies0.
Proof.
  intros Hroad Hrandom. unfold Board.new.
  set (g := BoardGrid.new template numberOfColumns rowTypes template canvas).
  set (w0 := mkWorld _ samples drawn0).
  destruct (Board.placeDiamonds fuel w0) as [[[[]|e] w1]|] eqn:Hplace; try discriminate.
  apply placeDiamonds_keeps in Hplace. destruct Hplace as (Hr1 & [Hn1 Hg1] & Hp1 & Hf1).
  cbn [w0 board random nonPlayerEntities _grid numberOfEnemies] in Hr1, Hn1, Hg1, Hf1.
  destruct (cells_no_enemy _ (newRows_cells template numberOfColumns rowTypes 0 0)) as [Hnone _].
  change (filter Entity.instanceofEnemy (BoardGrid.cells g) = []) in Hnone.
  rewrite Hnone in Hf1. clear Hnone.
  unfold liftC, getBoard, putBoard, bind. rewrite Hg1.
  destruct (Player.new g) as [p|e] eqn:Hnew; [|discriminate].
  assert (Hg : constructed g) by apply constructed_new.
  pose proof (Player_new_needs_column g p Hg Hroad Hnew) as Hcols.
  unfold Board.respawnEnemies, getBoard, putBoard, bind.
  cbn [board random drawn setPlayer setEntities numberOfEnemies nonPlayerEntities].
  rewrite Hn1.
  destruct (filter_out_enemies (nonPlayerEntities (board w1))) as [Hzero Hstay].
  set (w2 := mkWorld _ (random w1) (drawn w1)).
  assert (Hcount2 : countEnemies (board w2) = 0%nat).
  { unfold countEnemies, w2. cbn [board nonPlayerEntities setEntities setPlayer].
    now rewrite Hzero. }
  destruct numberOfEnemies0 as [|n].
  - cbn [Board.spawnEnemies]. unfold ret. intros [= <-].
    split; [|split; [exact Hr1 | split; [exact Hn1 | exact Hcount2]]].
    unfold boardOK. rewrite Hcount2. unfold w2.
    cbn [board _grid player nonPlayerEntities setEntities setPlayer]. rewrite Hg1.
    repeat (split; [first [assumption | discriminate]|]). now left.
  - destruct (EntityVisual.dimensions (BoardGrid.cellVisualTemplate (_grid (board w2))))
      as [d|] eqn:Ed.
    + assert (Hg2 : _grid (board w2) = g) by exact Hg1.
      assert (Hstay2 : enemiesStay (nonPlayerEntities (board w2))) by exact Hstay.
      assert (Hrandom2 : randomOK (random w2)) by (unfold w2; cbn [random]; now rewrite Hr1).
      destruct (spawnEnemies_general d (S n) w2)
        as (w' & Hrun & Hr' & [Hn' Hg'] & Hp' & Hstay' & Hc');
        try assumption; try (rewrite Hg2; assumption).
      rewrite Hrun. intros [= <-].
      unfold w2 in Hr', Hn', Hg', Hp', Ed.
      cbn [board _grid random numberOfEnemies player setEntities setPlayer] in Hr', Hn', Hg', Hp', Ed.
      split; [|split; [congruence | split; [congruence | rewrite Hc', Hcount2; lia]]].
      unfold boardOK. rewrite Hg', Hg1, Hp'.
      repeat (split; [first [assumption | discriminate]|]).
      right. rewrite Hg1 in Ed. rewrite Ed. discriminate.
    + destruct (spawnEnemy_without_dimensions w2 Ed) as (e & w' & Hthrow).
      cbn [Board.spawnEnemies]. unfold bind. rewrite Hthrow. discriminate.
Qed.

(** ** The number of enemies *)

(** [update(dt)] returns on a board that satisfies the invariant, keeps the
    invariant and keeps the number of enemies on the board. *)
Lemma update_keeps_enemies (globalBoard : option Board) (dt : Q) (w : World) :
  boardOK (board w) ->
  randomOK (random w) ->
  exists w',
    Board.update globalBoard dt w = (Return tt, w') /\
    boardOK (board w') /\
    randomOK (random w') /\
    numberOfEnemies (board w') = numberOfEnemies (board w) /\
    countEnemies (board w') = countEnemies (board w).
Proof.
  intros Hok Hrandom.
  destruct (updateFrom_general globalBoard dt (List.length (nonPlayerEntities (board w))) w
              Hok Hrandom (Nat.le_refl _)) as (w' & Hrun & Hr & [Hn _] & Hok' & Hc & _).
  exists w'. split; [exact Hrun|]. split; [exact Hok'|].
  split; [now rewrite Hr|]. split; [exact Hn | exact Hc].
Qed.

Lemma main_keeps_enemies (globalBoard : option Board) (dts : list Q) : forall w,
  boardOK (board w) ->
  randomOK (random w) ->
  exists w',
    Engine.main globalBoard dts w = (Return tt, w') /\
    boardOK (board w') /\
    numberOfEnemies (board w') = numberOfEnemies (board w) /\
    countEnemies (board w') = countEnemies (board w).
Proof.
  induction dts as [|dt dts IH]; intros w Hok Hrandom.
  - exists w. split; [reflexivity|]. split; [exact Hok|]. split; reflexivity.
  - destruct (update_keeps_enemies globalBoard dt w Hok Hrandom)
      as (w1 & Hrun & Hok1 & Hrandom1 & Hn1 & Hc1).
    destruct (IH w1 Hok1 Hrandom1) as (w' & Hrun' & Hok' & Hn' & Hc').
    exists w'. split; [cbn [Engine.main]; unfold bind; now rewrite Hrun|].
    split; [exact Hok'|]. split; congruence.
Qed.

(** C7: with a road row among the row types, a board that its constructor
    returns carries [numberOfEnemies] enemies, and so does it after every
    call of [update], each of which returns: an enemy that has left the
    board is replaced by one new enemy, and no enemy of the board is removed
    on hit. *)
Theorem enemy_count_invariant (numberOfColumns : nat) (rowTypes : list CellType)
    (numberOfEnemies0 numberOfDiamonds0 : nat) (range : Range.t) (template : EntityVisual.t)
    (canvas : Dimensions.t) (fuel : nat) (samples : nat -> Q) (drawn0 : nat) (w : World)
    (globalBoard : option Board) (dts : list Q)
    (Hroad : In road rowTypes)
    (Hrandom : randomOK samples)
    (Hnew : Board.new numberOfColumns rowTypes numberOfEnemies0 numberOfDiamonds0 range template
                      canvas fuel samples drawn0 = Some (Return tt, w)) :
  countEnemies (board w) = numberOfEnemies0 /\
  enemiesStay (nonPlayerEntities (board w)) /\
  exists w',
    Engine.main globalBoard dts w = (Return tt, w') /\
    numberOfEnemies (board w') = numberOfEnemies0 /\
    countEnemies (board w') = numberOfEnemies0 /\
    enemiesStay (nonPlayerEntities (board w')).
Proof.
  destruct (Board_new_establishes _ _ _ _ _ _ _ _ _ _ _ Hroad Hrandom Hnew)
    as (Hok & Hr & Hn & Hc).
  split; [exact Hc|]. split; [apply Hok|].
  destruct (main_keeps_enemies globalBoard dts w Hok) as (w' & Hrun & Hok' & Hn' & Hc').
  { now rewrite Hr. }
  exists w'. split; [exact Hrun|]. split; [congruence|]. split; [congruence | apply Hok'].
Qed.

(** The constructor does return: with no diamond to place, a road row, a
    column and a cell visual template that has dimensions. *)
Lemma Board_new_returns (numberOfColumns : nat) (rowTypes : list CellType)
    (numberOfEnemies0 : nat) (range : Range.t) (template : EntityVisual.t) (d : Dimensions.t)
    (canvas : Dimensions.t) (fuel : nat) (samples : nat -> Q) (drawn0 : nat) :
  In road rowTypes ->
  (1 <= numberOfColumns)%nat ->
  EntityVisual.dimensions template = Some d ->
  randomOK samples ->
  exists w,
    Board.new numberOfColumns rowTypes numberOfEnemies0 0 range template canvas
              fuel samples drawn0 = Some (Return tt, w).
Proof.
  intros Hroad Hcols Hd Hrandom. unfold Board.new, Board.placeDiamonds.
  set (g := BoardGrid.new template numberOfColumns rowTypes template canvas).
  cbn [board nonPlayerEntities numberOfDiamonds _grid].
  destruct (cells_no_enemy _ (newRows_cells template numberOfColumns rowTypes 0 0)) as [_ Hnone].
  change (existsb Entity.instanceofDiamond (BoardGrid.cells g) = false) in Hnone.
  rewrite Hnone. cbn [Nat.ltb Nat.leb].
  assert (Hloop : forall roadCells w0,
             Board.placeDiamondsLoop fuel 0 roadCells [] w0 = Some (Return tt, w0))
    by (destruct fuel; reflexivity).
  rewrite Hloop. cbn [board _grid].
  assert (Hg : constructed g) by apply constructed_new.
  destruct (Player_new_returns g Hg Hroad Hcols) as (p & Hnew & _).
  unfold liftC, getBoard, putBoard, bind. rewrite Hnew.
  unfold Board.respawnEnemies, getBoard, putBoard, bind.
  cbn [board random drawn setPlayer setEntities numberOfEnemies nonPlayerEntities].
  match goal with |- context [Board.spawnEnemies _ ?w2] =>
    destruct (spawnEnemies_general d numberOfEnemies0 w2) as (w' & Hrun & _);
      try assumption; [apply filter_out_enemies|]
  end.
  rewrite Hrun. eauto.
Qed.

(** ** Collisions *)

Lemma updateEnemy_keeps_others (globalBoard : option Board) (dt : Q) (w : World) (index : nat)
    (entity : Entity) (w2 : World) :
  boardOK (board w) ->
  randomOK (random w) ->
  nth_error (nonPlayerEntities (board w)) index = Some entity ->
  Entity.instanceofEnemy entity = true ->
  Board.updateEnemy globalBoard dt index entity false w = (Return tt, w2) ->
  filter noEnemy (nonPlayerEntities (board w2)) = filter noEnemy (nonPlayerEntities (board w)).
Proof.
  intros Hok Hrandom Hn He Hrun.
  pose proof Hok as (Hg & Hroad & Hcols & Hpl & Hstay & Hdims).
  destruct Hdims as [Hc|Hd]; [now apply enemy_counted in Hn|].
  destruct (EntityVisual.dimensions (BoardGrid.cellVisualTemplate (_grid (board w))))
    as [d|] eqn:Ed; [|congruence].
  assert (Hclass : exists moveIncrement flag, class entity = Enemy_ moveIncrement flag).
  { unfold Entity.instanceofEnemy in He. destruct (class entity); try discriminate; eauto. }
  destruct Hclass as (moveIncrement & flag & Hclass).
  destruct (updateEnemy_attached globalBoard dt w index entity _ _ Hclass)
    as (e' & flag' & _ & Hclass' & _ & Hupdate).
  assert (He' : Entity.instanceofEnemy e' = true)
    by (unfold Entity.instanceofEnemy; now rewrite Hclass').
  assert (Hno : forall e, Entity.instanceofEnemy e = true -> noEnemy e = false)
    by (intros e H; unfold noEnemy; now rewrite H).
  rewrite Hupdate in Hrun. destruct flag'.
  - set (ws := mkWorld (setEntities (board w) (splice1 (nonPlayerEntities (board w)) index))
                       (random w) (drawn w)) in *.
    destruct (spawnEnemy_general ws d Hg Hroad Hcols Ed Hrandom) as (enemy & Hspawn & Hen & _).
    rewrite Hspawn in Hrun. injection Hrun as <-.
    unfold spawned, ws. cbn [board nonPlayerEntities setEntities].
    rewrite filter_app. cbn [filter]. rewrite (Hno _ Hen), app_nil_r.
    apply (filter_splice1_false _ _ _ _ Hn), Hno, He.
  - injection Hrun as <-. cbn [board nonPlayerEntities setEntities].
    apply (filter_js_set_false _ _ _ _ _ Hn); now apply Hno.
Qed.

(** The turn of the loop for an entity that the player does not touch, or
    touches without consequence: the player stays where it is with its
    score, and the entities that are no enemies stay as they are. *)
Lemma harmless_turn (globalBoard : option Board) (dt : Q) (j : nat) (w : World) (q : Player)
    (e : Entity) :
  boardOK (board w) ->
  randomOK (random w) ->
  player (board w) = Some q ->
  nth_error (nonPlayerEntities (board w)) j = Some e ->
  (Entity.touches (super q) e = Return true -> harmless e) ->
  exists w' q',
    Board.updateEntity globalBoard dt j w = (Return tt, w') /\
    stepOK j w w' /\
    player (board w') = Some q' /\
    super q' = super q /\ _gridPosition q' = _gridPosition q /\ score q' == score q /\
    filter noEnemy (nonPlayerEntities (board w')) = filter noEnemy (nonPlayerEntities (board w)).
Proof.
  intros Hok Hrandom Hp Hn Hharmless.
  rewrite (updateEntity_unfold globalBoard dt j w q e Hp Hn).
  rewrite touches_returns in Hharmless.
  destruct (Area.intersectsArea (Entity.occupiedArea (super q)) (Entity.occupiedArea e)).
  - destruct (Hharmless eq_refl) as (Hne & Hnw & Hnr & Hs).
    rewrite (hit_other w j e q Hp Hne), Hnw, Hne.
    destruct (stepOK_afterHit w q j e Hok Hn Hne) as (Hstep & _ & Hplayer).
    exists (afterHit w q j e), (scored q (hitScoreIncrement e)).
    split; [reflexivity|]. split; [exact Hstep|]. split; [exact Hplayer|].
    split; [reflexivity|]. split; [reflexivity|].
    split; [cbn [scored score]; lra|].
    unfold afterHit. rewrite Hnr. reflexivity.
  - unfold ret at 1. cbn [andb].
    destruct (Entity.instanceofEnemy e) eqn:He.
    + destruct (updateEnemy_general globalBoard dt w j e Hok Hrandom Hn He)
        as (w2 & Hrun & Hstep & Hp2 & _).
      exists w2, q. split; [exact Hrun|]. split; [exact Hstep|].
      split; [now rewrite Hp2|]. split; [reflexivity|]. split; [reflexivity|].
      split; [reflexivity|].
      exact (updateEnemy_keeps_others globalBoard dt w j e w2 Hok Hrandom Hn He Hrun).
    + exists w, q. split; [reflexivity|]. split; [now apply stepOK_refl|].
      split; [exact Hp|]. repeat split; reflexivity.
Qed.

(** The turns of the loop below [count], none of them with a consequence
    for the player. *)
Lemma harmless_turns (globalBoard : option Board) (dt : Q) (count : nat) : forall w q,
  boardOK (board w) ->
  randomOK (random w) ->
  (count <= List.length (nonPlayerEntities (board w)))%nat ->
  player (board w) = Some q ->
  touchesHarmlessOnly (super q) (nonPlayerEntities (board w)) 0 count ->
  exists w' q',
    Board.updateFrom globalBoard dt count w = (Return tt, w') /\
    stepOK 0 w w' /\
    player (board w') = Some q' /\
    super q' = super q /\ _gridPosition q' = _gridPosition q /\ score q' == score q /\
    filter noEnemy (nonPlayerEntities (board w')) = filter noEnemy (nonPlayerEntities (board w)).
Proof.
  induction count as [|c IH]; intros w q Hok Hrandom Hcount Hp Hh.
  - exists w, q. split; [reflexivity|]. split; [now apply stepOK_refl|].
    split; [exact Hp|]. repeat split; reflexivity.
  - destruct (nth_error (nonPlayerEntities (board w)) c) as [e|] eqn:Hn;
      [|apply nth_error_None in Hn; lia].
    destruct (harmless_turn globalBoard dt c w q e Hok Hrandom Hp Hn)
      as (w1 & q1 & Hrun1 & Hstep1 & Hp1 & Hs1 & Hg1 & Hsc1 & Hf1).
    { apply (Hh c e); [lia | exact Hn]. }
    pose proof Hstep1 as (Hr1 & _ & Hok1 & _ & Hbelow).
    destruct (IH w1 q1 Hok1) as (w' & q' & Hrun & Hstep & Hp' & Hs' & Hg' & Hsc' & Hf').
    + now rewrite Hr1.
    + apply (sameBelow_length c (board w)); [exact Hbelow | lia].
    + exact Hp1.
    + intros j e' Hj Hnj Ht. rewrite Hs1 in Ht. apply (Hh j e'); [lia | | exact Ht].
      rewrite <- (Hbelow j) by lia. exact Hnj.
    + exists w', q'. split; [cbn [Board.updateFrom]; unfold bind; rewrite Hrun1; exact Hrun|].
      split; [eapply stepOK_trans; [eapply stepOK_weaken; [|exact Hstep1]; lia | exact Hstep]|].
      split; [exact Hp'|]. split; [congruence|]. split; [congruence|].
      split; [lra | congruence].
Qed.

(** The turns of the loop from [count] down to the one above [index], none
    of them with a consequence for the player: the pass goes on with the
    turn for [index]. *)
Lemma harmless_turns_above (globalBoard : option Board) (dt : Q) (index count : nat) :
  forall w q,
  boardOK (board w) ->
  randomOK (random w) ->
  (S index <= count <= List.length (nonPlayerEntities (board w)))%nat ->
  player (board w) = Some q ->
  touchesHarmlessOnly (super q) (nonPlayerEntities (board w)) (S index) count ->
  exists w1 q1,
    Board.updateFrom globalBoard dt count w = Board.updateFrom globalBoard dt (S index) w1 /\
    stepOK (S index) w w1 /\
    randomOK (random w1) /\
    player (board w1) = Some q1 /\
    super q1 = super q /\ _gridPosition q1 = _gridPosition q /\ score q1 == score q /\
    filter noEnemy (nonPlayerEntities (board w1)) = filter noEnemy (nonPlayerEntities (board w)).
Proof.
  induction count as [|c IH]; intros w q Hok Hrandom Hcount Hp Hh; [lia|].
  destruct (Nat.eq_dec c index) as [->|Hne].
  - exists w, q. split; [reflexivity|]. split; [now apply stepOK_refl|].
    split; [exact Hrandom|]. split; [exact Hp|]. repeat split; reflexivity.
  - destruct (nth_error (nonPlayerEntities (board w)) c) as [e|] eqn:Hn;
      [|apply nth_error_None in Hn; lia].
    destruct (harmless_turn globalBoard dt c w q e Hok Hrandom Hp Hn)
      as (w0 & q0 & Hrun0 & Hstep0 & Hp0 & Hs0 & Hg0 & Hsc0 & Hf0).
    { apply (Hh c e); [lia | exact Hn]. }
    pose proof Hstep0 as (Hr0 & _ & Hok0 & _ & Hbelow).
    destruct (IH w0 q0 Hok0) as (w1 & q1 & Hrun & Hstep & Hrandom1 & Hp1 & Hs1 & Hg1 & Hsc1 & Hf1).
    + now rewrite Hr0.
    + split; [lia|]. apply (sameBelow_length c (board w)); [exact Hbelow | lia].
    + exact Hp0.
    + intros j e' Hj Hnj Ht. rewrite Hs0 in Ht. apply (Hh j e'); [lia | | exact Ht].
      rewrite <- (Hbelow j) by lia. exact Hnj.
    + exists w1, q1.
      split; [cbn [Board.updateFrom]; unfold bind; rewrite Hrun0; exact Hrun|].
      split; [eapply stepOK_trans; [eapply stepOK_weaken; [|exact Hstep0]; lia | exact Hstep]|].
      split; [exact Hrandom1|]. split; [exact Hp1|]. split; [congruence|].
      split; [congruence|]. split; [lra | congruence].
Qed.

Lemma firstn_same {A : Type} (n : nat) : forall l l' : list A,
  (forall j, (j < n)%nat -> nth_error l' j = nth_error l j) -> firstn n l' = firstn n l.
Proof.
  induction n as [|n IH]; intros l l' H; [reflexivity|].
  pose proof (H 0%nat ltac:(lia)) as H0.
  destruct l as [|a l], l' as [|a' l']; cbn [nth_error] in H0; try discriminate; [reflexivity|].
  injection H0 as ->. cbn [firstn]. f_equal. apply IH.
  intros j Hj. apply (H (S j)). lia.
Qed.

Lemma filter_splice1_same {A : Type} (f : A -> bool) (l l' : list A) (index : nat) :
  (forall j, (j < S index)%nat -> nth_error l' j = nth_error l j) ->
  filter f l' = filter f l ->
  filter f (splice1 l' index) = filter f (splice1 l index).
Proof.
  intros Hsame Hfilter.
  pose proof (firstn_same (S index) l l' Hsame) as Hfirst.
  assert (Hfirst' : firstn index l' = firstn index l).
  { apply firstn_same. intros j Hj. apply Hsame. lia. }
  rewrite <- (firstn_skipn (S index) l'), <- (firstn_skipn (S index) l) in Hfilter.
  rewrite !filter_app, Hfirst in Hfilter. apply app_inv_head in Hfilter.
  now rewrite !splice1_firstn_skipn, !filter_app, Hfirst', Hfilter.
Qed.

(** The turn of the loop for an enemy that the player touches. *)
Lemma enemy_hit_turn (globalBoard : option Board) (dt : Q) (w : World) (index : nat)
    (enemy : Entity) (moveIncrement : Vector) (flag : bool) (p : Player) (d : Dimensions.t) :
  boardOK (board w) ->
  randomOK (random w) ->
  player (board w) = Some p ->
  nth_error (nonPlayerEntities (board w)) index = Some enemy ->
  class enemy = Enemy_ moveIncrement flag ->
  EntityVisual.dimensions (BoardGrid.cellVisualTemplate (_grid (board w))) = Some d ->
  Entity.touches (super p) enemy = Return true ->
  exists w' fresh,
    Board.updateEntity globalBoard dt index w = (Return tt, w') /\
    stepOK index w w' /\
    Player.new (_grid (board w)) = Return fresh /\
    player (board w')
    = Some (mkPlayer (super fresh) (_gridPosition fresh) (score p + hitScoreIncrement enemy)) /\
    filter noEnemy (nonPlayerEntities (board w'))
    = filter noEnemy (nonPlayerEntities (board w)) ++ [bloodOf p (vx moveIncrement) d].
Proof.
  intros Hok Hrandom Hplayer Hat Hclass Ed Htouch.
  pose proof Hok as (Hg & Hroad & Hcols & Hpl & Hstay & Hdims).
  assert (Henemy : Entity.instanceofEnemy enemy = true)
    by (unfold Entity.instanceofEnemy; now rewrite Hclass).
  assert (Hr : removeOnHit enemy = false).
  { unfold enemiesStay in Hstay. rewrite Forall_forall in Hstay.
    apply Hstay; [eapply nth_error_In; eassumption | exact Henemy]. }
  destruct (hit_enemy w index enemy _ _ p d Hg Hroad Hcols Ed Hplayer Hclass Hr)
    as (fresh & Hfresh & Hhit).
  destruct (hit_general w index enemy p Hok Hplayer Hat) as (w1 & Hhit' & _ & Hstep & Hstill).
  rewrite Hhit in Hhit'. injection Hhit' as Hw1.
  pose proof Hstep as (Hr1 & _ & Hok1 & _).
  assert (Hrandom1 : randomOK (random w1)) by (now rewrite Hr1).
  destruct (updateEnemy_general globalBoard dt w1 index enemy Hok1 Hrandom1 (Hstill Henemy) Henemy)
    as (w2 & Hupdate & Hstep2 & Hp2 & _).
  pose proof (updateEnemy_keeps_others globalBoard dt w1 index enemy w2 Hok1 Hrandom1
                (Hstill Henemy) Henemy Hupdate) as Hothers.
  exists w2, fresh. split.
  { rewrite (updateEntity_unfold globalBoard dt index w p enemy Hplayer Hat).
    rewrite touches_returns in Htouch. injection Htouch as ->.
    rewrite Hhit, Hw1, Henemy, Hr. exact Hupdate. }
  split; [eapply stepOK_trans; eassumption|]. split; [exact Hfresh|].
  rewrite Hp2, Hothers, <- Hw1. cbn [board player nonPlayerEntities setPlayer setEntities].
  split; [reflexivity|]. rewrite filter_app. reflexivity.
Qed.

(** C1, as the code has it: a pass of [update] in which the player touches
    the enemy found at [index], and apart from it harmless entities only -
    where it stands for the entities behind the enemy, which the pass
    visits first, and on the start cell for the entities before it -
    returns and leaves as player the one that [new Player] builds, standing
    on the start cell, with the score the player had plus the
    [hitScoreIncrement] of the enemy.  The entities of the board that are no
    enemies are those it had, followed by one blood prop, put where the
    player stood; the enemies are as many as they were. *)
Theorem enemy_hit_respawns_player (globalBoard : option Board) (dt : Q) (w : World)
    (index : nat) (enemy : Entity) (p : Player)
    (Hok : boardOK (board w))
    (Hrandom : randomOK (random w))
    (Hplayer : player (board w) = Some p)
    (Hat : nth_error (nonPlayerEntities (board w)) index = Some enemy)
    (Henemy : Entity.instanceofEnemy enemy = true)
    (Htouch : Entity.touches (super p) enemy = Return true)
    (Hbehind : touchesHarmlessOnly (super p) (nonPlayerEntities (board w)) (S index)
                 (List.length (nonPlayerEntities (board w))))
    (Hbefore : forall fresh, Player.new (_grid (board w)) = Return fresh ->
                 touchesHarmlessOnly (super fresh) (nonPlayerEntities (board w)) 0 index) :
  exists w' fresh q blood,
    Board.update globalBoard dt w = (Return tt, w') /\
    Player.new (_grid (board w)) = Return fresh /\
    _gridPosition fresh = playerStartPosition (_grid (board w)) /\
    centredOnItsCell (_grid (board w)) fresh /\
    player (board w') = Some q /\
    super q = super fresh /\ _gridPosition q = _gridPosition fresh /\
    score q == score p + hitScoreIncrement enemy /\
    isBlood blood = true /\
    Entity.position blood = Player.position p /\
    filter noEnemy (nonPlayerEntities (board w'))
    = filter noEnemy (nonPlayerEntities (board w)) ++ [blood] /\
    countEnemies (board w') = countEnemies (board w).
Proof.
  pose proof Hok as (Hg & Hroad & Hcols & Hpl & Hstay & Hdims).
  destruct Hdims as [Hc|Hd]; [now apply enemy_counted in Hat|].
  destruct (EntityVisual.dimensions (BoardGrid.cellVisualTemplate (_grid (board w))))
    as [d|] eqn:Ed; [|congruence].
  assert (Hclass : exists moveIncrement flag, class enemy = Enemy_ moveIncrement flag).
  { unfold Entity.instanceofEnemy in Henemy. destruct (class enemy); try discriminate; eauto. }
  destruct Hclass as (moveIncrement & flag & Hclass).
  assert (Hindex : (index < List.length (nonPlayerEntities (board w)))%nat)
    by (apply nth_error_Some; congruence).
  destruct (harmless_turns_above globalBoard dt index _ w p Hok Hrandom
              (conj Hindex (Nat.le_refl _)) Hplayer Hbehind)
    as (w1 & q1 & Hrun1 & Hstep1 & Hrandom1 & Hp1 & Hs1 & Hg1 & Hsc1 & Hf1).
  pose proof Hstep1 as (_ & [_ Hgrid1] & Hok1 & Hcount1 & Hbelow1).
  assert (Hat1 : nth_error (nonPlayerEntities (board w1)) index = Some enemy)
    by (rewrite (Hbelow1 index) by lia; exact Hat).
  assert (Ed1 : EntityVisual.dimensions (BoardGrid.cellVisualTemplate (_grid (board w1))) = Some d)
    by (now rewrite Hgrid1).
  assert (Htouch1 : Entity.touches (super q1) enemy = Return true) by (now rewrite Hs1).
  destruct (enemy_hit_turn globalBoard dt w1 index enemy _ _ q1 d Hok1 Hrandom1 Hp1 Hat1 Hclass
              Ed1 Htouch1) as (w2 & fresh & Hrun2 & Hstep2 & Hfresh & Hp2 & Hf2).
  rewrite Hgrid1 in Hfresh.
  pose proof Hstep2 as (Hr2 & [_ Hgrid2] & Hok2 & Hcount2 & Hbelow2).
  assert (Hrandom2 : randomOK (random w2)) by (now rewrite Hr2).
  assert (Hlength2 : (index <= List.length (nonPlayerEntities (board w2)))%nat).
  { apply (sameBelow_length index (board w1)); [exact Hbelow2|].
    assert (index < List.length (nonPlayerEntities (board w1)))%nat
      by (apply nth_error_Some; congruence).
    lia. }
  set (q2 := mkPlayer (super fresh) (_gridPosition fresh) (score q1 + hitScoreIncrement enemy))
    in *.
  assert (Hharmless2 : touchesHarmlessOnly (super q2) (nonPlayerEntities (board w2)) 0 index).
  { intros j e Hj Hnj Ht. cbn [q2 super] in Ht. apply (Hbefore fresh Hfresh j e Hj); [|exact Ht].
    rewrite <- (Hbelow1 j) by lia. rewrite <- (Hbelow2 j) by lia. exact Hnj. }
  destruct (harmless_turns globalBoard dt index w2 q2 Hok2 Hrandom2 Hlength2 Hp2 Hharmless2)
    as (w' & q & Hrun3 & Hstep3 & Hp3 & Hs3 & Hg3 & Hsc3 & Hf3).
  destruct (Player_new_returns _ Hg Hroad Hcols) as (fresh' & Hfresh' & Hstart & _ & Hcentre).
  rewrite Hfresh in Hfresh'. injection Hfresh' as <-.
  pose proof Hstep3 as (_ & _ & _ & Hcount3 & _).
  exists w', fresh, q, (bloodOf p (vx moveIncrement) d).
  split.
  { change (Board.updateFrom globalBoard dt (List.length (nonPlayerEntities (board w))) w
            = (Return tt, w')).
    rewrite Hrun1. cbn [Board.updateFrom]. unfold bind. rewrite Hrun2. exact Hrun3. }
  split; [exact Hfresh|]. split; [exact Hstart|]. split; [exact Hcentre|].
  split; [exact Hp3|]. split; [exact Hs3|]. split; [exact Hg3|].
  split; [cbn [q2 score] in Hsc3; lra|].
  split; [reflexivity|].
  split; [unfold bloodOf, Entity.position, Point.clone; cbn [_position];
          now destruct (Player.position p)|].
  split; [|congruence].
  rewrite Hf3, Hf2, Hf1. do 2 f_equal. unfold bloodOf, Player.position. now rewrite Hs1.
Qed.

(** The turn of the loop for a diamond that the player touches. *)
Lemma diamond_hit_turn (globalBoard : option Board) (dt : Q) (w : World) (index : nat)
    (p : Player) (position : Point.t) (increment : Q) :
  boardOK (board w) ->
  player (board w) = Some p ->
  nth_error (nonPlayerEntities (board w)) index = Some (Diamond.new position increment) ->
  Entity.touches (super p) (Diamond.new position increment) = Return true ->
  exists w',
    Board.updateEntity globalBoard dt index w = (Return tt, w') /\
    stepOK index w w' /\
    player (board w') = Some (scored p increment) /\
    nonPlayerEntities (board w') = splice1 (nonPlayerEntities (board w)) index.
Proof.
  intros Hok Hplayer Hat Htouch.
  exists (afterHit w p index (Diamond.new position increment)).
  split.
  { rewrite (updateEntity_unfold globalBoard dt index w p _ Hplayer Hat).
    rewrite touches_returns in Htouch. injection Htouch as ->.
    rewrite (hit_other w index (Diamond.new position increment) p Hplayer eq_refl).
    reflexivity. }
  destruct (stepOK_afterHit w p index _ Hok Hat eq_refl) as (Hstep & _ & Hp).
  split; [exact Hstep|]. split; [exact Hp | reflexivity].
Qed.

(** C2, as the code has it: a pass of [update] in which the player touches
    the diamond found at [index], and apart from it harmless entities only,
    returns; it has added the [hitScoreIncrement] of the diamond to the
    score of the player, who stands where it stood, and has removed the
    diamond: the entities that are no enemies are those before it and those
    after it, in their order, and the enemies are as many as they were. *)
Theorem diamond_hit_collected (globalBoard : option Board) (dt : Q) (w : World)
    (index : nat) (p : Player) (position : Point.t) (increment : Q)
    (Hok : boardOK (board w))
    (Hrandom : randomOK (random w))
    (Hplayer : player (board w) = Some p)
    (Hat : nth_error (nonPlayerEntities (board w)) index = Some (Diamond.new position increment))
    (Htouch : Entity.touches (super p) (Diamond.new position increment) = Return true)
    (Hbehind : touchesHarmlessOnly (super p) (nonPlayerEntities (board w)) (S index)
                 (List.length (nonPlayerEntities (board w))))
    (Hbefore : touchesHarmlessOnly (super p) (nonPlayerEntities (board w)) 0 index) :
  exists w' q,
    Board.update globalBoard dt w = (Return tt, w') /\
    player (board w') = Some q /\
    super q = super p /\ _gridPosition q = _gridPosition p /\
    score q == score p + increment /\
    filter noEnemy (nonPlayerEntities (board w'))
    = filter noEnemy (firstn index (nonPlayerEntities (board w)) ++
                      skipn (S index) (nonPlayerEntities (board w))) /\
    countEnemies (board w') = countEnemies (board w) /\
    sameSetup (board w) (board w').
Proof.
  assert (Hindex : (index < List.length (nonPlayerEntities (board w)))%nat)
    by (apply nth_error_Some; congruence).
  destruct (harmless_turns_above globalBoard dt index _ w p Hok Hrandom
              (conj Hindex (Nat.le_refl _)) Hplayer Hbehind)
    as (w1 & q1 & Hrun1 & Hstep1 & Hrandom1 & Hp1 & Hs1 & Hg1 & Hsc1 & Hf1).
  pose proof Hstep1 as (_ & [Hn1 Hgrid1] & Hok1 & Hcount1 & Hbelow1).
  assert (Hat1 : nth_error (nonPlayerEntities (board w1)) index
                 = Some (Diamond.new position increment))
    by (rewrite (Hbelow1 index) by lia; exact Hat).
  assert (Htouch1 : Entity.touches (super q1) (Diamond.new position increment) = Return true)
    by (now rewrite Hs1).
  destruct (diamond_hit_turn globalBoard dt w1 index q1 position increment Hok1 Hp1 Hat1 Htouch1)
    as (w2 & Hrun2 & Hstep2 & Hp2 & He2).
  pose proof Hstep2 as (Hr2 & [Hn2 Hgrid2] & Hok2 & Hcount2 & Hbelow2).
  assert (Hrandom2 : randomOK (random w2)) by (now rewrite Hr2).
  assert (Hlength2 : (index <= List.length (nonPlayerEntities (board w2)))%nat).
  { apply (sameBelow_length index (board w1)); [exact Hbelow2|].
    assert (index < List.length (nonPlayerEntities (board w1)))%nat
      by (apply nth_error_Some; congruence).
    lia. }
  assert (Hharmless2 : touchesHarmlessOnly (super (scored q1 increment))
                         (nonPlayerEntities (board w2)) 0 index).
  { intros j e Hj Hnj Ht. cbn [scored super] in Ht. rewrite Hs1 in Ht.
    apply (Hbefore j e Hj); [|exact Ht].
    rewrite <- (Hbelow1 j) by lia. rewrite <- (Hbelow2 j) by lia. exact Hnj. }
  destruct (harmless_turns globalBoard dt index w2 (scored q1 increment) Hok2 Hrandom2 Hlength2
              Hp2 Hharmless2)
    as (w' & q & Hrun3 & Hstep3 & Hp3 & Hs3 & Hg3 & Hsc3 & Hf3).
  pose proof Hstep3 as (_ & [Hn3 Hgrid3] & _ & Hcount3 & _).
  exists w', q. split.
  { change (Board.updateFrom globalBoard dt (List.length (nonPlayerEntities (board w))) w
            = (Return tt, w')).
    rewrite Hrun1. cbn [Board.updateFrom]. unfold bind. rewrite Hrun2. exact Hrun3. }
  split; [exact Hp3|]. cbn [scored super _gridPosition score] in Hs3, Hg3, Hsc3.
  split; [congruence|]. split; [congruence|]. split; [lra|].
  split; [|split; [congruence | split; congruence]].
  rewrite Hf3, He2, <- splice1_firstn_skipn.
  apply filter_splice1_same; [intros j Hj; apply Hbelow1; lia | exact Hf1].
Qed.

(** ** Where an enemy is spawned *)

(** The enemy that [spawnEnemy] creates and puts on the cell at [row] and
    column 0, before it is moved outwards. *)
Lemma spawn_on_first_cell (g : BoardGrid.t) (enemy0 enemy1 : Entity) (row : Z) :
  constructed g ->
  BoardGrid.hasCell g row 0 = true ->
  EntityVisual.occupiedArea (_visual enemy0) = Area.mk (Point.mk 2 102) (Dimensions.mk 96 42) ->
  Entity.moveToCell g enemy0 row 0 = Return enemy1 ->
  enemy1 = setPosition enemy0 (Entity.position enemy1) /\
  Point.x (Entity.position enemy1) == 1 # 2 /\
  Point.y (Entity.position enemy1)
  == inject_Z row *
     Area.height (EntityVisual.occupiedArea (BoardGrid._board_cellVisualTemplate g)) - (59 # 2).
Proof.
  intros Hg Hcell Hocc Hmove.
  destruct (getCell_hasCell g _ _ Hg Hcell) as (type & z & _ & Hget).
  destruct (moveToCell_centers g enemy0 _ _ _ Hget) as (e' & Hmove' & Hfields & [Hx Hy]).
  rewrite Hmove in Hmove'. injection Hmove' as <-.
  split; [exact Hfields|].
  rewrite Hfields in Hx, Hy.
  unfold Area.center, Entity.occupiedArea, Area.offset, Point.offset, Dimensions.clone,
    cellOf, BoardGridCell.placeInGrid, BoardGridCell.new, BoardGridCell.calculateCellPosition,
    setPosition, setClass in Hx, Hy.
  cbn [_visual _position class Area.position Area.dimensions Point.x Point.y
       Dimensions.width Dimensions.height EntityVisual.occupiedArea] in Hx, Hy.
  rewrite Hocc in Hx, Hy.
  cbn [Area.position Area.dimensions Point.x Point.y Dimensions.width Dimensions.height] in Hx, Hy.
  unfold Area.height. change (inject_Z 0) with 0 in Hx.
  assert (E1 : 96 / 2 == 48) by reflexivity.
  assert (E2 : 101 / 2 == 101 # 2) by reflexivity.
  assert (E3 : 42 / 2 == 21) by reflexivity.
  assert (E4 : 83 / 2 == 83 # 2) by reflexivity.
  rewrite E1, E2 in Hx. rewrite E3, E4 in Hy.
  split; lra.
Qed.

(** Moved outwards, an enemy that goes right keeps its row and stands 98
    pixels further left: the width of its sprite less the margin right of
    its occupied area. *)
Lemma moveOutside_right (enemy1 enemy : Entity) (d : Dimensions.t) :
  EntityVisual.dimensions (_visual enemy1) = Some d ->
  EntityVisual.occupiedArea (_visual enemy1) = Area.mk (Point.mk 2 102) (Dimensions.mk 96 42) ->
  Board.moveOutside 1 enemy1 = Return enemy ->
  enemy = setPosition enemy1 (Entity.position enemy) /\
  Point.x (Entity.position enemy) == Point.x (Entity.position enemy1) - 98 /\
  Point.y (Entity.position enemy) == Point.y (Entity.position enemy1).
Proof.
  intros Hd Hocc Hout. pose proof (moveOutside_fields _ _ _ Hout) as Hfields.
  split; [exact Hfields|].
  unfold Board.moveOutside, Entity.area in Hout. rewrite Hd in Hout.
  cbn [Area.new bindC Z.eqb Pos.eqb] in Hout. injection Hout as <-.
  unfold Entity.occupiedArea, Entity.position, Area.topRight, Area.width, Area.offset,
    Point.offset, Dimensions.clone, setPosition.
  rewrite Hocc.
  cbn [_position _visual Area.position Area.dimensions Point.x Point.y
       Dimensions.width Dimensions.height].
  split; ring.
Qed.

(** C6, as the code has it: [spawnEnemy] with direction right returns and
    appends an enemy the occupied area of which reaches from 95.5 pixels
    left of the grid to half a pixel inside it.  On a board with the cell
    geometry of the engine that half pixel lies on the occupied area of the
    grid: [someOnTheBoard] is true as soon as the enemy is spawned. *)
Theorem spawn_right_overlaps_left_edge (w : World) (d : Dimensions.t)
    (Hg : constructed (_grid (board w)))
    (Hroad : In road (BoardGrid._rowTypes (_grid (board w))))
    (Hcols : (1 <= BoardGrid.numberOfColumns (_grid (board w)))%nat)
    (Hd : EntityVisual.dimensions (BoardGrid.cellVisualTemplate (_grid (board w))) = Some d)
    (Hrandom : randomOK (random w))
    (Hright : spawnDirection w = 1%Z) :
  exists enemy,
    Board.spawnEnemy w = (Return tt, spawned w enemy) /\
    Entity.instanceofEnemy enemy = true /\
    Area.left (Entity.occupiedArea enemy) == - (191 # 2) /\
    Area.right (Entity.occupiedArea enemy) == 1 # 2 /\
    (EntityVisual.occupiedArea (BoardGrid._board_cellVisualTemplate (_grid (board w)))
     = engineOccupiedArea ->
     EntityVisual.occupiedArea (BoardGrid._cellVisualTemplate (_grid (board w)))
     = engineOccupiedArea ->
     Entity.someOnTheBoard (_grid (board w)) enemy = Return true).
Proof.
  set (g := _grid (board w)) in *.
  destruct (spawnEnemy_returns w d Hg Hroad Hcols Hd Hrandom)
    as (row & speed & enemy0 & enemy1 & enemy & Hroadrow & Hrow0 & Hnew & Hmove & Hout & Hspawn).
  fold g in Hroadrow, Hnew, Hmove. rewrite Hright in Hmove, Hout.
  change (spawnColumn g 1) with 0%Z in Hmove.
  unfold Enemy.new in Hnew. rewrite Hd in Hnew. injection Hnew as Hnew.
  assert (Hrow : (0 <= row < Z.of_nat (BoardGrid.numberOfRows g))%Z).
  { split; [exact Hrow0|]. unfold BoardGrid.numberOfRows.
    assert (Z.to_nat row < List.length (BoardGrid._rowTypes g))%nat; [|lia].
    apply nth_error_Some. now rewrite Hroadrow. }
  assert (Hcell : BoardGrid.hasCell g row 0 = true) by (apply hasCell_iff; lia).
  destruct (spawn_on_first_cell g enemy0 enemy1 row Hg Hcell) as (Hf1 & Hx1 & Hy1);
    [now rewrite <- Hnew | exact Hmove |].
  destruct (moveOutside_right enemy1 enemy (Dimensions.clone d)) as (Hf & Hx & Hy);
    [rewrite Hf1, <- Hnew; reflexivity | rewrite Hf1, <- Hnew; reflexivity | exact Hout |].
  assert (Hocc : Entity.occupiedArea enemy
                 = Area.mk (Point.mk (2 + Point.x (Entity.position enemy))
                                     (102 + Point.y (Entity.position enemy)))
                           (Dimensions.mk 96 42)).
  { rewrite Hf, Hf1, <- Hnew. reflexivity. }
  exists enemy. split; [exact Hspawn|].
  split; [rewrite Hf, Hf1, <- Hnew; reflexivity|].
  rewrite Hocc. unfold Area.left, Area.right, Area.topLeft, Area.topRight, Point.clone.
  cbn [Area.position Area.dimensions Point.x Point.y Dimensions.width].
  split; [lra|]. split; [lra|].
  intros Hbt Ht. unfold Entity.someOnTheBoard. cbn [Area.intersectsWith]. f_equal.
  unfold Area.intersectsArea. apply orb_true_iff. right.
  cbn [Area.corners existsb]. apply orb_true_iff. right. apply orb_true_iff. left.
  apply containsPoint_iff. rewrite Hocc.
  unfold BoardGrid.occupiedArea. unfold constructed in Hg. rewrite Hg.
  cbn [BoardGrid._occupiedArea BoardGrid.new]. fold g. rewrite Ht.
  rewrite Hbt in Hy1.
  unfold Area.left, Area.right, Area.top, Area.bottom, Area.topLeft, Area.topRight,
    Area.bottomLeft, Area.width, Area.height, Point.clone, engineOccupiedArea in *.
  cbn [Area.position Area.dimensions Point.x Point.y Dimensions.width Dimensions.height] in *.
  assert (Hc1 : 1 <= inject_Z (Z.of_nat (BoardGrid._numberOfColumns g))).
  { rewrite <- (Zle_Qle 1). unfold BoardGrid.numberOfColumns in Hcols. lia. }
  assert (Hr0 : 0 <= inject_Z row) by (rewrite <- (Zle_Qle 0); lia).
  assert (Hr1 : inject_Z row + 1 <= inject_Z (Z.of_nat (List.length (BoardGrid._rowTypes g)))).
  { change 1 with (inject_Z 1). rewrite <- inject_Z_plus, <- Zle_Qle.
    unfold BoardGrid.numberOfRows in Hrow. lia. }
  lra.
Qed.

(** C6 fails as stated: on a board with the cells of the engine, the enemy
    that [spawnEnemy] appends with direction right is on the board at once,
    [someOnTheBoard] is true. *)
Lemma spawn_right_is_on_the_board :
  spawnDirection quietWorld = 1%Z /\
  fst (Board.spawnEnemy quietWorld) = Return tt /\
  exists enemy,
    nonPlayerEntities (board (snd (Board.spawnEnemy quietWorld)))
    = nonPlayerEntities (board quietWorld) ++ [enemy] /\
    Entity.instanceofEnemy enemy = true /\
    Entity.someOnTheBoard (_grid (board quietWorld)) enemy = Return true.
Proof.
  split; [reflexivity|]. split; [vm_compute; reflexivity|].
  eexists. split; [vm_compute; reflexivity|]. split; vm_compute; reflexivity.
Qed.

(** ** The properties at work on a small board *)

Lemma halves_ok : randomOK halves.
Proof. intros n. unfold halves. split; [discriminate | reflexivity]. Qed.

Lemma smallBoard_ok (others : list Entity) :
  enemiesStay others -> boardOK (smallBoard others).
Proof.
  intros Hothers. unfold boardOK. cbn [smallBoard _grid player nonPlayerEntities].
  split; [reflexivity|]. split; [cbn; tauto|]. split; [cbn; lia|]. split; [discriminate|].
  split; [|right; discriminate].
  apply enemiesStay_app; [|exact Hothers].
  unfold enemiesStay. apply Forall_forall. intros c Hc He.
  pose proof (newRows_cells engineTemplate 2 [water; road; grass] 0 0) as Hcells.
  rewrite Forall_forall in Hcells. specialize (Hcells c Hc).
  unfold Entity.instanceofBoardGridCell in Hcells. unfold Entity.instanceofEnemy in He.
  destruct (class c); discriminate.
Qed.

(** The entities of a board of [smallGrid] below index 6 are its cells:
    which of them the player touches, and that those are harmless, is
    computed cell by cell. *)
Ltac cell_by_cell j Hj Hn Ht :=
  do 6 (destruct j as [|j];
        [vm_compute in Hn; injection Hn as <-; vm_compute in Ht;
         first [discriminate Ht | repeat split; reflexivity]|]);
  lia.

Lemma enemy_hit_respawns_player_witness :
  boardOK (board enemyWorld) /\
  Entity.touches (super smallGridPlayer) touchingEnemy = Return true /\
  exists w' q,
    Board.update None (1 # 10) enemyWorld = (Return tt, w') /\
    player (board w') = Some q /\
    _gridPosition q = GridPosition.mk 2 1 /\
    score q == score smallGridPlayer + -2.
Proof.
  assert (Hok : boardOK (board enemyWorld)).
  { apply smallBoard_ok. constructor; [intros _; reflexivity | constructor]. }
  assert (Htouch : Entity.touches (super smallGridPlayer) touchingEnemy = Return true)
    by reflexivity.
  assert (Hlength : List.length (nonPlayerEntities (board enemyWorld)) = 7%nat) by reflexivity.
  assert (Hbehind : touchesHarmlessOnly (super smallGridPlayer)
                      (nonPlayerEntities (board enemyWorld)) 7
                      (List.length (nonPlayerEntities (board enemyWorld)))).
  { intros j e Hj. rewrite Hlength in Hj. lia. }
  assert (Hbefore : forall fresh, Player.new (_grid (board enemyWorld)) = Return fresh ->
            touchesHarmlessOnly (super fresh) (nonPlayerEntities (board enemyWorld)) 0 6).
  { intros fresh Hfresh j e Hj Hn Ht. vm_compute in Hfresh. injection Hfresh as <-.
    cell_by_cell j Hj Hn Ht. }
  split; [exact Hok|]. split; [exact Htouch|].
  destruct (enemy_hit_respawns_player None (1 # 10) enemyWorld 6 touchingEnemy smallGridPlayer
              Hok halves_ok eq_refl eq_refl eq_refl Htouch Hbehind Hbefore)
    as (w' & fresh & q & blood & Hrun & Hfresh & Hstart & _ & Hplayer & _ & Hgrid & Hscore & _).
  exists w', q. split; [exact Hrun|]. split; [exact Hplayer|].
  split; [rewrite Hgrid, Hstart; reflexivity | exact Hscore].
Defined.

(** C1 fails as stated: on [twoEnemiesWorld] the player touches one enemy,
    is respawned on the start cell and there is hit by the other enemy in
    the same pass.  After [update] its score is the score it had less 4,
    not less 2, and the board holds two blood props. *)
Lemma two_enemies_hit_in_one_pass :
  boardOK (board twoEnemiesWorld) /\
  nth_error (nonPlayerEntities (board twoEnemiesWorld)) 7 = Some touchingEnemy /\
  Entity.touches (super smallGridPlayer) touchingEnemy = Return true /\
  Entity.touches (super smallGridPlayer) enemyOverStart = Return false /\
  exists w' q,
    Board.update None (1 # 10) twoEnemiesWorld = (Return tt, w') /\
    player (board w') = Some q /\
    score q == score smallGridPlayer + -4 /\
    ~ score q == score smallGridPlayer + hitScoreIncrement touchingEnemy /\
    List.length (filter isBlood (nonPlayerEntities (board twoEnemiesWorld))) = 0%nat /\
    List.length (filter isBlood (nonPlayerEntities (board w'))) = 2%nat.
Proof.
  split.
  { apply smallBoard_ok.
    constructor; [intros _; reflexivity|]. constructor; [intros _; reflexivity | constructor]. }
  split; [reflexivity|]. split; [reflexivity|]. split; [reflexivity|].
  eexists _, _. split; [vm_compute; reflexivity|]. split; [reflexivity|].
  split; [reflexivity|]. split; [intros H; vm_compute in H; discriminate H|].
  split; reflexivity.
Qed.

Lemma diamond_hit_collected_witness :
  boardOK (board diamondWorld) /\
  Entity.touches (super smallGridPlayer) touchingDiamond = Return true /\
  exists w' q,
    Board.update None (1 # 10) diamondWorld = (Return tt, w') /\
    player (board w') = Some q /\
    score q == score smallGridPlayer + 1 /\
    filter noEnemy (nonPlayerEntities (board w')) = BoardGrid.cells smallGrid.
Proof.
  assert (Hok : boardOK (board diamondWorld)).
  { apply smallBoard_ok. constructor; [discriminate | constructor]. }
  assert (Htouch : Entity.touches (super smallGridPlayer) touchingDiamond = Return true)
    by reflexivity.
  assert (Hlength : List.length (nonPlayerEntities (board diamondWorld)) = 7%nat)
    by reflexivity.
  assert (Hbehind : touchesHarmlessOnly (super smallGridPlayer)
                      (nonPlayerEntities (board diamondWorld)) 7
                      (List.length (nonPlayerEntities (board diamondWorld)))).
  { intros j e Hj. rewrite Hlength in Hj. lia. }
  assert (Hbefore : touchesHarmlessOnly (super smallGridPlayer)
                      (nonPlayerEntities (board diamondWorld)) 0 6).
  { intros j e Hj Hn Ht. cell_by_cell j Hj Hn Ht. }
  split; [exact Hok|]. split; [exact Htouch|].
  destruct (diamond_hit_collected None (1 # 10) diamondWorld 6 smallGridPlayer
              (Point.mk 101 (91 # 2)) 1 Hok halves_ok eq_refl eq_refl Htouch Hbehind Hbefore)
    as (w' & q & Hrun & Hplayer & _ & _ & Hscore & Hentities & _).
  exists w', q. split; [exact Hrun|]. split; [exact Hplayer|]. split; [exact Hscore|].
  rewrite Hentities. reflexivity.
Defined.

(** C2 fails as stated: on [diamondAndEnemyWorld] the player touches the
    diamond, and the enemy behind it in the array, which the pass visits
    first.  The enemy sends the player to the start cell; when the turn of
    the diamond comes the player does not touch it any more.  After
    [update] the diamond is where it was and the score is the score the
    player had less 2. *)
Lemma diamond_left_when_an_enemy_hits_first :
  boardOK (board diamondAndEnemyWorld) /\
  nth_error (nonPlayerEntities (board diamondAndEnemyWorld)) 6 = Some touchingDiamond /\
  Entity.touches (super smallGridPlayer) touchingDiamond = Return true /\
  exists w' q,
    Board.update None (1 # 10) diamondAndEnemyWorld = (Return tt, w') /\
    player (board w') = Some q /\
    score q == score smallGridPlayer + -2 /\
    ~ score q == score smallGridPlayer + hitScoreIncrement touchingDiamond /\
    nth_error (nonPlayerEntities (board w')) 6 = Some touchingDiamond.
Proof.
  split.
  { apply smallBoard_ok.
    constructor; [discriminate|]. constructor; [intros _; reflexivity | constructor]. }
  split; [reflexivity|]. split; [reflexivity|].
  eexists _, _. split; [vm_compute; reflexivity|]. split; [reflexivity|].
  split; [reflexivity|]. split; [intros H; vm_compute in H; discriminate H|].
  reflexivity.
Qed.

Lemma spawn_right_overlaps_left_edge_witness :
  spawnDirection quietWorld = 1%Z /\
  exists enemy,
    Board.spawnEnemy quietWorld = (Return tt, spawned quietWorld enemy) /\
    Area.right (Entity.occupiedArea enemy) == 1 # 2 /\
    Entity.someOnTheBoard smallGrid enemy = Return true.
Proof.
  assert (Hright : spawnDirection quietWorld = 1%Z) by reflexivity.
  split; [exact Hright|].
  destruct (spawn_right_overlaps_left_edge quietWorld (Dimensions.mk 101 171))
    as (enemy & Hspawn & _ & _ & Hreach & Hon);
    [reflexivity | cbn; tauto | cbn; lia | reflexivity | exact halves_ok | exact Hright |].
  exists enemy. split; [exact Hspawn|]. split; [exact Hreach|].
  apply Hon; reflexivity.
Defined.

Lemma enemy_count_invariant_witness :
  exists w,
    Board.new 2 [water; road; grass] 2 0 engineRange engineTemplate engineCanvas 0 halves 0
    = Some (Return tt, w) /\
    countEnemies (board w) = 2%nat /\
    exists w',
      Engine.main None [1 # 10; 1 # 10] w = (Return tt, w') /\
      countEnemies (board w') = 2%nat.
Proof.
  assert (Hroad : In road [water; road; grass]) by (cbn; tauto).
  destruct (Board_new_returns 2 [water; road; grass] 2 engineRange engineTemplate
              (Dimensions.mk 101 171) engineCanvas 0 halves 0 Hroad)
    as [w Hnew]; [lia | reflexivity | exact halves_ok |].
  exists w. split; [exact Hnew|].
  destruct (enemy_count_invariant 2 [water; road; grass] 2 0 engineRange engineTemplate
              engineCanvas 0 halves 0 w None [1 # 10; 1 # 10] Hroad halves_ok Hnew)
    as (Hcount & _ & w' & Hrun & _ & Hcount' & _).
  split; [exact Hcount|]. exists w'. split; [exact Hrun | exact Hcount'].
Defined.

(** The scenario of the specification runs as it says: the player starts on
    row 2, reaches the water of row 0 and is put back on row 2, with a
    score of 2. *)
Example crossing_reaches_water_and_respawns :
  match crossing with
  | Some (Return _, w) =>
      match player (board w) with
      | Some p => _gridPosition p = GridPosition.mk 2 0 /\ score p == 2
      | None => False
      end
  | _ => False
  end.
Proof. vm_compute. split; reflexivity. Qed.

(** The constructor places a diamond when the sample drawn names a road
    cell, and one turn of the loop suffices. *)
Example Board_new_places_a_diamond :
  match Board.new 2 [water; road; grass] 1 1 engineRange engineTemplate engineCanvas 1 halves 0 with
  | Some (Return _, w) =>
      List.length (filter Entity.instanceofDiamond (nonPlayerEntities (board w))) = 1%nat /\
      countEnemies (board w) = 1%nat
  | _ => False
  end.
Proof. vm_compute. split; reflexivity. Qed.

(** A player on a cell of the grid is on a cell of the grid after
    [moveInGrid], whatever the direction asked for. *)
Lemma moveInGrid_stays_in_grid (g : BoardGrid.t) (p : Player) (direction : string) :
  constructed g ->
  BoardGrid.hasCell g (GridPosition.row (_gridPosition p))
                      (GridPosition.column (_gridPosition p)) = true ->
  let p' := snd (Player.moveInGrid g p direction) in
  BoardGrid.hasCell g (GridPosition.row (_gridPosition p'))
                      (GridPosition.column (_gridPosition p')) = true.
Proof.
  intros Hg Hin.
  destruct (Player.canMoveInGrid g p direction) eqn:Hcan.
  - destruct (Player.stepInGrid (_gridPosition p) direction) as [target|] eqn:Hstep.
    + rewrite (canMoveInGrid_step g p direction target Hstep) in Hcan.
      destruct (moveInGrid_allowed g p direction target Hg Hstep Hcan) as (p' & Hmove & Hto & _).
      rewrite Hmove. cbn [snd]. rewrite Hto. exact Hcan.
    + unfold Player.canMoveInGrid in Hcan. unfold Player.stepInGrid in Hstep.
      repeat (destruct (String.eqb direction _); [discriminate|]). discriminate.
  - rewrite (moveInGrid_refused g p direction Hcan). exact Hin.
Qed.

(** * Further properties of the code *)

(** ** Containment and intersection of areas *)

Lemma edges (a : Area.t) :
  Area.right a = Area.left a + Area.width a /\ Area.bottom a = Area.top a + Area.height a.
Proof. split; reflexivity. Qed.

Lemma corner_contained (a : Area.t) (x y : Q) :
  Area.containsPoint a (Point.mk x y) = true <->
  (Area.left a <= x <= Area.right a) /\ (Area.top a <= y <= Area.bottom a).
Proof. apply containsPoint_iff. Qed.

Lemma containsPoint_false (a : Area.t) (x y : Q) :
  x < Area.left a \/ Area.right a < x \/ y < Area.top a \/ Area.bottom a < y ->
  Area.containsPoint a (Point.mk x y) = false.
Proof.
  intros H. destruct (Area.containsPoint a (Point.mk x y)) eqn:E; [|reflexivity].
  apply corner_contained in E. lra.
Qed.

Lemma corners_of (b : Area.t) :
  Area.corners b
  = [Point.mk (Area.left b) (Area.top b); Point.mk (Area.right b) (Area.top b);
     Point.mk (Area.left b) (Area.bottom b); Point.mk (Area.right b) (Area.bottom b)].
Proof. reflexivity. Qed.

(** X1: [a.contains(b)], for an area [b] of non negative width and height,
    is true exactly when [b] lies inside [a], the edges included. *)
Theorem contains_area_inside (a b : Area.t) (Hb : Geometry.nonNegative b) :
  exists r : bool,
    Area.contains a (Area.IsArea b) = Return r /\ (r = true <-> Geometry.inside b a).
Proof.
  eexists. split; [reflexivity|].
  rewrite corners_of. cbn [forallb]. rewrite !andb_true_iff, !corner_contained.
  unfold Geometry.inside. destruct Hb as [Hw Hh].
  pose proof (edges b) as [Er Eb]. rewrite Er, Eb in *. intuition lra.
Qed.

Lemma contains_area_inside_witness :
  Geometry.nonNegative Geometry.unitSquare /\
  exists r : bool,
    Area.contains Geometry.bigSquare (Area.IsArea Geometry.unitSquare) = Return r /\
    (r = true <-> Geometry.inside Geometry.unitSquare Geometry.bigSquare).
Proof.
  assert (H : Geometry.nonNegative Geometry.unitSquare) by (split; discriminate).
  split; [exact H | exact (contains_area_inside Geometry.bigSquare Geometry.unitSquare H)].
Defined.

(** X2: an area that [a] contains intersects [a], whichever of the two is
    asked. *)
Theorem contained_intersects (a b : Area.t)
    (H : Area.contains a (Area.IsArea b) = Return true) :
  Area.intersectsWith a (Area.IsArea b) = Return true /\
  Area.intersectsWith b (Area.IsArea a) = Return true.
Proof.
  cbn [Area.contains] in H. injection H as H.
  assert (Hsome : existsb (fun corner => Area.containsPoint a corner) (Area.corners b) = true).
  { cbn [Area.corners forallb existsb] in *. apply andb_true_iff in H. destruct H as [-> _].
    reflexivity. }
  cbn [Area.intersectsWith]. unfold Area.intersectsArea. rewrite Hsome.
  split; [reflexivity | now rewrite orb_true_r].
Qed.

Lemma contained_intersects_witness :
  Area.contains Geometry.bigSquare (Area.IsArea Geometry.unitSquare) = Return true /\
  Area.intersectsWith Geometry.unitSquare (Area.IsArea Geometry.bigSquare) = Return true.
Proof.
  assert (H : Area.contains Geometry.bigSquare (Area.IsArea Geometry.unitSquare) = Return true)
    by reflexivity.
  split; [exact H | exact (proj2 (contained_intersects _ _ H))].
Defined.

Lemma intersectsArea_overlap (a b : Area.t) :
  Geometry.nonNegative a -> Geometry.nonNegative b ->
  Area.intersectsArea a b = true -> Geometry.overlap a b.
Proof.
  intros [Hwa Hha] [Hwb Hhb]. unfold Area.intersectsArea, Geometry.overlap.
  rewrite !corners_of. cbn [existsb]. rewrite !orb_true_iff, !corner_contained.
  pose proof (edges a) as [Era Eba]. pose proof (edges b) as [Erb Ebb].
  rewrite Era, Eba, Erb, Ebb in *. intuition lra.
Qed.

Lemma fits_corner_inside (a b : Area.t) :
  Geometry.nonNegative a -> Geometry.fitsIn a b -> Geometry.overlap a b ->
  existsb (fun corner => Area.containsPoint b corner) (Area.corners a) = true.
Proof.
  intros [Hwa Hha] [Hw Hh] (H1 & H2 & H3 & H4).
  rewrite corners_of. cbn [existsb]. rewrite !orb_true_iff, !corner_contained.
  pose proof (edges a) as [Era Eba]. pose proof (edges b) as [Erb Ebb].
  rewrite Era, Eba, Erb, Ebb in *.
  destruct (Qlt_le_dec (Area.left a) (Area.left b)), (Qlt_le_dec (Area.top a) (Area.top b)).
  - right; right; right. lra.
  - right; left. lra.
  - right; right; left. lra.
  - left. lra.
Qed.

Lemma overlap_sym (a b : Area.t) : Geometry.overlap a b -> Geometry.overlap b a.
Proof. unfold Geometry.overlap. tauto. Qed.

(** X3: between two areas of non negative width and height, one of which
    is no wider and no higher than the other, [intersectsWith] is true
    exactly when the two areas share a point. *)
Theorem intersects_when_one_fits (a b : Area.t)
    (Ha : Geometry.nonNegative a) (Hb : Geometry.nonNegative b)
    (Hfit : Geometry.fitsIn a b \/ Geometry.fitsIn b a) :
  exists r : bool,
    Area.intersectsWith a (Area.IsArea b) = Return r /\ (r = true <-> Geometry.overlap a b).
Proof.
  eexists. split; [reflexivity|]. split; [now apply intersectsArea_overlap|].
  intros Ho. unfold Area.intersectsArea. apply orb_true_iff.
  destruct Hfit as [Hfit|Hfit].
  - right. now apply fits_corner_inside.
  - left. apply fits_corner_inside; [assumption | assumption | now apply overlap_sym].
Qed.

Lemma intersects_when_one_fits_witness :
  Geometry.nonNegative Geometry.unitSquare /\ Geometry.nonNegative Geometry.flatBar /\
  exists r : bool,
    Area.intersectsWith Geometry.unitSquare (Area.IsArea Geometry.flatBar) = Return r /\
    (r = true <-> Geometry.overlap Geometry.unitSquare Geometry.flatBar).
Proof.
  assert (Ha : Geometry.nonNegative Geometry.unitSquare) by (split; discriminate).
  assert (Hb : Geometry.nonNegative Geometry.flatBar) by (split; discriminate).
  assert (Hfit : Geometry.fitsIn Geometry.unitSquare Geometry.flatBar) by (split; discriminate).
  split; [exact Ha|]. split; [exact Hb|].
  exact (intersects_when_one_fits _ _ Ha Hb (or_introl Hfit)).
Defined.

(** X4: two areas that form a cross share points, and [intersectsWith] is
    false on them: no corner of the one lies in the other. *)
Theorem cross_not_detected (a b : Area.t)
    (Ha : Geometry.nonNegative a) (Hb : Geometry.nonNegative b)
    (Hcross : Geometry.crosses a b) :
  Geometry.overlap a b /\
  Area.intersectsWith a (Area.IsArea b) = Return false /\
  Area.intersectsWith b (Area.IsArea a) = Return false.
Proof.
  destruct Ha as [Hwa Hha], Hb as [Hwb Hhb], Hcross as (H1 & H2 & H3 & H4).
  pose proof (edges a) as [Era Eba]. pose proof (edges b) as [Erb Ebb].
  split; [unfold Geometry.overlap; rewrite Era, Eba, Erb, Ebb in *; lra|].
  assert (Hin : existsb (fun corner => Area.containsPoint a corner) (Area.corners b) = false).
  { rewrite corners_of. cbn [existsb].
    rewrite !containsPoint_false; [reflexivity| | | |]; lra. }
  assert (Hout : existsb (fun corner => Area.containsPoint b corner) (Area.corners a) = false).
  { rewrite corners_of. cbn [existsb].
    rewrite !containsPoint_false; [reflexivity| | | |]; lra. }
  cbn [Area.intersectsWith]. unfold Area.intersectsArea. now rewrite Hin, Hout.
Qed.

Lemma cross_not_detected_witness :
  Geometry.crosses Geometry.flatBar Geometry.highBar /\
  Geometry.overlap Geometry.flatBar Geometry.highBar /\
  Area.intersectsWith Geometry.flatBar (Area.IsArea Geometry.highBar) = Return false.
Proof.
  assert (Ha : Geometry.nonNegative Geometry.flatBar) by (split; discriminate).
  assert (Hb : Geometry.nonNegative Geometry.highBar) by (split; discriminate).
  assert (Hc : Geometry.crosses Geometry.flatBar Geometry.highBar) by (repeat split).
  destruct (cross_not_detected _ _ Ha Hb Hc) as (Ho & Hi & _).
  split; [exact Hc|]. split; [exact Ho | exact Hi].
Defined.

Lemma intersectsArea_sym (a b : Area.t) : Area.intersectsArea a b = Area.intersectsArea b a.
Proof. unfold Area.intersectsArea. apply orb_comm. Qed.

Lemma intersectsArea_refl (a : Area.t) :
  Geometry.nonNegative a -> Area.intersectsArea a a = true.
Proof.
  intros [Hw Hh]. unfold Area.intersectsArea. rewrite corners_of. cbn [existsb].
  assert (H : Area.containsPoint a (Point.mk (Area.left a) (Area.top a)) = true).
  { apply corner_contained. pose proof (edges a) as [Er Eb]. rewrite Er, Eb. lra. }
  now rewrite H.
Qed.

(** X5: [touches] does not depend on which of two entities is asked, and
    an entity the occupied area of which has a non negative width and
    height touches itself. *)
Theorem touches_symmetric (e f : Entity) :
  Entity.touches e f = Entity.touches f e /\
  (Geometry.nonNegative (Entity.occupiedArea e) -> Entity.touches e e = Return true).
Proof.
  rewrite !touches_returns. split.
  - f_equal. apply intersectsArea_sym.
  - intros H. f_equal. now apply intersectsArea_refl.
Qed.

(** ** Snapping an entity to a cell *)

(** X9: on a constructed grid [moveToCell] returns exactly where [hasCell]
    is true; it then changes the position of the entity only and puts the
    centre of its occupied area on that of the cell.  Elsewhere it throws a
    TypeError. *)
Theorem moveToCell_checked (g : BoardGrid.t) (e : Entity) (row column : Z)
    (Hg : constructed g) :
  (BoardGrid.hasCell g row column = true ->
   exists e' cell,
     BoardGrid.getCell g row column = Return (Some cell) /\
     Entity.moveToCell g e row column = Return e' /\
     e' = setPosition e (Entity.position e') /\
     Point.same (Area.center (Entity.occupiedArea e')) (Area.center (Entity.occupiedArea cell))) /\
  (BoardGrid.hasCell g row column = false ->
   Entity.moveToCell g e row column = Throw TypeError).
Proof.
  split.
  - intros Hcell. destruct (getCell_hasCell g row column Hg Hcell) as (type & z & _ & Hget).
    destruct (moveToCell_centers g e _ _ _ Hget) as (e' & Hmove & Hfields & Hcentre).
    eauto 6.
  - intros Hcell. apply hasCell_false_iff in Hcell. unfold Entity.moveToCell.
    destruct (Z_lt_le_dec row 0) as [Hr|Hr];
      [rewrite getCell_row_outside by (auto; lia); reflexivity|].
    destruct (Z_lt_le_dec row (Z.of_nat (BoardGrid.numberOfRows g))) as [Hr'|Hr'];
      [|rewrite getCell_row_outside by (auto; lia); reflexivity].
    rewrite getCell_column_outside by (auto; lia). reflexivity.
Qed.

Lemma moveToCell_checked_witness :
  constructed smallGrid /\
  Entity.moveToCell smallGrid touchingEnemy 3 0 = Throw TypeError /\
  Entity.moveToCell smallGrid touchingEnemy 1 2 = Throw TypeError.
Proof.
  assert (Hg : constructed smallGrid) by reflexivity.
  split; [exact Hg|]. split.
  - apply (proj2 (moveToCell_checked smallGrid touchingEnemy 3 0 Hg)). reflexivity.
  - apply (proj2 (moveToCell_checked smallGrid touchingEnemy 1 2 Hg)). reflexivity.
Defined.

Lemma same_centre_same_position (e : Entity) (p q : Point.t) :
  Point.same (Area.center (Entity.occupiedArea (setPosition e p)))
             (Area.center (Entity.occupiedArea (setPosition e q))) ->
  Point.same p q.
Proof.
  unfold Point.same, Area.center, Entity.occupiedArea, Area.offset, Point.offset,
    Dimensions.clone, setPosition.
  cbn [_visual _position Area.position Area.dimensions Point.x Point.y
       Dimensions.width Dimensions.height].
  intros [Hx Hy]. split; lra.
Qed.

Lemma Point_same_trans (p q r : Point.t) : Point.same p q -> Point.same q r -> Point.same p r.
Proof. intros [H1 H2] [H3 H4]. split; [now rewrite H1 | now rewrite H2]. Qed.

Lemma Point_same_sym (p q : Point.t) : Point.same p q -> Point.same q p.
Proof. intros [H1 H2]. split; now symmetry. Qed.

(** X10: [moveToCell] to the cell an entity has just been moved to leaves
    the entity where it is. *)
Theorem moveToCell_again (g : BoardGrid.t) (e e' : Entity) (row column : Z)
    (Hmove : Entity.moveToCell g e row column = Return e') :
  exists e'',
    Entity.moveToCell g e' row column = Return e'' /\
    Point.same (Entity.position e'') (Entity.position e').
Proof.
  pose proof Hmove as Hcell. unfold Entity.moveToCell in Hcell.
  destruct (BoardGrid.getCell g row column) as [[cell|]|] eqn:Hget; try discriminate.
  clear Hcell.
  destruct (moveToCell_centers g e _ _ _ Hget) as (e1 & Hmove1 & Hf1 & Hc1).
  rewrite Hmove in Hmove1. injection Hmove1 as <-.
  destruct (moveToCell_centers g e' _ _ _ Hget) as (e'' & Hmove2 & Hf2 & Hc2).
  exists e''. split; [exact Hmove2|].
  apply (same_centre_same_position e').
  rewrite <- Hf2.
  assert (He' : setPosition e' (Entity.position e') = e') by (now destruct e').
  rewrite He'. eapply Point_same_trans; [exact Hc2 | apply Point_same_sym, Hc1].
Qed.

Lemma moveToCell_again_witness :
  exists e' e'',
    Entity.moveToCell smallGrid touchingEnemy 1 0 = Return e' /\
    Entity.moveToCell smallGrid e' 1 0 = Return e'' /\
    Point.same (Entity.position e'') (Entity.position e').
Proof.
  destruct (moveToCell_centers smallGrid touchingEnemy 1 0 _ eq_refl) as (e' & Hmove & _).
  destruct (moveToCell_again smallGrid touchingEnemy e' 1 0 Hmove) as (e'' & Hagain & Hsame).
  exists e', e''. split; [exact Hmove|]. split; [exact Hagain | exact Hsame].
Defined.

(** ** The player on the grid *)

Lemma Qceiling_between (x : Q) (c : Z) :
  inject_Z c - 1 < x -> x <= inject_Z c -> Qceiling x = c.
Proof.
  intros Hlow Hhigh.
  assert (Hc := Qle_ceiling x). assert (Hl := Qceiling_lt x).
  unfold Z.sub in Hl. rewrite inject_Z_plus in Hl.
  change (inject_Z (Qceiling x) - 1 < x) in Hl.
  assert (H1 : (Qceiling x - 1 < c)%Z).
  { rewrite Zlt_Qlt. unfold Z.sub. rewrite inject_Z_plus.
    change (inject_Z (Qceiling x) - 1 < inject_Z c). lra. }
  assert (H2 : (c - 1 < Qceiling x)%Z).
  { rewrite Zlt_Qlt. unfold Z.sub. rewrite inject_Z_plus.
    change (inject_Z c - 1 < inject_Z (Qceiling x)). lra. }
  lia.
Qed.

(** X12: the start position of the player is on the last row, in the
    column of index half the number of columns, rounded down: the middle
    column, or the right one of the two in the middle. *)
Theorem playerStartPosition_middle (g : BoardGrid.t) :
  playerStartPosition g
  = GridPosition.mk (Z.of_nat (BoardGrid.numberOfRows g) - 1)
                    (Z.of_nat (BoardGrid.numberOfColumns g) / 2).
Proof.
  unfold playerStartPosition. f_equal.
  set (n := Z.of_nat (BoardGrid.numberOfColumns g)).
  assert (Hn : (0 <= n)%Z) by (unfold n; lia).
  pose proof (Z.div_mod n 2 ltac:(lia)) as Hdiv.
  pose proof (Z.mod_pos_bound n 2 ltac:(lia)) as Hmod.
  set (k := (n / 2)%Z) in *. set (m := (n mod 2)%Z) in *.
  assert (Hq : inject_Z n == 2 * inject_Z k + inject_Z m).
  { rewrite Hdiv, inject_Z_plus, inject_Z_mult. reflexivity. }
  assert (Hm0 : 0 <= inject_Z m) by (rewrite <- (Zle_Qle 0); lia).
  assert (Hm1 : inject_Z m <= 1)
    by (change (inject_Z m <= inject_Z 1); rewrite <- Zle_Qle; lia).
  assert (Hx : (inject_Z n - 1) / 2 == (inject_Z n - 1) * (1 # 2)) by field.
  apply Qceiling_between; lra.
Qed.

Lemma start_hasCell_rows (g : BoardGrid.t) :
  (1 <= BoardGrid.numberOfRows g)%nat -> (1 <= BoardGrid.numberOfColumns g)%nat ->
  BoardGrid.hasCell g (GridPosition.row (playerStartPosition g))
                      (GridPosition.column (playerStartPosition g)) = true.
Proof.
  intros Hrows Hcols. apply hasCell_iff. unfold playerStartPosition.
  cbn [GridPosition.row GridPosition.column].
  split; [lia | now apply startColumn_range].
Qed.

Lemma moveToCell_outside (g : BoardGrid.t) (e : Entity) (row column : Z) :
  constructed g -> BoardGrid.hasCell g row column = false ->
  Entity.moveToCell g e row column = Throw TypeError.
Proof.
  intros Hg Hcell. apply hasCell_false_iff in Hcell. unfold Entity.moveToCell.
  destruct (Z_lt_le_dec row 0) as [Hr|Hr];
    [rewrite getCell_row_outside by (auto; lia); reflexivity|].
  destruct (Z_lt_le_dec row (Z.of_nat (BoardGrid.numberOfRows g))) as [Hr'|Hr'];
    [|rewrite getCell_row_outside by (auto; lia); reflexivity].
  rewrite getCell_column_outside by (auto; lia). reflexivity.
Qed.

(** X13: on a constructed grid [new Player] returns exactly when the grid
    has a row and a column: a player of score 0 that stands on the start
    cell.  On a grid without a row or without a column it throws a
    TypeError. *)
Theorem Player_new_checked (g : BoardGrid.t) (Hg : constructed g) :
  ((1 <= BoardGrid.numberOfRows g)%nat -> (1 <= BoardGrid.numberOfColumns g)%nat ->
   exists p,
     Player.new g = Return p /\
     _gridPosition p = playerStartPosition g /\
     BoardGrid.hasCell g (GridPosition.row (_gridPosition p))
                         (GridPosition.column (_gridPosition p)) = true /\
     score p = 0 /\
     centredOnItsCell g p) /\
  ((BoardGrid.numberOfRows g = 0 \/ BoardGrid.numberOfColumns g = 0)%nat ->
   Player.new g = Throw TypeError).
Proof.
  split.
  - intros Hrows Hcols. pose proof (start_hasCell_rows g Hrows Hcols) as Hcell.
    destruct (getCell_hasCell g _ _ Hg Hcell) as (type & z & _ & Hget).
    unfold Player.new.
    match goal with |- context [Entity.moveToCell g ?e _ _] =>
      destruct (moveToCell_centers g e _ _ _ Hget) as (e' & Hmove & _ & Hcentre) end.
    rewrite Hmove. cbn [bindC].
    eexists. split; [reflexivity|]. cbn [_gridPosition score].
    split; [reflexivity|]. split; [exact Hcell|]. split; [reflexivity|].
    unfold centredOnItsCell. cbn [_gridPosition super]. eauto.
  - intros Hzero. unfold Player.new. rewrite moveToCell_outside; [reflexivity | exact Hg |].
    apply hasCell_false_iff. unfold playerStartPosition.
    cbn [GridPosition.row GridPosition.column]. lia.
Qed.

Lemma Player_new_checked_witness :
  constructed noRowGrid /\ constructed noColumnGrid /\
  Player.new noRowGrid = Throw TypeError /\ Player.new noColumnGrid = Throw TypeError /\
  exists p, Player.new smallGrid = Return p /\ _gridPosition p = playerStartPosition smallGrid.
Proof.
  assert (H1 : constructed noRowGrid) by reflexivity.
  assert (H2 : constructed noColumnGrid) by reflexivity.
  assert (H3 : constructed smallGrid) by reflexivity.
  split; [exact H1|]. split; [exact H2|].
  split; [apply (proj2 (Player_new_checked noRowGrid H1)); left; reflexivity|].
  split; [apply (proj2 (Player_new_checked noColumnGrid H2)); right; reflexivity|].
  destruct (proj1 (Player_new_checked smallGrid H3)) as (p & Hnew & Hstart & _);
    [cbn; lia | cbn; lia |].
  exists p. split; [exact Hnew | exact Hstart].
Defined.

(** X14: [moveInGrid] of a player that stands on a cell of a constructed
    grid never throws: it returns what [canMoveInGrid] returns, leaves the
    player on a cell of the grid and leaves its score; a player that is not
    moved is not changed, and a direction other than the four is refused. *)
Theorem moveInGrid_never_throws (g : BoardGrid.t) (p : Player) (direction : string)
    (Hg : constructed g)
    (Hin : BoardGrid.hasCell g (GridPosition.row (_gridPosition p))
                               (GridPosition.column (_gridPosition p)) = true) :
  exists p',
    Player.moveInGrid g p direction = (Return (Player.canMoveInGrid g p direction), p') /\
    score p' = score p /\
    BoardGrid.hasCell g (GridPosition.row (_gridPosition p'))
                        (GridPosition.column (_gridPosition p')) = true /\
    (Player.canMoveInGrid g p direction = false -> p' = p) /\
    (Player.stepInGrid (_gridPosition p) direction = None ->
     Player.canMoveInGrid g p direction = false).
Proof.
  assert (Hnone : Player.stepInGrid (_gridPosition p) direction = None ->
                  Player.canMoveInGrid g p direction = false).
  { unfold Player.canMoveInGrid, Player.stepInGrid.
    repeat (destruct (String.eqb direction _); [discriminate|]). reflexivity. }
  destruct (Player.canMoveInGrid g p direction) eqn:Hcan.
  - destruct (Player.stepInGrid (_gridPosition p) direction) as [target|] eqn:Hstep;
      [|now specialize (Hnone eq_refl)].
    pose proof Hcan as Hcell. rewrite (canMoveInGrid_step g p direction target Hstep) in Hcell.
    destruct (moveInGrid_allowed g p direction target Hg Hstep Hcell)
      as (p' & Hmove & Hto & Hscore & _).
    exists p'. split; [exact Hmove|]. split; [exact Hscore|].
    split; [rewrite Hto; exact Hcell|]. split; [discriminate | exact Hnone].
  - exists p. split; [now apply moveInGrid_refused|]. split; [reflexivity|].
    split; [exact Hin|]. split; [reflexivity | exact Hnone].
Qed.

Lemma moveInGrid_never_throws_witness :
  constructed smallGrid /\
  exists p',
    Player.moveInGrid smallGrid smallGridPlayer "sideways"
    = (Return (Player.canMoveInGrid smallGrid smallGridPlayer "sideways"), p') /\
    score p' = score smallGridPlayer.
Proof.
  assert (Hg : constructed smallGrid) by reflexivity.
  split; [exact Hg|].
  destruct (moveInGrid_never_throws smallGrid smallGridPlayer "sideways" Hg eq_refl)
    as (p' & Hmove & Hscore & _).
  exists p'. split; [exact Hmove | exact Hscore].
Defined.

Lemma moveInGrid_true (g : BoardGrid.t) (p p1 : Player) (direction : string) :
  constructed g ->
  Player.moveInGrid g p direction = (Return true, p1) ->
  exists target,
    Player.stepInGrid (_gridPosition p) direction = Some target /\
    BoardGrid.hasCell g (GridPosition.row target) (GridPosition.column target) = true /\
    movedTo g p p1 (GridPosition.row target) (GridPosition.column target).
Proof.
  intros Hg Hmove.
  destruct (Player.canMoveInGrid g p direction) eqn:Hcan;
    [|rewrite (moveInGrid_refused g p direction Hcan) in Hmove; discriminate].
  destruct (Player.stepInGrid (_gridPosition p) direction) as [target|] eqn:Hstep.
  - rewrite (canMoveInGrid_step g p direction target Hstep) in Hcan.
    destruct (moveInGrid_allowed g p direction target Hg Hstep Hcan) as (p' & Hmove' & Hto).
    rewrite Hmove in Hmove'. injection Hmove' as <-. eauto.
  - unfold Player.canMoveInGrid in Hcan. unfold Player.stepInGrid in Hstep.
    repeat (destruct (String.eqb direction _); [discriminate|]). discriminate.
Qed.

Lemma step_back (position target : GridPosition.t) (direction : string) :
  Player.stepInGrid position direction = Some target ->
  Player.stepInGrid target (opposite direction) = Some position.
Proof.
  unfold Player.stepInGrid, opposite. destruct position as [row column].
  cbn [GridPosition.row GridPosition.column].
  destruct (String.eqb direction "left") eqn:E1;
    [intros [= <-]; cbn; do 2 f_equal; lia|].
  destruct (String.eqb direction "up") eqn:E2;
    [intros [= <-]; cbn; do 2 f_equal; lia|].
  destruct (String.eqb direction "right") eqn:E3;
    [intros [= <-]; cbn; do 2 f_equal; lia|].
  destruct (String.eqb direction "down") eqn:E4;
    [intros [= <-]; cbn; do 2 f_equal; lia|].
  discriminate.
Qed.

(** X15: after a move of the player in the grid, the move in the opposite
    direction succeeds and leads back: to the grid position the player
    had, to the place it had there, with the score it has. *)
Theorem moveInGrid_and_back (g : BoardGrid.t) (p p1 : Player) (direction : string)
    (Hg : constructed g)
    (Hin : BoardGrid.hasCell g (GridPosition.row (_gridPosition p))
                               (GridPosition.column (_gridPosition p)) = true)
    (Hcentred : centredOnItsCell g p)
    (Hmove : Player.moveInGrid g p direction = (Return true, p1)) :
  exists p2,
    Player.moveInGrid g p1 (opposite direction) = (Return true, p2) /\
    _gridPosition p2 = _gridPosition p /\
    Point.same (Player.position p2) (Player.position p) /\
    score p2 = score p.
Proof.
  destruct (moveInGrid_true g p p1 direction Hg Hmove)
    as (target & Hstep & _ & Hto1 & Hscore1 & Hsuper1 & _).
  assert (Hback : Player.stepInGrid (_gridPosition p1) (opposite direction)
                  = Some (_gridPosition p)).
  { rewrite Hto1. replace (GridPosition.mk _ _) with target by (now destruct target).
    now apply step_back. }
  destruct (moveInGrid_allowed g p1 (opposite direction) (_gridPosition p) Hg Hback Hin)
    as (p2 & Hmove2 & Hto2 & Hscore2 & Hsuper2 & (cell2 & Hget2 & Hcentre2)).
  exists p2. split; [exact Hmove2|].
  assert (Hgp : _gridPosition p2 = _gridPosition p)
    by (rewrite Hto2; now destruct (_gridPosition p)).
  split; [exact Hgp|]. split; [|congruence].
  destruct Hcentred as (cell & Hget & Hcentre).
  rewrite Hgp, Hget in Hget2. injection Hget2 as <-.
  apply (same_centre_same_position (super p)).
  assert (H2 : setPosition (super p) (Player.position p2) = super p2).
  { rewrite Hsuper2, Hsuper1. reflexivity. }
  assert (H0 : setPosition (super p) (Player.position p) = super p)
    by (unfold Player.position; now destruct (super p)).
  rewrite H2, H0.
  eapply Point_same_trans; [exact Hcentre2 | apply Point_same_sym, Hcentre].
Qed.

Lemma moveInGrid_and_back_witness :
  exists p1 p2,
    Player.moveInGrid smallGrid smallGridPlayer "left" = (Return true, p1) /\
    Player.moveInGrid smallGrid p1 (opposite "left") = (Return true, p2) /\
    _gridPosition p2 = _gridPosition smallGridPlayer /\
    Point.same (Player.position p2) (Player.position smallGridPlayer).
Proof.
  assert (Hg : constructed smallGrid) by reflexivity.
  assert (Hin : BoardGrid.hasCell smallGrid 1 1 = true) by reflexivity.
  assert (Hcentred : centredOnItsCell smallGrid smallGridPlayer).
  { eexists. split; [reflexivity|]. split; reflexivity. }
  destruct (moveInGrid_allowed smallGrid smallGridPlayer "left" (GridPosition.mk 1 0) Hg
              eq_refl eq_refl) as (p1 & Hmove & _).
  destruct (moveInGrid_and_back smallGrid smallGridPlayer p1 "left" Hg Hin Hcentred Hmove)
    as (p2 & Hback & Hgp & Hsame & _).
  exists p1, p2. repeat (split; [assumption|]). exact Hsame.
Defined.

(** ** The cells of a grid *)

Lemma triangular_S (r : nat) : triangular (S r) = (triangular r + Z.of_nat (S r))%Z.
Proof.
  unfold triangular.
  replace (Z.of_nat (S r) * (Z.of_nat (S r) + 1))%Z
    with (Z.of_nat r * (Z.of_nat r + 1) + Z.of_nat (S r) * 2)%Z by lia.
  now rewrite Z.div_add by lia.
Qed.

Lemma newRows_nth_z bt n types : forall r0 z0 r type,
  nth_error types r = Some type ->
  nth_error (BoardGrid.newRows bt n types r0 z0) r
  = Some (BoardGrid.newRow bt n type
            (z0 + Z.of_nat (S r) * Z.of_nat r0 + triangular r)%Z (r0 + r)).
Proof.
  induction types as [|t ts IH]; intros r0 z0 r type H; [destruct r; discriminate|].
  destruct r as [|r]; cbn [nth_error BoardGrid.newRows] in *.
  - injection H as ->. rewrite Nat.add_0_r. do 2 f_equal.
    change (triangular 0) with 0%Z. lia.
  - rewrite (IH (S r0) (z0 + Z.of_nat r0)%Z r type H).
    rewrite Nat.add_succ_r. cbn [Nat.add]. do 2 f_equal.
    rewrite (triangular_S r). lia.
Qed.

Lemma cells_length bt n types : forall r z,
  List.length (List.concat (BoardGrid.newRows bt n types r z)) = (List.length types * n)%nat.
Proof.
  induction types as [|t ts IH]; intros r z; [reflexivity|].
  cbn [BoardGrid.newRows List.concat List.length]. rewrite length_app, newRow_length, IH. lia.
Qed.

(** X16: the constructor of the grid makes one cell for each row and
    column.  The cell at a row and a column has the type of the row, that
    grid position, the position of the column and row in multiples of the
    occupied area of the template; its zIndex is the sum of the row indices
    up to its own, it scores 2 when it is water and 0 otherwise, and it is
    not removed when hit.  It is among the cells of the grid. *)
Theorem grid_cells (g : BoardGrid.t) (row column : nat) (Hg : constructed g)
    (Hrow : (row < BoardGrid.numberOfRows g)%nat)
    (Hcolumn : (column < BoardGrid.numberOfColumns g)%nat) :
  List.length (BoardGrid.cells g)
  = (BoardGrid.numberOfRows g * BoardGrid.numberOfColumns g)%nat /\
  exists type cell,
    nth_error (BoardGrid._rowTypes g) row = Some type /\
    BoardGrid.getCell g (Z.of_nat row) (Z.of_nat column) = Return (Some cell) /\
    In cell (BoardGrid.cells g) /\
    class cell = BoardGridCell_ type (GridPosition.mk (Z.of_nat row) (Z.of_nat column)) /\
    Entity.position cell = BoardGrid.calculateCellPosition g (Z.of_nat row) (Z.of_nat column) /\
    zIndex cell = triangular row /\
    hitScoreIncrement cell = (if CellType_eqb type water then 2 else 0) /\
    removeOnHit cell = false.
Proof.
  unfold BoardGrid.numberOfRows, BoardGrid.numberOfColumns in *.
  split.
  { unfold constructed in Hg. rewrite Hg at 1. cbn [BoardGrid.cells BoardGrid._cells BoardGrid.new].
    apply cells_length. }
  destruct (nth_error (BoardGrid._rowTypes g) row) as [type|] eqn:Et;
    [|apply nth_error_None in Et; lia].
  pose proof (newRows_nth_z (BoardGrid._board_cellVisualTemplate g) (BoardGrid._numberOfColumns g)
                _ 0%nat 0%Z row type Et) as Hz.
  cbn [Nat.add] in Hz.
  assert (Hrows : nth_error (BoardGrid._rows g) row
                  = Some (BoardGrid.newRow (BoardGrid._board_cellVisualTemplate g)
                            (BoardGrid._numberOfColumns g) type
                            (0 + Z.of_nat (S row) * Z.of_nat 0 + triangular row)%Z row)).
  { unfold constructed in Hg. rewrite Hg at 1. exact Hz. }
  pose proof (newRow_nth (BoardGrid._board_cellVisualTemplate g) (BoardGrid._numberOfColumns g)
                type (0 + Z.of_nat (S row) * Z.of_nat 0 + triangular row)%Z row column Hcolumn)
    as Hcell.
  eexists type, _. split; [reflexivity|].
  split; [unfold BoardGrid.getCell; rewrite js_get_nat, Hrows, js_get_nat; f_equal; exact Hcell|].
  split.
  { assert (Hcells : BoardGrid.cells g
                     = List.concat (BoardGrid.newRows (BoardGrid._board_cellVisualTemplate g)
                                      (BoardGrid._numberOfColumns g) (BoardGrid._rowTypes g) 0 0)).
    { unfold constructed in Hg. rewrite Hg at 1. reflexivity. }
    rewrite Hcells. apply in_concat. eexists. split; [eapply nth_error_In; exact Hz|].
    eapply nth_error_In. exact Hcell. }
  split; [reflexivity|]. split; [reflexivity|].
  split; [cbn; lia|]. split; reflexivity.
Qed.

Lemma grid_cells_witness :
  constructed smallGrid /\
  List.length (BoardGrid.cells smallGrid) = 6%nat /\
  exists cell,
    BoardGrid.getCell smallGrid 2 1 = Return (Some cell) /\ zIndex cell = triangular 2.
Proof.
  assert (Hg : constructed smallGrid) by reflexivity.
  assert (Hrow : (2 < BoardGrid.numberOfRows smallGrid)%nat) by (cbn; lia).
  assert (Hcolumn : (1 < BoardGrid.numberOfColumns smallGrid)%nat) by (cbn; lia).
  destruct (grid_cells smallGrid 2 1 Hg Hrow Hcolumn)
    as (Hlength & type & cell & _ & Hget & _ & _ & _ & Hz & _).
  split; [exact Hg|]. split; [exact Hlength|]. exists cell. split; [exact Hget | exact Hz].
Defined.

Lemma rowTypesOf_no_column bt type types r z :
  BoardGrid.rowTypesOf (BoardGrid.newRows bt 0 (type :: types) r z) = Throw TypeError.
Proof. reflexivity. Qed.

(** X17: the getter [rowTypes] of a constructed grid gives back the row
    types the grid was built from when the grid has a column, or no row; on
    a grid of rows without a column it throws a TypeError. *)
Theorem rowTypes_round_trip (g : BoardGrid.t) (Hg : constructed g) :
  ((1 <= BoardGrid.numberOfColumns g)%nat \/ BoardGrid.numberOfRows g = 0%nat ->
   BoardGrid.rowTypes g = Return (map Some (BoardGrid._rowTypes g))) /\
  (BoardGrid.numberOfColumns g = 0%nat -> (1 <= BoardGrid.numberOfRows g)%nat ->
   BoardGrid.rowTypes g = Throw TypeError).
Proof.
  unfold BoardGrid.numberOfRows, BoardGrid.numberOfColumns. split.
  - intros [Hcols|Hrows]; [now apply rowTypes_constructed|].
    unfold BoardGrid.rowTypes. unfold constructed in Hg. rewrite Hg at 1.
    cbn [BoardGrid._rows BoardGrid.new].
    destruct (BoardGrid._rowTypes g); [reflexivity | discriminate].
  - intros Hcols Hrows. unfold BoardGrid.rowTypes. unfold constructed in Hg. rewrite Hg at 1.
    cbn [BoardGrid._rows BoardGrid.new]. rewrite Hcols.
    destruct (BoardGrid._rowTypes g); [cbn in Hrows; lia | apply rowTypesOf_no_column].
Qed.

Lemma rowTypes_round_trip_witness :
  constructed smallGrid /\ constructed noColumnGrid /\
  BoardGrid.rowTypes smallGrid = Return [Some water; Some road; Some grass] /\
  BoardGrid.rowTypes noColumnGrid = Throw TypeError.
Proof.
  assert (H1 : constructed smallGrid) by reflexivity.
  assert (H2 : constructed noColumnGrid) by reflexivity.
  split; [exact H1|]. split; [exact H2|]. split.
  - apply (proj1 (rowTypes_round_trip smallGrid H1)). left. cbn. lia.
  - apply (proj2 (rowTypes_round_trip noColumnGrid H2)); [reflexivity | cbn; lia].
Defined.

(** ** Random integers *)

Lemma Qfloor_between (x : Q) (lo hi : Z) :
  inject_Z lo <= x -> x < inject_Z hi + 1 -> (lo <= Qfloor x <= hi)%Z.
Proof.
  intros Hlo Hhi. assert (Hlt := Qlt_floor x). assert (Hle := Qfloor_le x).
  rewrite inject_Z_plus in Hlt. change (inject_Z 1) with 1 in Hlt.
  split.
  - cut (lo < Qfloor x + 1)%Z; [lia|]. rewrite Zlt_Qlt, inject_Z_plus.
    change (inject_Z 1) with 1. lra.
  - cut (Qfloor x < hi + 1)%Z; [lia|]. rewrite Zlt_Qlt, inject_Z_plus.
    change (inject_Z 1) with 1. lra.
Qed.



(** ** Spawning, on every board *)

Lemma rowTypes_cases (g : BoardGrid.t) :
  constructed g ->
  BoardGrid.rowTypes g = Return (map Some (BoardGrid._rowTypes g)) \/
  BoardGrid.rowTypes g = Throw TypeError.
Proof.
  intros Hg. destruct (BoardGrid.numberOfColumns g) as [|n] eqn:En.
  - unfold BoardGrid.numberOfColumns in En.
    assert (Hrows : BoardGrid._rows g =
                    BoardGrid.newRows (BoardGrid._board_cellVisualTemplate g) 0
                                      (BoardGrid._rowTypes g) 0 0).
    { unfold constructed in Hg. rewrite Hg at 1. cbn [BoardGrid._rows BoardGrid.new].
      now rewrite En. }
    unfold BoardGrid.rowTypes. rewrite Hrows.
    destruct (BoardGrid._rowTypes g); [left | right]; reflexivity.
  - left. apply rowTypes_constructed; [exact Hg | lia].
Qed.

Lemma roadRowIndices_none (types : list CellType) :
  ~ In road types -> Board.roadRowIndices (map Some types) = [].
Proof.
  intros Hnone. destruct (Board.roadRowIndices (map Some types)) as [|i rest] eqn:E;
    [reflexivity|].
  exfalso. apply Hnone.
  destruct (roadRowIndices_spec types i) as [_ Hroad]; [rewrite E; now left|].
  eapply nth_error_In. exact Hroad.
Qed.

Lemma js_get_nil {A : Type} (i : Z) : js_get (@nil A) i = None.
Proof. unfold js_get. destruct (i <? 0)%Z; [reflexivity|]. now destruct (Z.to_nat i). Qed.

(** X19: on a board without a road row [spawnEnemy] throws a TypeError,
    whatever the samples drawn, and leaves the board as it is. *)
Theorem spawnEnemy_needs_road (w : World)
    (Hg : constructed (_grid (board w)))
    (Hnone : ~ In road (BoardGrid._rowTypes (_grid (board w)))) :
  exists w', Board.spawnEnemy w = (Throw TypeError, w') /\ board w' = board w.
Proof.
  unfold Board.spawnEnemy, randBetween, Math_random, ret, getBoard, liftC, putBoard, bind.
  cbn [board random drawn].
  destruct (rowTypes_cases _ Hg) as [-> | ->]; [|eauto].
  rewrite (roadRowIndices_none _ Hnone), js_get_nil.
  unfold Enemy.new. destruct (EntityVisual.dimensions _); eauto.
Qed.

Lemma spawnEnemy_needs_road_witness :
  constructed (_grid (board noRoadWorld)) /\
  exists w', Board.spawnEnemy noRoadWorld = (Throw TypeError, w') /\
             board w' = board noRoadWorld.
Proof.
  assert (Hg : constructed (_grid (board noRoadWorld))) by reflexivity.
  assert (Hnone : ~ In road (BoardGrid._rowTypes (_grid (board noRoadWorld)))).
  { cbn. intros [H|[H|[]]]; discriminate. }
  split; [exact Hg | exact (spawnEnemy_needs_road noRoadWorld Hg Hnone)].
Defined.

(** ** The enemy that is spawned *)

(** [spawnEnemy_returns] with the speed drawn. *)
Lemma spawnEnemy_result (w : World) (d : Dimensions.t) :
  let g := _grid (board w) in
  constructed g ->
  In road (BoardGrid._rowTypes g) ->
  (1 <= BoardGrid.numberOfColumns g)%nat ->
  EntityVisual.dimensions (BoardGrid.cellVisualTemplate g) = Some d ->
  randomOK (random w) ->
  exists row enemy0 enemy1 enemy,
    nth_error (BoardGrid._rowTypes g) (Z.to_nat row) = Some road /\
    (0 <= row)%Z /\
    Enemy.new g (-2) false (mkVector (inject_Z (spawnSpeed w)) 0) = Return enemy0 /\
    Entity.moveToCell g enemy0 row (spawnColumn g (spawnDirection w)) = Return enemy1 /\
    Board.moveOutside (spawnDirection w) enemy1 = Return enemy /\
    Board.spawnEnemy w = (Return tt, spawned w enemy).
Proof.
  intros g Hg Hroad Hcols Hdims Hrandom. unfold spawnSpeed.
  pose proof (rowTypes_constructed g Hg Hcols) as Htypes.
  pose proof (roadRowIndices_nonempty _ Hroad) as Hlen.
  set (indices := Board.roadRowIndices (map Some (BoardGrid._rowTypes g))) in *.
  pose proof (randomIndex_range (random w (S (drawn w))) (List.length indices)
                (Hrandom _) Hlen) as Hindex.
  set (roadIndex := Qfloor (random w (S (drawn w)) *
                            (inject_Z (Z.of_nat (List.length indices)) - 1 - 0 + 1) + 0)) in *.
  destruct (js_get_inside indices roadIndex Hindex) as [row Hrow].
  assert (Hin : In row indices).
  { unfold js_get in Hrow. destruct (roadIndex <? 0)%Z; [discriminate|].
    eapply nth_error_In; eassumption. }
  destruct (roadRowIndices_spec _ _ Hin) as [Hrow0 Hroadrow].
  set (direction := spawnDirection w).
  set (speed := Qfloor (random w (S (S (drawn w))) *
                        (inject_Z direction * Range.max (enemyIncrementRange (board w)) -
                         inject_Z direction * Range.min (enemyIncrementRange (board w)) + 1) +
                        inject_Z direction * Range.min (enemyIncrementRange (board w)))).
  assert (Hcell : BoardGrid.hasCell g row (spawnColumn g direction) = true).
  { apply hasCell_iff. split.
    - split; [exact Hrow0|]. unfold BoardGrid.numberOfRows.
      assert (Z.to_nat row < List.length (BoardGrid._rowTypes g))%nat; [|lia].
      apply nth_error_Some. now rewrite Hroadrow.
    - unfold spawnColumn. destruct (direction =? 1)%Z; lia. }
  destruct (getCell_hasCell g _ _ Hg Hcell) as (type & z & _ & Hget).
  assert (Hnew : exists enemy0,
             Enemy.new g (-2) false (mkVector (inject_Z speed) 0) = Return enemy0 /\
             EntityVisual.dimensions (_visual enemy0) = Some (Dimensions.clone d)).
  { unfold Enemy.new. rewrite Hdims. eexists. split; reflexivity. }
  destruct Hnew as (enemy0 & Hnew & Hd0).
  destruct (moveToCell_centers g enemy0 _ _ _ Hget) as (enemy1 & Hmove & Hsame & _).
  assert (Hout : exists enemy, Board.moveOutside direction enemy1 = Return enemy).
  { unfold Board.moveOutside, Entity.area. rewrite Hsame. cbn [setPosition _visual _position].
    rewrite Hd0. cbn [Area.new bindC].
    destruct (direction =? 1)%Z; eexists; reflexivity. }
  destruct Hout as [enemy Hout].
  exists row, enemy0, enemy1, enemy.
  repeat (split; [assumption|]).
  unfold Board.spawnEnemy, randBetween, Math_random, ret, getBoard, liftC, putBoard, bind.
  cbn [board random drawn].
  fold g. rewrite Htypes. fold indices. fold roadIndex. rewrite Hrow.
  fold (spawnDirection w). fold direction. fold speed.
  rewrite Hnew. fold (spawnColumn g direction). rewrite Hmove, Hout. reflexivity.
Qed.

(** An enemy put on the cell at [row] and [column]: half a pixel right of
    the cell. *)
Lemma spawn_on_cell (g : BoardGrid.t) (enemy0 enemy1 : Entity) (row column : Z) :
  constructed g ->
  BoardGrid.hasCell g row column = true ->
  EntityVisual.occupiedArea (_visual enemy0) = Area.mk (Point.mk 2 102) (Dimensions.mk 96 42) ->
  Entity.moveToCell g enemy0 row column = Return enemy1 ->
  enemy1 = setPosition enemy0 (Entity.position enemy1) /\
  Point.x (Entity.position enemy1)
  == inject_Z column *
     Area.width (EntityVisual.occupiedArea (BoardGrid._board_cellVisualTemplate g)) + (1 # 2) /\
  Point.y (Entity.position enemy1)
  == inject_Z row *
     Area.height (EntityVisual.occupiedArea (BoardGrid._board_cellVisualTemplate g)) - (59 # 2).
Proof.
  intros Hg Hcell Hocc Hmove.
  destruct (getCell_hasCell g _ _ Hg Hcell) as (type & z & _ & Hget).
  destruct (moveToCell_centers g enemy0 _ _ _ Hget) as (e' & Hmove' & Hfields & [Hx Hy]).
  rewrite Hmove in Hmove'. injection Hmove' as <-.
  split; [exact Hfields|].
  rewrite Hfields in Hx, Hy.
  unfold Area.center, Entity.occupiedArea, Area.offset, Point.offset, Dimensions.clone,
    cellOf, BoardGridCell.placeInGrid, BoardGridCell.new, BoardGridCell.calculateCellPosition,
    setPosition, setClass in Hx, Hy.
  cbn [_visual _position class Area.position Area.dimensions Point.x Point.y
       Dimensions.width Dimensions.height EntityVisual.occupiedArea] in Hx, Hy.
  rewrite Hocc in Hx, Hy.
  cbn [Area.position Area.dimensions Point.x Point.y Dimensions.width Dimensions.height] in Hx, Hy.
  unfold Area.height, Area.width.
  assert (E1 : 96 / 2 == 48) by reflexivity.
  assert (E2 : 101 / 2 == 101 # 2) by reflexivity.
  assert (E3 : 42 / 2 == 21) by reflexivity.
  assert (E4 : 83 / 2 == 83 # 2) by reflexivity.
  rewrite E1, E2 in Hx. rewrite E3, E4 in Hy.
  split; lra.
Qed.

(** Moved outwards, an enemy that goes left keeps its row and stands
    further right by the width of its sprite and the margin left of its
    occupied area. *)
Lemma moveOutside_left (enemy1 enemy : Entity) (d : Dimensions.t) :
  EntityVisual.dimensions (_visual enemy1) = Some d ->
  EntityVisual.occupiedArea (_visual enemy1) = Area.mk (Point.mk 2 102) (Dimensions.mk 96 42) ->
  Board.moveOutside (-1) enemy1 = Return enemy ->
  enemy = setPosition enemy1 (Entity.position enemy) /\
  Point.x (Entity.position enemy) == Point.x (Entity.position enemy1) + Dimensions.width d + 2 /\
  Point.y (Entity.position enemy) == Point.y (Entity.position enemy1).
Proof.
  intros Hd Hocc Hout. pose proof (moveOutside_fields _ _ _ Hout) as Hfields.
  split; [exact Hfields|].
  unfold Board.moveOutside, Entity.area in Hout. rewrite Hd in Hout.
  cbn [Area.new bindC Z.eqb] in Hout. injection Hout as <-.
  unfold Entity.occupiedArea, Entity.position, Area.topLeft, Area.width, Area.offset,
    Point.offset, Point.clone, Dimensions.clone, setPosition.
  rewrite Hocc.
  cbn [_position _visual Area.position Area.dimensions Point.x Point.y
       Dimensions.width Dimensions.height].
  split; ring.
Qed.

(** The enemy that [spawnEnemy] appends, field by field. *)
Lemma spawned_enemy_shape (w : World) (d : Dimensions.t) :
  let g := _grid (board w) in
  constructed g ->
  In road (BoardGrid._rowTypes g) ->
  (1 <= BoardGrid.numberOfColumns g)%nat ->
  EntityVisual.dimensions (BoardGrid.cellVisualTemplate g) = Some d ->
  randomOK (random w) ->
  exists row enemy,
    nth_error (BoardGrid._rowTypes g) (Z.to_nat row) = Some road /\
    (0 <= row)%Z /\
    Board.spawnEnemy w = (Return tt, spawned w enemy) /\
    enemy = mkEntity
              (EntityVisual.mk
                 (if Qle_bool 0 (inject_Z (spawnSpeed w))
                  then "images/enemy-right.png" else "images/enemy-left.png")%string
                 (Some (Dimensions.clone d))
                 (Area.mk (Point.mk 2 102) (Dimensions.mk 96 42)))
              (Entity.position enemy) 200 false (-2)
              (Enemy_ (mkVector (inject_Z (spawnSpeed w)) 0) false) /\
    Point.x (Entity.position enemy)
    == inject_Z (spawnColumn g (spawnDirection w)) *
       Area.width (EntityVisual.occupiedArea (BoardGrid._board_cellVisualTemplate g)) + (1 # 2) +
       (if (spawnDirection w =? 1)%Z then - (98) else Dimensions.width d + 2) /\
    Point.y (Entity.position enemy)
    == inject_Z row *
       Area.height (EntityVisual.occupiedArea (BoardGrid._board_cellVisualTemplate g)) - (59 # 2).
Proof.
  intros g Hg Hroad Hcols Hd Hrandom.
  destruct (spawnEnemy_result w d Hg Hroad Hcols Hd Hrandom)
    as (row & enemy0 & enemy1 & enemy & Hroadrow & Hrow0 & Hnew & Hmove & Hout & Hspawn).
  fold g in Hroadrow, Hnew, Hmove.
  unfold Enemy.new in Hnew. fold g in Hd. rewrite Hd in Hnew. injection Hnew as Hnew.
  assert (Hcell : BoardGrid.hasCell g row (spawnColumn g (spawnDirection w)) = true).
  { apply hasCell_iff. split.
    - split; [exact Hrow0|]. unfold BoardGrid.numberOfRows.
      assert (Z.to_nat row < List.length (BoardGrid._rowTypes g))%nat; [|lia].
      apply nth_error_Some. now rewrite Hroadrow.
    - unfold spawnColumn. destruct (spawnDirection w =? 1)%Z; lia. }
  destruct (spawn_on_cell g enemy0 enemy1 row _ Hg Hcell) as (Hf1 & Hx1 & Hy1);
    [now rewrite <- Hnew | exact Hmove |].
  assert (Hd1 : EntityVisual.dimensions (_visual enemy1) = Some (Dimensions.clone d))
    by (rewrite Hf1, <- Hnew; reflexivity).
  assert (Ho1 : EntityVisual.occupiedArea (_visual enemy1)
                = Area.mk (Point.mk 2 102) (Dimensions.mk 96 42))
    by (rewrite Hf1, <- Hnew; reflexivity).
  assert (Hshift : enemy = setPosition enemy1 (Entity.position enemy) /\
            Point.x (Entity.position enemy)
            == Point.x (Entity.position enemy1) +
               (if (spawnDirection w =? 1)%Z then - (98) else Dimensions.width d + 2) /\
            Point.y (Entity.position enemy) == Point.y (Entity.position enemy1)).
  { unfold spawnDirection in *.
    destruct (Qfloor (random w (drawn w) * (1 - 0 + 1) + 0) =? 1)%Z.
    - destruct (moveOutside_right enemy1 enemy _ Hd1 Ho1 Hout) as (Hf & Hx & Hy).
      split; [exact Hf|]. cbn [Z.eqb Pos.eqb]. split; [lra | exact Hy].
    - destruct (moveOutside_left enemy1 enemy _ Hd1 Ho1 Hout) as (Hf & Hx & Hy).
      split; [exact Hf|]. cbn [Z.eqb Dimensions.clone Dimensions.width] in *.
      split; [lra | exact Hy]. }
  destruct Hshift as (Hf & Hx & Hy).
  exists row, enemy. split; [exact Hroadrow|]. split; [exact Hrow0|]. split; [exact Hspawn|].
  split; [rewrite Hf at 1; rewrite Hf1, <- Hnew; reflexivity|].
  split; lra.
Qed.

Lemma zeros_ok : randomOK zeros.
Proof. intros n. unfold zeros. split; [discriminate | reflexivity]. Qed.

Lemma columns_not_negative (n : nat) : 0 <= inject_Z (Z.of_nat n).
Proof. rewrite <- (Zle_Qle 0). lia. Qed.

(** An enemy the occupied area of which begins right of the grid is not on
    the board. *)
Lemma right_of_the_grid (g : BoardGrid.t) (e : Entity) :
  constructed g ->
  EntityVisual.occupiedArea (BoardGrid._cellVisualTemplate g) = engineOccupiedArea ->
  EntityVisual.occupiedArea (_visual e) = Area.mk (Point.mk 2 102) (Dimensions.mk 96 42) ->
  101 * inject_Z (Z.of_nat (BoardGrid.numberOfColumns g)) < 2 + Point.x (Entity.position e) ->
  Entity.someOnTheBoard g e = Return false.
Proof.
  intros Hg Ht Hocc Hright. unfold Entity.someOnTheBoard. cbn [Area.intersectsWith]. f_equal.
  assert (Hgrid : BoardGrid.occupiedArea g
                  = Area.mk (Point.mk 0 52)
                      (Dimensions.mk (101 * inject_Z (Z.of_nat (BoardGrid._numberOfColumns g)))
                         (83 * inject_Z (Z.of_nat (List.length (BoardGrid._rowTypes g)))))).
  { unfold BoardGrid.occupiedArea. unfold constructed in Hg. rewrite Hg at 1.
    cbn [BoardGrid._occupiedArea BoardGrid.new]. rewrite Ht. reflexivity. }
  pose proof (columns_not_negative (BoardGrid._numberOfColumns g)) as Hc.
  pose proof (columns_not_negative (List.length (BoardGrid._rowTypes g))) as Hr.
  destruct (Area.intersectsArea (Entity.occupiedArea e) (BoardGrid.occupiedArea g)) eqn:E;
    [exfalso | reflexivity].
  apply intersectsArea_overlap in E.
  - destruct E as (Hl & _). revert Hl. rewrite Hgrid.
    unfold Entity.occupiedArea. rewrite Hocc.
    unfold Area.left, Area.right, Area.topLeft, Area.topRight, Area.offset, Point.offset,
      Point.clone, Entity.position, BoardGrid.numberOfColumns in *.
    cbn [Area.position Area.dimensions Point.x Point.y Dimensions.width]. lra.
  - unfold Geometry.nonNegative, Entity.occupiedArea. rewrite Hocc. split; discriminate.
  - rewrite Hgrid. unfold Geometry.nonNegative, Area.width, Area.height.
    cbn [Area.dimensions Dimensions.width Dimensions.height]. split; lra.
Qed.

(** X20: with the direction right to left [spawnEnemy] puts the enemy
    behind the last column, the left edge of its occupied area further
    right than that of the last cell by the width of the sprite and four
    pixels and a half.  With the cells of the engine and a sprite wider
    than 96.5 pixels the enemy is spawned off the board: [someOnTheBoard]
    is false. *)
Theorem spawn_left_starts_outside (w : World) (d : Dimensions.t)
    (Hg : constructed (_grid (board w)))
    (Hroad : In road (BoardGrid._rowTypes (_grid (board w))))
    (Hcols : (1 <= BoardGrid.numberOfColumns (_grid (board w)))%nat)
    (Hd : EntityVisual.dimensions (BoardGrid.cellVisualTemplate (_grid (board w))) = Some d)
    (Hrandom : randomOK (random w))
    (Hleft : spawnDirection w = (-1)%Z) :
  exists enemy,
    Board.spawnEnemy w = (Return tt, spawned w enemy) /\
    Entity.instanceofEnemy enemy = true /\
    Area.left (Entity.occupiedArea enemy)
    == (inject_Z (Z.of_nat (BoardGrid.numberOfColumns (_grid (board w)))) - 1) *
       Area.width (EntityVisual.occupiedArea (BoardGrid._board_cellVisualTemplate (_grid (board w))))
       + Dimensions.width d + (9 # 2) /\
    (EntityVisual.occupiedArea (BoardGrid._board_cellVisualTemplate (_grid (board w)))
     = engineOccupiedArea ->
     EntityVisual.occupiedArea (BoardGrid._cellVisualTemplate (_grid (board w)))
     = engineOccupiedArea ->
     193 # 2 < Dimensions.width d ->
     Entity.someOnTheBoard (_grid (board w)) enemy = Return false).
Proof.
  set (g := _grid (board w)) in *.
  destruct (spawned_enemy_shape w d Hg Hroad Hcols Hd Hrandom)
    as (row & enemy & _ & _ & Hspawn & Hshape & Hx & _).
  fold g in Hx. rewrite Hleft in Hx. unfold spawnColumn in Hx. cbn [Z.eqb] in Hx.
  unfold Z.sub in Hx. rewrite inject_Z_plus in Hx. change (inject_Z (- (1))) with (- (1)) in Hx.
  assert (Hleftedge : Area.left (Entity.occupiedArea enemy) == 2 + Point.x (Entity.position enemy)).
  { rewrite Hshape. reflexivity. }
  exists enemy. split; [exact Hspawn|]. split; [rewrite Hshape; reflexivity|].
  split; [rewrite Hleftedge; lra|].
  intros Hbt Ht Hwide. apply right_of_the_grid; [exact Hg | exact Ht | now rewrite Hshape |].
  rewrite Hbt in Hx. unfold engineOccupiedArea, Area.width in Hx.
  cbn [Area.dimensions Dimensions.width] in Hx. lra.
Qed.

Lemma spawn_left_starts_outside_witness :
  spawnDirection leftWorld = (-1)%Z /\
  exists enemy,
    Board.spawnEnemy leftWorld = (Return tt, spawned leftWorld enemy) /\
    Entity.someOnTheBoard (_grid (board leftWorld)) enemy = Return false.
Proof.
  assert (Hg : constructed (_grid (board leftWorld))) by reflexivity.
  assert (Hroad : In road (BoardGrid._rowTypes (_grid (board leftWorld)))) by (cbn; tauto).
  assert (Hcols : (1 <= BoardGrid.numberOfColumns (_grid (board leftWorld)))%nat) by (cbn; lia).
  assert (Hleft : spawnDirection leftWorld = (-1)%Z) by reflexivity.
  split; [exact Hleft|].
  destruct (spawn_left_starts_outside leftWorld (Dimensions.mk 101 171) Hg Hroad Hcols eq_refl
              zeros_ok Hleft) as (enemy & Hspawn & _ & _ & Hout).
  exists enemy. split; [exact Hspawn|]. apply Hout; reflexivity.
Defined.







(** ** The placing of the diamonds *)

Lemma cells_are_cellOf bt n types : forall r0 z0 cell,
  In cell (List.concat (BoardGrid.newRows bt n types r0 z0)) ->
  exists type z r c,
    cell = cellOf bt type z (Z.of_nat (r0 + r)) (Z.of_nat c) /\
    nth_error types r = Some type /\ (c < n)%nat.
Proof.
  induction types as [|t ts IH]; intros r0 z0 cell; cbn [BoardGrid.newRows List.concat];
    [intros []|].
  intros H. apply in_app_or in H. destruct H as [H|H].
  - unfold BoardGrid.newRow in H. apply in_map_iff in H. destruct H as (c & <- & Hc).
    apply in_seq in Hc. exists t, (z0 + Z.of_nat r0)%Z, 0%nat, c.
    rewrite Nat.add_0_r. split; [reflexivity|]. split; [reflexivity | lia].
  - destruct (IH _ _ _ H) as (type & z & r & c & -> & Hr & Hc).
    exists type, z, (S r), c. rewrite Nat.add_succ_r. split; [reflexivity|]. split; assumption.
Qed.

Lemma existsb_Zeqb_false (i : Z) (l : list Z) : ~ In i l -> existsb (Z.eqb i) l = false.
Proof.
  intros H. apply not_true_is_false. intros E. apply H.
  apply existsb_exists in E. destruct E as (j & Hj & Heq). apply Z.eqb_eq in Heq. now subst.
Qed.

(** The cells chosen from are road cells of the grid, and a diamond can be
    moved to each. *)
Lemma roadCell_reached (g : BoardGrid.t) (cell : Entity) (e : Entity) :
  constructed g ->
  In cell (roadCellsOf g) ->
  BoardGrid.typeOf cell = Some road /\
  exists gridPosition e',
    class cell = BoardGridCell_ road gridPosition /\
    Entity.moveToCell g e (GridPosition.row gridPosition) (GridPosition.column gridPosition)
    = Return e' /\
    e' = setPosition e (Entity.position e') /\
    Point.same (Area.center (Entity.occupiedArea e')) (Area.center (Entity.occupiedArea cell)).
Proof.
  intros Hg Hin. unfold roadCellsOf in Hin. apply filter_In in Hin. destruct Hin as [Hin Hroad].
  assert (Htype : BoardGrid.typeOf cell = Some road).
  { destruct (BoardGrid.typeOf cell) as [[| |]|]; try discriminate. reflexivity. }
  split; [exact Htype|].
  assert (Hcells : BoardGrid.cells g
                   = List.concat (BoardGrid.newRows (BoardGrid._board_cellVisualTemplate g)
                                    (BoardGrid._numberOfColumns g) (BoardGrid._rowTypes g) 0 0)).
  { unfold BoardGrid.cells. unfold constructed in Hg. rewrite Hg at 1. reflexivity. }
  rewrite Hcells in Hin.
  destruct (cells_are_cellOf _ _ _ _ _ _ Hin) as (type & z & r & c & -> & Hr & Hc).
  cbn [Nat.add] in *.
  assert (type = road) by (cbn in Htype; congruence). subst type.
  assert (Hcell : BoardGrid.hasCell g (Z.of_nat r) (Z.of_nat c) = true).
  { apply hasCell_iff. unfold BoardGrid.numberOfRows, BoardGrid.numberOfColumns.
    assert (r < List.length (BoardGrid._rowTypes g))%nat
      by (apply nth_error_Some; now rewrite Hr).
    lia. }
  destruct (getCell_hasCell g _ _ Hg Hcell) as (type' & z' & _ & Hget).
  destruct (moveToCell_centers g e _ _ _ Hget) as (e' & Hmove & Hfields & Hcentre).
  exists (GridPosition.mk (Z.of_nat r) (Z.of_nat c)), e'.
  split; [reflexivity|]. split; [exact Hmove|]. split; [exact Hfields | exact Hcentre].
Qed.

(** One turn of the loop on an index not drawn before. *)
Lemma placeDiamond_places (indices : list Z) (w : World) :
  constructed (_grid (board w)) ->
  (0 <= drawnIndex w 0 < Z.of_nat (List.length (roadCellsOf (_grid (board w)))))%Z ->
  ~ In (drawnIndex w 0) indices ->
  exists cell diamond,
    js_get (roadCellsOf (_grid (board w))) (drawnIndex w 0) = Some cell /\
    diamondOn cell diamond /\
    Board.placeDiamond (roadCellsOf (_grid (board w))) indices w
    = (Return (drawnIndex w 0 :: indices), placed w [diamond] 1).
Proof.
  intros Hg Hrange Hnew.
  destruct (js_get_inside _ _ Hrange) as [cell Hcell].
  assert (Hin : In cell (roadCellsOf (_grid (board w)))).
  { unfold js_get in Hcell. destruct (drawnIndex w 0 <? 0)%Z; [discriminate|].
    eapply nth_error_In; eassumption. }
  destruct (roadCell_reached _ cell (Diamond.new (Point.clone (Entity.position cell)) 1) Hg Hin)
    as (Htype & gridPosition & diamond & Hclass & Hmove & Hfields & Hcentre).
  exists cell, diamond. split; [exact Hcell|]. split; [split; [exact Htype|]; now split|].
  unfold Board.placeDiamond, randBetween, Math_random, ret, throw, getBoard, liftC, putBoard, bind.
  cbn [board random drawn].
  change (Qfloor (random w (drawn w) *
                  (inject_Z (Z.of_nat (List.length (roadCellsOf (_grid (board w))))) - 0 + 1) + 0))
    with (drawnIndex w 0).
  rewrite (existsb_Zeqb_false _ _ Hnew), Hcell, Hclass. cbn [board random drawn].
  rewrite Hmove. reflexivity.
Qed.

Lemma drawnIndex_next (w : World) (diamonds : list Entity) (k : nat) :
  drawnIndex (placed w diamonds 1) k = drawnIndex w (S k).
Proof.
  unfold drawnIndex, placed. cbn [board random drawn setEntities _grid Nat.add].
  now rewrite Nat.add_succ_r.
Qed.

Lemma placed_nil (w : World) : placed w [] 0 = w.
Proof.
  unfold placed. rewrite app_nil_r. destruct w as [b samples count]. now destruct b.
Qed.

Lemma placed_more (w : World) (diamond : Entity) (diamonds : list Entity) (turns : nat) :
  placed (placed w [diamond] 1) diamonds turns = placed w (diamond :: diamonds) (S turns).
Proof.
  unfold placed. cbn [board random drawn setEntities nonPlayerEntities].
  rewrite <- app_assoc. cbn [app Nat.add]. now rewrite Nat.add_succ_r.
Qed.

(** The loop, [turns] diamonds being left to place and the indices drawn
    on the next [turns] turns being new ones. *)
Lemma placeDiamondsLoop_places (count : nat) : forall turns fuel indices w,
  constructed (_grid (board w)) ->
  (turns <= fuel)%nat ->
  count = (List.length indices + turns)%nat ->
  (forall k, (k < turns)%nat ->
     (0 <= drawnIndex w k < Z.of_nat (List.length (roadCellsOf (_grid (board w)))))%Z) ->
  NoDup (map (drawnIndex w) (seq 0 turns)) ->
  (forall k, (k < turns)%nat -> ~ In (drawnIndex w k) indices) ->
  exists diamonds,
    Board.placeDiamondsLoop fuel count (roadCellsOf (_grid (board w))) indices w
    = Some (Return tt, placed w diamonds turns) /\
    List.length diamonds = turns /\
    forall k diamond, nth_error diamonds k = Some diamond ->
      exists cell,
        js_get (roadCellsOf (_grid (board w))) (drawnIndex w k) = Some cell /\
        diamondOn cell diamond.
Proof.
  induction turns as [|turns IH]; intros fuel indices w Hg Hfuel Hcount Hrange Hdistinct Hnew.
  - exists []. rewrite placed_nil. split; [|split; [reflexivity | intros [|k] ?; discriminate]].
    assert (Hdone : (List.length indices <? count)%nat = false) by (apply Nat.ltb_ge; lia).
    destruct fuel; cbn [Board.placeDiamondsLoop]; now rewrite Hdone.
  - destruct fuel as [|fuel]; [lia|].
    assert (Hgo : (List.length indices <? count)%nat = true) by (apply Nat.ltb_lt; lia).
    cbn [Board.placeDiamondsLoop]. rewrite Hgo.
    destruct (placeDiamond_places indices w Hg (Hrange 0%nat ltac:(lia)) (Hnew 0%nat ltac:(lia)))
      as (cell & diamond & Hcell & Hon & Hstep).
    rewrite Hstep.
    set (w1 := placed w [diamond] 1).
    assert (Hgrid : _grid (board w1) = _grid (board w)) by reflexivity.
    cbn [seq map] in Hdistinct. rewrite <- seq_shift, map_map in Hdistinct.
    apply NoDup_cons_iff in Hdistinct. destruct Hdistinct as [Hhead Htail].
    destruct (IH fuel (drawnIndex w 0 :: indices) w1) as (diamonds & Hloop & Hlen & Hall).
    + now rewrite Hgrid.
    + lia.
    + cbn [List.length]. lia.
    + intros k Hk. rewrite Hgrid. unfold w1. rewrite drawnIndex_next. apply Hrange. lia.
    + erewrite map_ext; [exact Htail|]. intros k. apply drawnIndex_next.
    + intros k Hk [Heq|Hin].
      * apply Hhead. apply in_map_iff. exists k. unfold w1 in Heq.
        rewrite drawnIndex_next in Heq. split; [now symmetry | apply in_seq; lia].
      * unfold w1 in Hin. rewrite drawnIndex_next in Hin. apply (Hnew (S k)); [lia | exact Hin].
    + exists (diamond :: diamonds). rewrite Hgrid in Hloop. rewrite Hloop. unfold w1.
      rewrite placed_more. split; [reflexivity|]. split; [cbn [List.length]; lia|].
      intros [|k] d Hd.
      * injection Hd as <-. exists cell. split; assumption.
      * cbn [nth_error] in Hd. destruct (Hall k d Hd) as (c & Hc & Hdc).
        exists c. rewrite Hgrid in Hc. unfold w1 in Hc. rewrite drawnIndex_next in Hc.
        split; assumption.
Qed.

Lemma distinct_indices_fit (f : nat -> Z) (count size : nat) :
  (forall k, (k < count)%nat -> (0 <= f k < Z.of_nat size)%Z) ->
  NoDup (map f (seq 0 count)) ->
  (count <= size)%nat.
Proof.
  intros Hrange Hdistinct.
  assert (Hincl : incl (map f (seq 0 count)) (map Z.of_nat (seq 0 size))).
  { intros i Hi. apply in_map_iff in Hi. destruct Hi as (k & <- & Hk). apply in_seq in Hk.
    apply in_map_iff. exists (Z.to_nat (f k)). specialize (Hrange k ltac:(lia)).
    split; [lia | apply in_seq; lia]. }
  apply NoDup_incl_length in Hincl; [|exact Hdistinct].
  now rewrite !length_map, !length_seq in Hincl.
Qed.

(** [placeDiamonds] on a board without a diamond, the indices drawn being
    indices of road cells and pairwise different. *)
Lemma placeDiamonds_general (fuel : nat) (w : World) :
  constructed (_grid (board w)) ->
  existsb Entity.instanceofDiamond (nonPlayerEntities (board w)) = false ->
  (numberOfDiamonds (board w) <= fuel)%nat ->
  (forall k, (k < numberOfDiamonds (board w))%nat ->
     (0 <= drawnIndex w k < Z.of_nat (List.length (roadCellsOf (_grid (board w)))))%Z) ->
  NoDup (map (drawnIndex w) (seq 0 (numberOfDiamonds (board w)))) ->
  exists diamonds,
    Board.placeDiamonds fuel w
    = Some (Return tt, placed w diamonds (numberOfDiamonds (board w))) /\
    List.length diamonds = numberOfDiamonds (board w) /\
    (forall k diamond, nth_error diamonds k = Some diamond ->
       exists cell,
         js_get (roadCellsOf (_grid (board w))) (drawnIndex w k) = Some cell /\
         diamondOn cell diamond).
Proof.
  intros Hg Hnone Hfuel Hrange Hdistinct.
  pose proof (distinct_indices_fit _ _ _ Hrange Hdistinct) as Hfit.
  destruct (placeDiamondsLoop_places (numberOfDiamonds (board w)) (numberOfDiamonds (board w))
              fuel [] w Hg Hfuel eq_refl Hrange Hdistinct (fun _ _ H => H))
    as (diamonds & Hloop & Hlen & Hall).
  exists diamonds. split; [|split; [exact Hlen | exact Hall]].
  unfold Board.placeDiamonds. rewrite Hnone. fold (roadCellsOf (_grid (board w))).
  assert (Henough : (List.length (roadCellsOf (_grid (board w))) <? numberOfDiamonds (board w))%nat
                    = false) by (apply Nat.ltb_ge; exact Hfit).
  rewrite Henough. exact Hloop.
Qed.

Lemma diamondOn_diamond (cell diamond : Entity) :
  diamondOn cell diamond -> Entity.instanceofDiamond diamond = true.
Proof. intros (_ & Hfields & _). rewrite Hfields. reflexivity. Qed.

(** X23: on a board without a diamond, the indices drawn on the first
    [numberOfDiamonds] turns being indices of road cells and pairwise
    different, [placeDiamonds] returns after those turns: it has appended
    one diamond for each, of score 1, removed when hit and centred on the
    road cell of the index drawn.  A second call then throws a TypeError,
    if a diamond was asked for. *)
Theorem placeDiamonds_places (fuel : nat) (w : World)
    (Hg : constructed (_grid (board w)))
    (Hnone : existsb Entity.instanceofDiamond (nonPlayerEntities (board w)) = false)
    (Hfuel : (numberOfDiamonds (board w) <= fuel)%nat)
    (Hrange : forall k, (k < numberOfDiamonds (board w))%nat ->
       (0 <= drawnIndex w k < Z.of_nat (List.length (roadCellsOf (_grid (board w)))))%Z)
    (Hdistinct : NoDup (map (drawnIndex w) (seq 0 (numberOfDiamonds (board w))))) :
  exists diamonds,
    Board.placeDiamonds fuel w
    = Some (Return tt, placed w diamonds (numberOfDiamonds (board w))) /\
    List.length diamonds = numberOfDiamonds (board w) /\
    (forall k diamond, nth_error diamonds k = Some diamond ->
       exists cell,
         js_get (roadCellsOf (_grid (board w))) (drawnIndex w k) = Some cell /\
         diamondOn cell diamond) /\
    ((1 <= numberOfDiamonds (board w))%nat ->
     forall fuel',
       Board.placeDiamonds fuel' (placed w diamonds (numberOfDiamonds (board w)))
       = Some (Throw TypeError, placed w diamonds (numberOfDiamonds (board w)))).
Proof.
  destruct (placeDiamonds_general fuel w Hg Hnone Hfuel Hrange Hdistinct)
    as (diamonds & Hrun & Hlen & Hall).
  exists diamonds. split; [exact Hrun|]. split; [exact Hlen|]. split; [exact Hall|].
  intros Hasked fuel'. unfold Board.placeDiamonds, placed.
  cbn [board nonPlayerEntities setEntities].
  rewrite existsb_app.
  destruct diamonds as [|diamond rest]; [cbn [List.length] in Hlen; lia|].
  destruct (Hall 0%nat diamond eq_refl) as (cell & _ & Hon).
  cbn [existsb]. rewrite (diamondOn_diamond _ _ Hon), orb_true_r. reflexivity.
Qed.

Lemma placeDiamonds_places_witness :
  exists diamonds,
    Board.placeDiamonds 2 placingWorld = Some (Return tt, placed placingWorld diamonds 2) /\
    List.length diamonds = 2%nat.
Proof.
  assert (Hg : constructed (_grid (board placingWorld))) by reflexivity.
  assert (Hnone : existsb Entity.instanceofDiamond (nonPlayerEntities (board placingWorld))
                  = false) by reflexivity.
  assert (Hfuel : (numberOfDiamonds (board placingWorld) <= 2)%nat) by (cbn; lia).
  assert (Hrange : forall k, (k < numberOfDiamonds (board placingWorld))%nat ->
            (0 <= drawnIndex placingWorld k
             < Z.of_nat (List.length (roadCellsOf (_grid (board placingWorld)))))%Z).
  { intros [|[|k]] Hk; [vm_compute; split; [discriminate | reflexivity] ..|].
    cbn [placingWorld board numberOfDiamonds] in Hk. lia. }
  assert (Hdistinct : NoDup (map (drawnIndex placingWorld)
                               (seq 0 (numberOfDiamonds (board placingWorld))))).
  { apply NoDup_cons; [intros [H|[]]; discriminate H|].
    apply NoDup_cons; [intros [] | apply NoDup_nil]. }
  destruct (placeDiamonds_places 2 placingWorld Hg Hnone Hfuel Hrange Hdistinct)
    as (diamonds & Hrun & Hlen & _).
  exists diamonds. split; [exact Hrun | exact Hlen].
Defined.

(** X24: [placeDiamonds] draws its indices from 0 to the number of road
    cells, that number included.  When a diamond is asked for and the first
    sample is so great that the index drawn is that number, the call throws
    a TypeError, one sample drawn and the board as it was. *)
Theorem placeDiamonds_past_the_end (fuel : nat) (w : World)
    (Hnone : existsb Entity.instanceofDiamond (nonPlayerEntities (board w)) = false)
    (Hasked : (1 <= numberOfDiamonds (board w)
               <= List.length (roadCellsOf (_grid (board w))))%nat)
    (Hsample : inject_Z (Z.of_nat (List.length (roadCellsOf (_grid (board w)))))
               <= random w (drawn w) *
                  (inject_Z (Z.of_nat (List.length (roadCellsOf (_grid (board w))))) + 1)
               /\ random w (drawn w) < 1) :
  Board.placeDiamonds (S fuel) w
  = Some (Throw TypeError, mkWorld (board w) (random w) (S (drawn w))).
Proof.
  set (size := List.length (roadCellsOf (_grid (board w)))) in *.
  assert (Hindex : drawnIndex w 0 = Z.of_nat size).
  { unfold drawnIndex. cbn [Nat.add]. fold size.
    pose proof (columns_not_negative size) as Hsize. destruct Hsample as [Hlow Hhigh].
    assert (H : (Z.of_nat size <= Qfloor (random w (drawn w) *
                                          (inject_Z (Z.of_nat size) - 0 + 1) + 0)
                 <= Z.of_nat size)%Z) by (apply Qfloor_between; nra).
    lia. }
  unfold Board.placeDiamonds. rewrite Hnone. fold (roadCellsOf (_grid (board w))). fold size.
  assert (Henough : (size <? numberOfDiamonds (board w))%nat = false)
    by (apply Nat.ltb_ge; lia).
  rewrite Henough. cbn [Board.placeDiamondsLoop List.length].
  assert (Hgo : (0 <? numberOfDiamonds (board w))%nat = true) by (apply Nat.ltb_lt; lia).
  rewrite Hgo.
  unfold Board.placeDiamond, randBetween, Math_random, ret, throw, getBoard, liftC, putBoard, bind.
  cbn [board random drawn existsb].
  change (Qfloor (random w (drawn w) *
                  (inject_Z (Z.of_nat (List.length (roadCellsOf (_grid (board w))))) - 0 + 1) + 0))
    with (drawnIndex w 0).
  rewrite Hindex, js_get_outside; [reflexivity|]. right. unfold size. lia.
Qed.

Lemma placeDiamonds_past_the_end_witness :
  Board.placeDiamonds 1 pastTheEndWorld
  = Some (Throw TypeError,
          mkWorld (board pastTheEndWorld) (random pastTheEndWorld) (S (drawn pastTheEndWorld))).
Proof.
  assert (Hnone : existsb Entity.instanceofDiamond (nonPlayerEntities (board pastTheEndWorld))
                  = false) by reflexivity.
  assert (Hasked : (1 <= numberOfDiamonds (board pastTheEndWorld)
                    <= List.length (roadCellsOf (_grid (board pastTheEndWorld))))%nat)
    by (cbn; lia).
  assert (Hsample :
            inject_Z (Z.of_nat (List.length (roadCellsOf (_grid (board pastTheEndWorld)))))
            <= random pastTheEndWorld (drawn pastTheEndWorld) *
               (inject_Z (Z.of_nat (List.length (roadCellsOf (_grid (board pastTheEndWorld))))) + 1)
            /\ random pastTheEndWorld (drawn pastTheEndWorld) < 1)
    by (split; [vm_compute; discriminate | reflexivity]).
  exact (placeDiamonds_past_the_end 0 pastTheEndWorld Hnone Hasked Hsample).
Defined.

(** ** The player and the cells *)

Lemma cellOf_occupiedArea bt type z row column :
  EntityVisual.occupiedArea bt = engineOccupiedArea ->
  Entity.occupiedArea (cellOf bt type z row column)
  = Area.mk (Point.mk (0 + inject_Z column * 101) (52 + inject_Z row * 83))
            (Dimensions.mk 101 83).
Proof.
  intros H. unfold Entity.occupiedArea, cellOf, BoardGridCell.placeInGrid, BoardGridCell.new,
    BoardGridCell.calculateCellPosition, setPosition, setClass, Area.offset, Point.offset,
    Dimensions.clone.
  cbn [class _visual _position EntityVisual.occupiedArea Area.position Area.dimensions
       Point.x Point.y Dimensions.width Dimensions.height].
  rewrite H. reflexivity.
Qed.

Lemma player_occupiedArea (e : Entity) :
  EntityVisual.occupiedArea (_visual e) = playerOccupiedArea ->
  Entity.occupiedArea e
  = Area.mk (Point.mk (34 + Point.x (_position e)) (120 + Point.y (_position e)))
            (Dimensions.mk 34 20).
Proof.
  intros H. unfold Entity.occupiedArea, Area.offset, Point.offset, Dimensions.clone.
  rewrite H. reflexivity.
Qed.

(** A cell that [getCell] returns is a cell that [hasCell] knows. *)
Lemma getCell_some_hasCell (g : BoardGrid.t) (row column : Z) (cell : Entity) :
  constructed g ->
  BoardGrid.getCell g row column = Return (Some cell) ->
  BoardGrid.hasCell g row column = true.
Proof.
  intros Hg Hget. destruct (BoardGrid.hasCell g row column) eqn:E; [reflexivity|].
  exfalso. apply hasCell_false_iff in E.
  destruct (Z_le_dec 0 row) as [H0|H0], (Z_lt_dec row (Z.of_nat (BoardGrid.numberOfRows g)))
    as [H1|H1];
    try (rewrite getCell_row_outside in Hget; [discriminate | exact Hg | lia]).
  rewrite getCell_column_outside in Hget; [discriminate | exact Hg | lia | lia].
Qed.

Lemma next_integer (m n : Z) : (m < n)%Z -> inject_Z m + 1 <= inject_Z n.
Proof.
  intros H. change 1 with (inject_Z 1). rewrite <- inject_Z_plus, <- Zle_Qle. lia.
Qed.

(** X25: on a grid with the cell geometry of the engine, a player centred
    on the cell of its grid position touches that cell and no other cell of
    the grid. *)
Theorem player_touches_its_cell_only (g : BoardGrid.t) (p : Player) (row column : Z)
    (Hg : constructed g)
    (Hbt : EntityVisual.occupiedArea (BoardGrid._board_cellVisualTemplate g) = engineOccupiedArea)
    (Hvisual : EntityVisual.occupiedArea (_visual (super p)) = playerOccupiedArea)
    (Hon : centredOnItsCell g p)
    (Hcell : BoardGrid.hasCell g row column = true) :
  exists cell,
    BoardGrid.getCell g row column = Return (Some cell) /\
    Entity.touches (super p) cell
    = Return ((row =? GridPosition.row (_gridPosition p))%Z &&
              (column =? GridPosition.column (_gridPosition p))%Z).
Proof.
  destruct Hon as (cell0 & Hget0 & Hcentre).
  pose proof (getCell_some_hasCell g _ _ _ Hg Hget0) as Hcell0.
  destruct (getCell_hasCell g _ _ Hg Hcell0) as (type0 & z0 & _ & Hget0').
  rewrite Hget0 in Hget0'. injection Hget0' as ->.
  destruct (getCell_hasCell g _ _ Hg Hcell) as (type & z & _ & Hget).
  eexists. split; [exact Hget|]. rewrite touches_returns. f_equal.
  set (prow := GridPosition.row (_gridPosition p)) in *.
  set (pcolumn := GridPosition.column (_gridPosition p)) in *.
  rewrite (cellOf_occupiedArea _ type0 z0 prow pcolumn Hbt),
    (player_occupiedArea _ Hvisual) in Hcentre.
  rewrite (cellOf_occupiedArea _ type z row column Hbt), (player_occupiedArea _ Hvisual).
  destruct Hcentre as [Hx Hy]. unfold Area.center in Hx, Hy.
  cbn [Area.position Area.dimensions Point.x Point.y Dimensions.width Dimensions.height] in Hx, Hy.
  assert (E1 : 34 / 2 == 17) by reflexivity.
  assert (E2 : 101 / 2 == 101 # 2) by reflexivity.
  assert (E3 : 20 / 2 == 10) by reflexivity.
  assert (E4 : 83 / 2 == 83 # 2) by reflexivity.
  rewrite E1, E2 in Hx. rewrite E3, E4 in Hy.
  match goal with |- Area.intersectsArea ?a ?b = _ => set (pa := a); set (ca := b) end.
  assert (Hpa : Geometry.nonNegative pa) by (split; discriminate).
  assert (Hca : Geometry.nonNegative ca) by (split; discriminate).
  destruct (Z.eq_dec row prow) as [Hr|Hr], (Z.eq_dec column pcolumn) as [Hc|Hc].
  - subst row column. rewrite !Z.eqb_refl. cbn [andb].
    unfold Area.intersectsArea. apply orb_true_iff. right.
    apply fits_corner_inside; [exact Hpa | split; discriminate |].
    unfold Geometry.overlap, pa, ca, Area.left, Area.right, Area.top, Area.bottom, Area.topLeft,
      Area.topRight, Area.bottomLeft, Point.clone.
    cbn [Area.position Area.dimensions Point.x Point.y Dimensions.width Dimensions.height].
    repeat split; lra.
  - apply Z.eqb_neq in Hc as Hc'. rewrite Hc', andb_false_r.
    destruct (Area.intersectsArea pa ca) eqn:E; [exfalso | reflexivity].
    apply intersectsArea_overlap in E; [|exact Hpa | exact Hca].
    revert E.
    unfold Geometry.overlap, pa, ca, Area.left, Area.right, Area.top, Area.bottom, Area.topLeft,
      Area.topRight, Area.bottomLeft, Point.clone.
    cbn [Area.position Area.dimensions Point.x Point.y Dimensions.width Dimensions.height].
    intros (H1 & H2 & _).
    destruct (Z_lt_dec column pcolumn) as [Hlt|Hge].
    + pose proof (next_integer _ _ Hlt). lra.
    + assert (Hgt : (pcolumn < column)%Z) by lia. pose proof (next_integer _ _ Hgt). lra.
  - apply Z.eqb_neq in Hr as Hr'. rewrite Hr'. cbn [andb].
    destruct (Area.intersectsArea pa ca) eqn:E; [exfalso | reflexivity].
    apply intersectsArea_overlap in E; [|exact Hpa | exact Hca].
    revert E.
    unfold Geometry.overlap, pa, ca, Area.left, Area.right, Area.top, Area.bottom, Area.topLeft,
      Area.topRight, Area.bottomLeft, Point.clone.
    cbn [Area.position Area.dimensions Point.x Point.y Dimensions.width Dimensions.height].
    intros (_ & _ & H3 & H4).
    destruct (Z_lt_dec row prow) as [Hlt|Hge].
    + pose proof (next_integer _ _ Hlt). lra.
    + assert (Hgt : (prow < row)%Z) by lia. pose proof (next_integer _ _ Hgt). lra.
  - apply Z.eqb_neq in Hr as Hr'. rewrite Hr'. cbn [andb].
    destruct (Area.intersectsArea pa ca) eqn:E; [exfalso | reflexivity].
    apply intersectsArea_overlap in E; [|exact Hpa | exact Hca].
    revert E.
    unfold Geometry.overlap, pa, ca, Area.left, Area.right, Area.top, Area.bottom, Area.topLeft,
      Area.topRight, Area.bottomLeft, Point.clone.
    cbn [Area.position Area.dimensions Point.x Point.y Dimensions.width Dimensions.height].
    intros (_ & _ & H3 & H4).
    destruct (Z_lt_dec row prow) as [Hlt|Hge].
    + pose proof (next_integer _ _ Hlt). lra.
    + assert (Hgt : (prow < row)%Z) by lia. pose proof (next_integer _ _ Hgt). lra.
Qed.

Lemma player_touches_its_cell_only_witness :
  centredOnItsCell smallGrid smallGridPlayer /\
  (exists cell,
     BoardGrid.getCell smallGrid 1 1 = Return (Some cell) /\
     Entity.touches (super smallGridPlayer) cell = Return true) /\
  (exists cell,
     BoardGrid.getCell smallGrid 0 1 = Return (Some cell) /\
     Entity.touches (super smallGridPlayer) cell = Return false).
Proof.
  assert (Hg : constructed smallGrid) by reflexivity.
  assert (Hon : centredOnItsCell smallGrid smallGridPlayer).
  { eexists. split; [reflexivity|]. split; reflexivity. }
  split; [exact Hon|]. split.
  - exact (player_touches_its_cell_only smallGrid smallGridPlayer 1 1 Hg eq_refl eq_refl Hon
             eq_refl).
  - exact (player_touches_its_cell_only smallGrid smallGridPlayer 0 1 Hg eq_refl eq_refl Hon
             eq_refl).
Defined.

(** X26: when, in the pass of [update], the player touches the water cell
    found at [index], the turn of the loop for that cell returns: the score
    of the cell is added to the score of the player and the player is
    respawned with that score at the start position, centred on the cell
    there.  The entities, the grid and the samples are left as they
    were. *)
Theorem water_hit_respawns_player (globalBoard : option Board) (dt : Q) (w : World)
    (index : nat) (cell : Entity) (p : Player)
    (Hg : constructed (_grid (board w)))
    (Hroad : In road (BoardGrid._rowTypes (_grid (board w))))
    (Hcols : (1 <= BoardGrid.numberOfColumns (_grid (board w)))%nat)
    (Hplayer : player (board w) = Some p)
    (Hat : nth_error (nonPlayerEntities (board w)) index = Some cell)
    (Hwater : isWaterCell cell = true)
    (Hstays : removeOnHit cell = false)
    (Htouch : Entity.touches (super p) cell = Return true) :
  exists w' fresh,
    Board.updateEntity globalBoard dt index w = (Return tt, w') /\
    player (board w')
    = Some (mkPlayer (super fresh) (_gridPosition fresh) (score p + hitScoreIncrement cell)) /\
    _gridPosition fresh = playerStartPosition (_grid (board w)) /\
    centredOnItsCell (_grid (board w)) fresh /\
    nonPlayerEntities (board w') = nonPlayerEntities (board w) /\
    sameSetup (board w) (board w') /\
    random w' = random w /\ drawn w' = drawn w.
Proof.
  assert (Hclass : Entity.instanceofEnemy cell = false).
  { unfold isWaterCell in Hwater. unfold Entity.instanceofEnemy.
    destruct (class cell); try discriminate. reflexivity. }
  destruct (Player_new_returns _ Hg Hroad Hcols) as (fresh & Hnew & Hstart & _ & Hon).
  set (w1 := afterHit w p index cell).
  assert (Hw1 : w1 = mkWorld (setPlayer (board w) (scored p (hitScoreIncrement cell)))
                             (random w) (drawn w)).
  { unfold w1, afterHit. now rewrite Hstays. }
  destruct (respawnPlayer_returns w1 (scored p (hitScoreIncrement cell)))
    as (fresh' & Hnew' & Hrespawn);
    [rewrite Hw1; exact Hg | rewrite Hw1; exact Hroad | rewrite Hw1; exact Hcols
    | rewrite Hw1; reflexivity |].
  assert (fresh' = fresh).
  { rewrite Hw1 in Hnew'. cbn [board setPlayer _grid] in Hnew'. congruence. }
  subst fresh'.
  eexists _, fresh. split.
  { rewrite (updateEntity_unfold globalBoard dt index w p _ Hplayer Hat).
    rewrite touches_returns in Htouch. injection Htouch as ->.
    rewrite (hit_other w index cell p Hplayer Hclass), Hwater. fold w1.
    rewrite Hrespawn, Hclass. reflexivity. }
  rewrite Hw1. cbn [board random drawn player nonPlayerEntities setPlayer scored score].
  split; [reflexivity|]. split; [exact Hstart|]. split; [exact Hon|].
  split; [reflexivity|]. split; [split; reflexivity|]. split; reflexivity.
Qed.

Lemma water_hit_respawns_player_witness :
  Entity.touches (super waterPlayer) (cellOf engineTemplate water 0 0 1) = Return true /\
  exists w' fresh,
    Board.updateEntity None (1 # 60) 1 waterWorld = (Return tt, w') /\
    player (board w') = Some (mkPlayer (super fresh) (_gridPosition fresh) (5 + 2)) /\
    _gridPosition fresh = GridPosition.mk 2 1.
Proof.
  assert (Hg : constructed (_grid (board waterWorld))) by reflexivity.
  assert (Hroad : In road (BoardGrid._rowTypes (_grid (board waterWorld)))) by (cbn; tauto).
  assert (Hcols : (1 <= BoardGrid.numberOfColumns (_grid (board waterWorld)))%nat)
    by (cbn; lia).
  assert (Htouch : Entity.touches (super waterPlayer) (cellOf engineTemplate water 0 0 1)
                   = Return true) by reflexivity.
  split; [exact Htouch|].
  destruct (water_hit_respawns_player None (1 # 60) waterWorld 1
              (cellOf engineTemplate water 0 0 1) waterPlayer
              Hg Hroad Hcols eq_refl eq_refl eq_refl eq_refl Htouch)
    as (w' & fresh & Hrun & Hplayer & Hstart & _).
  exists w', fresh. split; [exact Hrun|]. split; [exact Hplayer|].
  rewrite Hstart. reflexivity.
Defined.

(** ** What a pass leaves on the board *)

Lemma lasting_enemy (e : Entity) : Entity.instanceofEnemy e = true -> lasting e = false.
Proof. unfold lasting. now intros ->. Qed.

Lemma keepsLasting_same (w w' : World) :
  filter lasting (nonPlayerEntities (board w')) = filter lasting (nonPlayerEntities (board w)) ->
  keepsLasting w w'.
Proof. intros H. exists []. rewrite app_nil_r. split; [exact H | constructor]. Qed.

Lemma keepsLasting_trans (w w1 w2 : World) :
  keepsLasting w w1 -> keepsLasting w1 w2 -> keepsLasting w w2.
Proof.
  intros (more1 & H1 & Hb1) (more2 & H2 & Hb2). exists (more1 ++ more2).
  split; [rewrite H2, H1; now rewrite app_assoc | now apply Forall_app].
Qed.

Lemma afterHit_lasting (w : World) (p : Player) (index : nat) (entity : Entity) :
  nth_error (nonPlayerEntities (board w)) index = Some entity ->
  filter lasting (nonPlayerEntities (board (afterHit w p index entity)))
  = filter lasting (nonPlayerEntities (board w)).
Proof.
  intros Hn. unfold afterHit. destruct (removeOnHit entity) eqn:Hr;
    cbn [board nonPlayerEntities setPlayer setEntities]; [|reflexivity].
  apply (filter_splice1_false _ _ _ _ Hn). unfold lasting. rewrite Hr. apply andb_false_r.
Qed.

Lemma hit_keeps (w : World) (index : nat) (entity : Entity) (p : Player) (w1 : World) :
  boardOK (board w) ->
  player (board w) = Some p ->
  nth_error (nonPlayerEntities (board w)) index = Some entity ->
  Board.hit index entity w = (Return tt, w1) ->
  keepsLasting w w1.
Proof.
  intros Hok Hp Hn Hrun.
  destruct (Entity.instanceofEnemy entity) eqn:He.
  - destruct Hok as (Hg & Hroad & Hcols & Hpl & Hstay & Hdims).
    assert (Hr : removeOnHit entity = false).
    { unfold enemiesStay in Hstay. rewrite Forall_forall in Hstay.
      apply Hstay; [eapply nth_error_In; eassumption | exact He]. }
    destruct Hdims as [Hc|Hd]; [now apply enemy_counted in Hn|].
    destruct (EntityVisual.dimensions (BoardGrid.cellVisualTemplate (_grid (board w))))
      as [d|] eqn:Ed; [|congruence].
    assert (Hclass : exists moveIncrement flag, class entity = Enemy_ moveIncrement flag).
    { unfold Entity.instanceofEnemy in He. destruct (class entity); try discriminate; eauto. }
    destruct Hclass as (moveIncrement & flag & Hclass).
    destruct (hit_enemy w index entity _ _ p d Hg Hroad Hcols Ed Hp Hclass Hr)
      as (fresh & _ & Hhit).
    rewrite Hhit in Hrun. injection Hrun as <-.
    exists [bloodOf p (vx moveIncrement) d].
    cbn [board nonPlayerEntities setPlayer setEntities]. rewrite filter_app.
    split; [reflexivity | constructor; [reflexivity | constructor]].
  - rewrite (hit_other w index entity p Hp He) in Hrun.
    apply keepsLasting_same. rewrite <- (afterHit_lasting w p index entity Hn).
    destruct (isWaterCell entity); [|now injection Hrun as <-].
    destruct (stepOK_afterHit w p index entity Hok Hn He) as ((_ & _ & Hok' & _) & _ & Hplayer).
    destruct Hok' as (Hg & Hroad & Hcols & _).
    destruct (respawnPlayer_returns _ _ Hg Hroad Hcols Hplayer) as (fresh & _ & Hre).
    rewrite Hre in Hrun. now injection Hrun as <-.
Qed.

Lemma updateEnemy_keeps (globalBoard : option Board) (dt : Q) (w : World) (index : nat)
    (entity : Entity) (w2 : World) :
  boardOK (board w) ->
  randomOK (random w) ->
  nth_error (nonPlayerEntities (board w)) index = Some entity ->
  Entity.instanceofEnemy entity = true ->
  Board.updateEnemy globalBoard dt index entity false w = (Return tt, w2) ->
  filter lasting (nonPlayerEntities (board w2)) = filter lasting (nonPlayerEntities (board w)).
Proof.
  intros Hok Hrandom Hn He Hrun.
  pose proof Hok as (Hg & Hroad & Hcols & Hpl & Hstay & Hdims).
  destruct Hdims as [Hc|Hd]; [now apply enemy_counted in Hn|].
  destruct (EntityVisual.dimensions (BoardGrid.cellVisualTemplate (_grid (board w))))
    as [d|] eqn:Ed; [|congruence].
  assert (Hclass : exists moveIncrement flag, class entity = Enemy_ moveIncrement flag).
  { unfold Entity.instanceofEnemy in He. destruct (class entity); try discriminate; eauto. }
  destruct Hclass as (moveIncrement & flag & Hclass).
  destruct (updateEnemy_attached globalBoard dt w index entity _ _ Hclass)
    as (e' & flag' & _ & Hclass' & _ & Hupdate).
  assert (He' : Entity.instanceofEnemy e' = true)
    by (unfold Entity.instanceofEnemy; now rewrite Hclass').
  rewrite Hupdate in Hrun. destruct flag'.
  - set (ws := mkWorld (setEntities (board w) (splice1 (nonPlayerEntities (board w)) index))
                       (random w) (drawn w)) in *.
    destruct (spawnEnemy_general ws d Hg Hroad Hcols Ed Hrandom) as (enemy & Hspawn & Hen & _).
    rewrite Hspawn in Hrun. injection Hrun as <-.
    unfold spawned, ws. cbn [board nonPlayerEntities setEntities].
    rewrite filter_app. cbn [filter]. rewrite (lasting_enemy _ Hen), app_nil_r.
    apply (filter_splice1_false _ _ _ _ Hn), lasting_enemy, He.
  - injection Hrun as <-. cbn [board nonPlayerEntities setEntities].
    apply (filter_js_set_false _ _ _ _ _ Hn); now apply lasting_enemy.
Qed.

Lemma updateEntity_keeps (globalBoard : option Board) (dt : Q) (index : nat) (w w' : World) :
  boardOK (board w) ->
  randomOK (random w) ->
  (index < List.length (nonPlayerEntities (board w)))%nat ->
  Board.updateEntity globalBoard dt index w = (Return tt, w') ->
  keepsLasting w w'.
Proof.
  intros Hok Hrandom Hindex Hrun.
  destruct (player (board w)) as [p|] eqn:Hp; [|now destruct Hok as (_ & _ & _ & Hpl & _)].
  destruct (nth_error (nonPlayerEntities (board w)) index) as [entity|] eqn:Hn;
    [|apply nth_error_None in Hn; lia].
  rewrite (updateEntity_unfold globalBoard dt index w p entity Hp Hn) in Hrun.
  set (touched := Area.intersectsArea _ _) in Hrun.
  assert (Hhit : exists w1,
             (if touched then Board.hit index entity else ret tt) w = (Return tt, w1) /\
             stepOK index w w1 /\ keepsLasting w w1 /\
             (Entity.instanceofEnemy entity = true ->
              nth_error (nonPlayerEntities (board w1)) index = Some entity)).
  { destruct touched.
    - destruct (hit_general w index entity p Hok Hp Hn) as (w1 & H1 & _ & H2 & H3).
      exists w1. split; [exact H1|]. split; [exact H2|]. split; [|exact H3].
      exact (hit_keeps w index entity p w1 Hok Hp Hn H1).
    - exists w. split; [reflexivity|]. split; [now apply stepOK_refl|].
      split; [now apply keepsLasting_same | intros _; exact Hn]. }
  destruct Hhit as (w1 & Hhit & Hstep & Hkeeps & Hstill). rewrite Hhit in Hrun.
  destruct (Entity.instanceofEnemy entity) eqn:He; [|now injection Hrun as <-].
  assert (Hr : removeOnHit entity = false).
  { destruct Hok as (_ & _ & _ & _ & Hstay & _).
    unfold enemiesStay in Hstay. rewrite Forall_forall in Hstay.
    apply Hstay; [eapply nth_error_In; eassumption | exact He]. }
  rewrite Hr, andb_false_r in Hrun.
  pose proof Hstep as (Hr1 & _ & Hok1 & _).
  assert (Hrandom1 : randomOK (random w1)) by (now rewrite Hr1).
  eapply keepsLasting_trans; [exact Hkeeps|]. apply keepsLasting_same.
  exact (updateEnemy_keeps globalBoard dt w1 index entity w' Hok1 Hrandom1 (Hstill eq_refl) He
           Hrun).
Qed.

Lemma updateFrom_keeps (globalBoard : option Board) (dt : Q) (count : nat) : forall w w',
  boardOK (board w) ->
  randomOK (random w) ->
  (count <= List.length (nonPlayerEntities (board w)))%nat ->
  Board.updateFrom globalBoard dt count w = (Return tt, w') ->
  keepsLasting w w'.
Proof.
  induction count as [|index IH]; intros w w' Hok Hrandom Hcount Hrun.
  - injection Hrun as <-. now apply keepsLasting_same.
  - destruct (updateEntity_general globalBoard dt index w Hok Hrandom) as (w1 & Hrun1 & Hstep);
      [lia|].
    cbn [Board.updateFrom] in Hrun. unfold bind in Hrun. rewrite Hrun1 in Hrun.
    pose proof Hstep as (Hr1 & _ & Hok1 & _ & Hbelow).
    eapply keepsLasting_trans.
    + apply (updateEntity_keeps globalBoard dt index w w1 Hok Hrandom); [lia | exact Hrun1].
    + apply (IH w1 w' Hok1); [now rewrite Hr1 | | exact Hrun].
      apply (sameBelow_length index (board w)); [exact Hbelow | lia].
Qed.

(** X27: a pass of [update] over a board as the constructor leaves it
    returns and removes none of the entities that are neither enemies nor
    removed when hit: the cells and the blood props stay, in their order,
    and what the pass adds to them are blood props. *)
Theorem update_keeps_lasting (globalBoard : option Board) (dt : Q) (w : World)
    (Hok : boardOK (board w)) (Hrandom : randomOK (random w)) :
  exists w' more,
    Board.update globalBoard dt w = (Return tt, w') /\
    filter lasting (nonPlayerEntities (board w'))
    = filter lasting (nonPlayerEntities (board w)) ++ more /\
    Forall (fun e => isBlood e = true) more.
Proof.
  destruct (updateFrom_general globalBoard dt (List.length (nonPlayerEntities (board w))) w
              Hok Hrandom (Nat.le_refl _)) as (w' & Hrun & _).
  destruct (updateFrom_keeps globalBoard dt _ w w' Hok Hrandom (Nat.le_refl _) Hrun)
    as (more & Hmore & Hblood).
  exists w', more. split; [exact Hrun|]. split; [exact Hmore | exact Hblood].
Qed.

Lemma update_keeps_lasting_witness :
  boardOK (board enemyWorld) /\
  exists w' more,
    Board.update None (1 # 10) enemyWorld = (Return tt, w') /\
    filter lasting (nonPlayerEntities (board w'))
    = filter lasting (nonPlayerEntities (board enemyWorld)) ++ more.
Proof.
  assert (Hok : boardOK (board enemyWorld)).
  { apply smallBoard_ok. constructor; [intros _; reflexivity | constructor]. }
  split; [exact Hok|].
  destruct (update_keeps_lasting None (1 # 10) enemyWorld Hok halves_ok)
    as (w' & more & Hrun & Hmore & _).
  exists w', more. split; [exact Hrun | exact Hmore].
Defined.

(** ** Respawning *)

Lemma Player_new_on_grid (g : BoardGrid.t) :
  constructed g ->
  (1 <= BoardGrid.numberOfRows g)%nat -> (1 <= BoardGrid.numberOfColumns g)%nat ->
  exists p,
    Player.new g = Return p /\
    p = mkPlayer (super p) (playerStartPosition g) 0 /\
    centredOnItsCell g p.
Proof.
  intros Hg Hrows Hcols.
  destruct (getCell_hasCell g _ _ Hg (start_hasCell_rows g Hrows Hcols))
    as (type & z & _ & Hget).
  unfold Player.new.
  match goal with |- context [Entity.moveToCell g ?e _ _] =>
    destruct (moveToCell_centers g e _ _ _ Hget) as (e' & Hmove & _ & Hcentre) end.
  rewrite Hmove. cbn [bindC].
  eexists. split; [reflexivity|]. split; [reflexivity|].
  unfold centredOnItsCell. cbn [_gridPosition super]. eauto.
Qed.

(** X28: [respawnPlayer] on a board with a cell and a player returns and
    leaves as player a new one, centred on the start cell: with the score
    of the player before if [keepScore] is true, with the score 0 if it is
    false.  Nothing else of the board changes.  On a board the player of
    which is not set it throws a TypeError. *)
Theorem respawnPlayer_score (keepScore : bool) (w : World)
    (Hg : constructed (_grid (board w)))
    (Hrows : (1 <= BoardGrid.numberOfRows (_grid (board w)))%nat)
    (Hcols : (1 <= BoardGrid.numberOfColumns (_grid (board w)))%nat) :
  (forall p, player (board w) = Some p ->
     exists fresh,
       Player.new (_grid (board w)) = Return fresh /\
       Board.respawnPlayer keepScore w
       = (Return tt,
          mkWorld (setPlayer (board w)
                     (mkPlayer (super fresh) (playerStartPosition (_grid (board w)))
                               (if keepScore then score p else 0)))
                  (random w) (drawn w)) /\
       centredOnItsCell (_grid (board w)) fresh) /\
  (player (board w) = None -> Board.respawnPlayer keepScore w = (Throw TypeError, w)).
Proof.
  split.
  - intros p Hp.
    destruct (Player_new_on_grid _ Hg Hrows Hcols) as (fresh & Hnew & Hfields & Hon).
    exists fresh. split; [exact Hnew|]. split; [|exact Hon].
    unfold Board.respawnPlayer, getBoard, liftC, putBoard, bind.
    rewrite Hp. cbn [board]. rewrite Hnew.
    destruct keepScore; [rewrite Hfields | rewrite Hfields at 1]; reflexivity.
  - intros Hp. unfold Board.respawnPlayer, getBoard, throw, bind. now rewrite Hp.
Qed.

Lemma respawnPlayer_score_witness :
  exists fresh,
    Board.respawnPlayer false waterWorld
    = (Return tt,
       mkWorld (setPlayer (board waterWorld) (mkPlayer (super fresh) (GridPosition.mk 2 1) 0))
               (random waterWorld) (drawn waterWorld)).
Proof.
  assert (Hg : constructed (_grid (board waterWorld))) by reflexivity.
  assert (Hrows : (1 <= BoardGrid.numberOfRows (_grid (board waterWorld)))%nat) by (cbn; lia).
  assert (Hcols : (1 <= BoardGrid.numberOfColumns (_grid (board waterWorld)))%nat)
    by (cbn; lia).
  destruct (proj1 (respawnPlayer_score false waterWorld Hg Hrows Hcols) waterPlayer eq_refl)
    as (fresh & _ & Hrun & _).
  exists fresh. exact Hrun.
Defined.

Lemma placed_placed (w : World) (first rest : list Entity) (draws draws' : nat) :
  placed (placed w first draws) rest draws' = placed w (first ++ rest) (draws' + draws).
Proof.
  unfold placed. cbn [board random drawn setEntities nonPlayerEntities].
  now rewrite <- app_assoc, Nat.add_assoc.
Qed.

(** [count] calls of [spawnEnemy] append [count] enemies and draw three
    samples for each. *)
Lemma spawnEnemies_appends (d : Dimensions.t) (count : nat) : forall w,
  constructed (_grid (board w)) ->
  In road (BoardGrid._rowTypes (_grid (board w))) ->
  (1 <= BoardGrid.numberOfColumns (_grid (board w)))%nat ->
  EntityVisual.dimensions (BoardGrid.cellVisualTemplate (_grid (board w))) = Some d ->
  randomOK (random w) ->
  exists enemies,
    Board.spawnEnemies count w = (Return tt, placed w enemies (3 * count)) /\
    List.length enemies = count /\
    Forall (fun e => Entity.instanceofEnemy e = true /\ removeOnHit e = false) enemies.
Proof.
  induction count as [|count IH]; intros w Hg Hroad Hcols Hd Hrandom.
  - exists []. cbn [Board.spawnEnemies Nat.mul]. rewrite placed_nil.
    split; [reflexivity|]. split; [reflexivity | constructor].
  - destruct (spawnEnemy_general w d Hg Hroad Hcols Hd Hrandom) as (enemy & Hspawn & He & Hr).
    change (spawned w enemy) with (placed w [enemy] 3) in Hspawn.
    destruct (IH (placed w [enemy] 3) Hg Hroad Hcols Hd Hrandom) as (enemies & Hrun & Hlen & Hall).
    exists (enemy :: enemies). split; [|split; [cbn [List.length]; lia | now constructor]].
    cbn [Board.spawnEnemies]. unfold bind. rewrite Hspawn, Hrun, placed_placed.
    assert (E : (3 * count + 3 = 3 * S count)%nat) by lia.
    rewrite E. reflexivity.
Qed.

Lemma filter_noEnemy_enemies (entities : list Entity) :
  filter Entity.instanceofEnemy (filter noEnemy entities) = [].
Proof.
  induction entities as [|e l IH]; [reflexivity|]. cbn [filter]. unfold noEnemy at 1.
  destruct (Entity.instanceofEnemy e) eqn:E; cbn [negb filter]; [exact IH|]. now rewrite E.
Qed.

(** [respawnEnemies] on a board on which enemies can be spawned. *)
Lemma respawnEnemies_general (w : World) (d : Dimensions.t) :
  constructed (_grid (board w)) ->
  In road (BoardGrid._rowTypes (_grid (board w))) ->
  (1 <= BoardGrid.numberOfColumns (_grid (board w)))%nat ->
  EntityVisual.dimensions (BoardGrid.cellVisualTemplate (_grid (board w))) = Some d ->
  randomOK (random w) ->
  exists enemies,
    Board.respawnEnemies w
    = (Return tt,
       mkWorld (setEntities (board w) (filter noEnemy (nonPlayerEntities (board w)) ++ enemies))
               (random w) (3 * numberOfEnemies (board w) + drawn w)) /\
    List.length enemies = numberOfEnemies (board w) /\
    Forall (fun e => Entity.instanceofEnemy e = true /\ removeOnHit e = false) enemies.
Proof.
  intros Hg Hroad Hcols Hd Hrandom.
  set (w0 := mkWorld (setEntities (board w) (filter noEnemy (nonPlayerEntities (board w))))
                     (random w) (drawn w)).
  destruct (spawnEnemies_appends d (numberOfEnemies (board w)) w0 Hg Hroad Hcols Hd Hrandom)
    as (enemies & Hrun & Hlen & Hall).
  exists enemies. split; [|split; [exact Hlen | exact Hall]].
  unfold Board.respawnEnemies, getBoard, putBoard, bind. cbn [board random drawn].
  fold noEnemy. fold w0. rewrite Hrun. reflexivity.
Qed.

(** X29: on a board with a road row, a column and a cell visual template
    that has dimensions, [respawnEnemies] returns: it has removed every
    enemy and appended [numberOfEnemies] new ones, none of them removed
    when hit, and has left the other entities in their order.  It draws
    three samples for each enemy, and leaves the player and the grid as
    they are. *)
Theorem respawnEnemies_replaces (w : World) (d : Dimensions.t)
    (Hg : constructed (_grid (board w)))
    (Hroad : In road (BoardGrid._rowTypes (_grid (board w))))
    (Hcols : (1 <= BoardGrid.numberOfColumns (_grid (board w)))%nat)
    (Hd : EntityVisual.dimensions (BoardGrid.cellVisualTemplate (_grid (board w))) = Some d)
    (Hrandom : randomOK (random w)) :
  exists w' enemies,
    Board.respawnEnemies w = (Return tt, w') /\
    nonPlayerEntities (board w') = filter noEnemy (nonPlayerEntities (board w)) ++ enemies /\
    List.length enemies = numberOfEnemies (board w) /\
    Forall (fun e => Entity.instanceofEnemy e = true /\ removeOnHit e = false) enemies /\
    countEnemies (board w') = numberOfEnemies (board w) /\
    player (board w') = player (board w) /\
    sameSetup (board w) (board w') /\
    random w' = random w /\
    drawn w' = (3 * numberOfEnemies (board w) + drawn w)%nat.
Proof.
  destruct (respawnEnemies_general w d Hg Hroad Hcols Hd Hrandom)
    as (enemies & Hrun & Hlen & Hall).
  eexists _, enemies. split; [exact Hrun|].
  cbn [board random drawn nonPlayerEntities setEntities player].
  split; [reflexivity|]. split; [exact Hlen|]. split; [exact Hall|].
  split; [|split; [reflexivity|]; split; [split; reflexivity|]; split; reflexivity].
  unfold countEnemies. cbn [nonPlayerEntities setEntities].
  rewrite filter_app, filter_noEnemy_enemies. cbn [app].
  rewrite <- Hlen. f_equal. apply forallb_filter_id. apply forallb_forall.
  rewrite Forall_forall in Hall. intros e He. apply Hall, He.
Qed.

Lemma respawnEnemies_replaces_witness :
  exists w' enemies,
    Board.respawnEnemies enemyWorld = (Return tt, w') /\
    nonPlayerEntities (board w')
    = filter noEnemy (nonPlayerEntities (board enemyWorld)) ++ enemies /\
    List.length enemies = 1%nat.
Proof.
  assert (Hg : constructed (_grid (board enemyWorld))) by reflexivity.
  assert (Hroad : In road (BoardGrid._rowTypes (_grid (board enemyWorld)))) by (cbn; tauto).
  assert (Hcols : (1 <= BoardGrid.numberOfColumns (_grid (board enemyWorld)))%nat)
    by (cbn; lia).
  destruct (respawnEnemies_replaces enemyWorld (Dimensions.mk 101 171) Hg Hroad Hcols eq_refl
              halves_ok) as (w' & enemies & Hrun & Hentities & Hlen & _).
  exists w', enemies. split; [exact Hrun|]. split; [exact Hentities | exact Hlen].
Defined.

(** ** The constructor of the board *)

Lemma filter_noEnemy_id (entities : list Entity) :
  Forall (fun e => Entity.instanceofEnemy e = false) entities ->
  filter noEnemy entities = entities.
Proof.
  intros H. apply forallb_filter_id, forallb_forall. rewrite Forall_forall in H.
  intros e He. unfold noEnemy. now rewrite (H e He).
Qed.

(** X30: for row types with a road row, a column, a cell visual template
    with dimensions and samples from 0 to 1, the indices drawn for the
    diamonds being indices of road cells and pairwise different, the
    constructor of the board returns.  The entities of the board are then
    the cells of the grid, the diamonds and the enemies, in that order and
    as many as asked for; the player stands centred on the start cell with
    the score 0; one sample is drawn for each diamond and three for each
    enemy. *)
Theorem Board_new_builds (numberOfColumns : nat) (rowTypes : list CellType)
    (numberOfEnemies0 numberOfDiamonds0 : nat) (range : Range.t) (template : EntityVisual.t)
    (d : Dimensions.t) (canvas : Dimensions.t) (fuel : nat) (samples : nat -> Q) (drawn0 : nat)
    (Hroad : In road rowTypes)
    (Hcols : (1 <= numberOfColumns)%nat)
    (Hd : EntityVisual.dimensions template = Some d)
    (Hrandom : randomOK samples)
    (Hfuel : (numberOfDiamonds0 <= fuel)%nat)
    (Hrange : forall k, (k < numberOfDiamonds0)%nat ->
       (0 <= drawnIndex (underConstruction numberOfColumns rowTypes numberOfEnemies0
                           numberOfDiamonds0 range template canvas samples drawn0) k
        < Z.of_nat (List.length (roadCellsOf (BoardGrid.new template numberOfColumns rowTypes
                                                template canvas))))%Z)
    (Hdistinct : NoDup (map (drawnIndex (underConstruction numberOfColumns rowTypes
                                           numberOfEnemies0 numberOfDiamonds0 range template
                                           canvas samples drawn0))
                            (seq 0 numberOfDiamonds0))) :
  let grid := BoardGrid.new template numberOfColumns rowTypes template canvas in
  exists w diamonds enemies fresh,
    Board.new numberOfColumns rowTypes numberOfEnemies0 numberOfDiamonds0 range template canvas
              fuel samples drawn0 = Some (Return tt, w) /\
    _grid (board w) = grid /\
    nonPlayerEntities (board w) = BoardGrid.cells grid ++ diamonds ++ enemies /\
    List.length diamonds = numberOfDiamonds0 /\
    Forall (fun e => Entity.instanceofDiamond e = true) diamonds /\
    List.length enemies = numberOfEnemies0 /\
    Forall (fun e => Entity.instanceofEnemy e = true /\ removeOnHit e = false) enemies /\
    player (board w) = Some fresh /\
    fresh = mkPlayer (super fresh) (playerStartPosition grid) 0 /\
    centredOnItsCell grid fresh /\
    random w = samples /\
    drawn w = (3 * numberOfEnemies0 + (numberOfDiamonds0 + drawn0))%nat.
Proof.
  intros grid.
  set (w0 := underConstruction numberOfColumns rowTypes numberOfEnemies0 numberOfDiamonds0
               range template canvas samples drawn0) in *.
  assert (Hg : constructed grid) by apply constructed_new.
  pose proof (newRows_cells template numberOfColumns rowTypes 0 0) as Hcells.
  change (Forall (fun c => Entity.instanceofBoardGridCell c = true) (BoardGrid.cells grid))
    in Hcells.
  destruct (cells_no_enemy _ Hcells) as [_ Hnone].
  destruct (placeDiamonds_general fuel w0 Hg Hnone Hfuel Hrange Hdistinct)
    as (diamonds & Hplace & Hlen & Hall).
  assert (Hdiamonds : Forall (fun e => Entity.instanceofDiamond e = true) diamonds).
  { apply Forall_forall. intros e He. apply In_nth_error in He. destruct He as [k Hk].
    destruct (Hall k e Hk) as (cell & _ & Hon). exact (diamondOn_diamond _ _ Hon). }
  assert (Hrows : (1 <= BoardGrid.numberOfRows grid)%nat).
  { unfold BoardGrid.numberOfRows, grid. cbn [BoardGrid._rowTypes BoardGrid.new].
    destruct rowTypes; [destruct Hroad | cbn [List.length]; lia]. }
  destruct (Player_new_on_grid grid Hg Hrows Hcols) as (fresh & Hnew & Hfields & Hon).
  set (w2 := mkWorld (setPlayer (board (placed w0 diamonds numberOfDiamonds0)) fresh)
                     samples (numberOfDiamonds0 + drawn0)).
  destruct (respawnEnemies_general w2 d Hg Hroad Hcols Hd Hrandom)
    as (enemies & Hrespawn & Hlen' & Hall').
  eexists _, diamonds, enemies, fresh. split.
  { unfold Board.new. fold grid. change (mkWorld _ samples drawn0) with w0.
    change (numberOfDiamonds (board w0)) with numberOfDiamonds0 in Hplace. rewrite Hplace.
    unfold liftC, getBoard, putBoard, bind.
    change (_grid (board (placed w0 diamonds numberOfDiamonds0))) with grid. rewrite Hnew.
    cbn [fst snd]. exact (f_equal Some Hrespawn). }
  cbn [board random drawn nonPlayerEntities setEntities setPlayer player _grid w2 placed w0
       underConstruction numberOfEnemies].
  split; [reflexivity|]. split.
  { rewrite filter_noEnemy_id, <- app_assoc; [reflexivity|].
    apply Forall_app. split.
    - eapply Forall_impl; [|exact Hcells]. intros e. unfold Entity.instanceofBoardGridCell,
        Entity.instanceofEnemy. now destruct (class e).
    - eapply Forall_impl; [|exact Hdiamonds]. intros e. unfold Entity.instanceofDiamond,
        Entity.instanceofEnemy. now destruct (class e). }
  split; [exact Hlen|]. split; [exact Hdiamonds|]. split; [exact Hlen'|].
  split; [exact Hall'|]. split; [reflexivity|]. split; [exact Hfields|].
  split; [exact Hon|]. split; reflexivity.
Qed.

Lemma Board_new_builds_witness :
  exists w diamonds enemies,
    Board.new 2 [water; road; grass] 1 1 engineRange engineTemplate engineCanvas 1 halves 0
    = Some (Return tt, w) /\
    nonPlayerEntities (board w) = BoardGrid.cells smallGrid ++ diamonds ++ enemies /\
    List.length diamonds = 1%nat /\ List.length enemies = 1%nat.
Proof.
  assert (Hroad : In road [water; road; grass]) by (cbn; tauto).
  assert (Hcols : (1 <= 2)%nat) by lia.
  assert (Hfuel : (1 <= 1)%nat) by lia.
  assert (Hrange : forall k, (k < 1)%nat ->
            (0 <= drawnIndex (underConstruction 2 [water; road; grass] 1 1 engineRange
                                engineTemplate engineCanvas halves 0) k
             < Z.of_nat (List.length (roadCellsOf (BoardGrid.new engineTemplate 2
                                                     [water; road; grass] engineTemplate
                                                     engineCanvas))))%Z).
  { intros [|k] Hk; [vm_compute; split; [discriminate | reflexivity] | lia]. }
  assert (Hdistinct : NoDup (map (drawnIndex (underConstruction 2 [water; road; grass] 1 1
                                                engineRange engineTemplate engineCanvas halves 0))
                                 (seq 0 1))).
  { apply NoDup_cons; [intros [] | apply NoDup_nil]. }
  destruct (Board_new_builds 2 [water; road; grass] 1 1 engineRange engineTemplate
              (Dimensions.mk 101 171) engineCanvas 1 halves 0 Hroad Hcols eq_refl halves_ok
              Hfuel Hrange Hdistinct)
    as (w & diamonds & enemies & _ & Hrun & _ & Hentities & Hlen & _ & Hlen' & _).
  exists w, diamonds, enemies. split; [exact Hrun|]. split; [exact Hentities|].
  split; [exact Hlen | exact Hlen'].
Defined.
